(* ===== verification/_CoqProject ===== *)
-Q . S2P
Prelude.v
Text.v
JsNum.v
Store.v
Features.v
Baseline.v
Platform.v
AuditLog.v
Engine.v
Enforcer.v
EventLoop.v
AllowList.v
RoleGuard.v
Reverting.v
Chat.v
RoleCommands.v
Commands.v
RoleSafety.v
Gate.v
MMState.v
Tickets.v
Profit.v
Vouch.v
MMListener.v
Interactions.v
TicketSafety.v
MMSystem.v
