(* ===== verification/Prelude.v ===== *)
(** * SecurityBot: a verification development of [src/index.js]

    The program is one discord.js script, [src/index.js] (1998 lines).  It
    moderates a community server and runs a middleman (MM) service.  Its
    parts, and how they interact:
    - Identifier sets: the deny-list [blacklist.txt], the allow-list
      [whitelist.txt], the operator list [allowedUsers.txt] and the ticket
      registry [tickets.txt].  They are flat files with one id per line,
      read by [readSet] and written by [writeSet], [addIds] and
      [removeIds] (lines 56-123).  Every other part reads them.
    - The feature flags [FEATURES] (lines 185-228): a JS object merged
      from [DEFAULT_FEATURES] and [features.json].  The moderation
      listeners test them; the staff commands [+enable]/[+disable] write
      them.
    - The role baseline [ORIGINAL_ROLE_STATE] and the set
      [REVERTING_ROLES] (lines 146-182), kept by [roleUpdate].
    - The moderation listeners [guildBanAdd], [channelDelete],
      [roleDelete] (two), [roleCreate], [roleUpdate], [guildMemberRemove]
      and [guildMemberAdd] (lines 417-757).  Each attributes its event to
      an executor through the audit trail and deny-lists it through
      [addExecutorToBlacklist].
    - The deny-list sweep [enforce], run every second (lines 362-407): it
      bans every deny-listed member.
    - The staff command listener (lines 1343-1974): list, flag and role
      commands for the members of [allowedUsers.txt].
    - The MM block (lines 231-310 and 759-1342): a second [messageCreate]
      listener for the MM role (panels, the ticket commands, the profit
      ledger [profit.txt], the vouch ticker), and the [interactionCreate]
      handler (request modal, ticket buttons, the [+hit] buttons).  It
      shares [tickets.txt], [user_ids.txt] and the platform with the rest.

    ** Files, in dependency order, and what they model

    - [Prelude] (this file): the state and exception monad [M S A] of the
      async handlers, its notation in [bot_scope], the preorder calculus
      [steps] with its hint database [bot], and JS [Set]s as
      duplicate-free lists in insertion order.
    - [Text]: [trim], [split(/\r?\n/)], [parseUserId], [/^\d{5,}$/],
      and the parsing and printing of the id files.
    - [JsNum]: JS numbers as IEEE-754 doubles ([JNum]: a finite dyadic
      value, [NaN], signed [Infinity]), rounding to nearest with ties to
      even, subnormals and overflow ([round_double]), [+], [*],
      [Math.round], and [Number()] on strings ([js_number]).
    - [Store]: [readSet], [writeSet], [addIds], [removeIds],
      [isAllowedUser] and the ticket registry; the class [SetStore] is the
      abstract contract of an id set and [fs_store] its refinement.
    - [Features]: [DEFAULT_FEATURES], [loadFeatures] with JSON values and
      object spread, [normalizeFeatureKey], truthiness, [listFeaturesPretty].
    - [Baseline]: [getOriginalRoleState], [setOriginalRoleState],
      [removeOriginalRoleState], [snapshotGuildRoles].
    - [Platform]: the world the handlers share with discord.js (guilds,
      members, bans, roles, audit trail with lag, files, the trace of
      calls) and the calls that may fail, by an oracle.
    - [AuditLog]: [fetchAuditLogs] with [limit: 5], the target and age
      filter, and the ban handler's single retry.
    - [Engine]: one definition per moderation listener, composed as the
      code composes it.  [Enforcer]: the sweep.  [EventLoop]: [ready],
      the dispatch of gateway events, and the runs of the process.
    - [AllowList], [RoleGuard], [Reverting], [Gate]: the theorems on the
      moderation listeners and the flags.
    - [Chat], [RoleCommands], [Commands]: the staff listener, every
      branch in order.  [RoleSafety]: what a staff message may do.
    - [MMState]: the state of the MM block (channels with permission
      overwrites, pending timeouts, the ticker's variables, [profit.txt]).
      [Tickets], [Profit], [Vouch], [MMListener], [Interactions]: its
      commands, ledger, ticker, listener and interaction handler.
      [TicketSafety]: the ticket privacy invariant step by step.
      [MMSystem]: the two [messageCreate] listeners in order, and runs of
      the block's events.

    ** What the theorems show

    - Safety along runs: the allow-list is never changed by a listener
      and nothing allow-listed is deny-listed ([AllowList]); the sweep
      bans only targets ([Enforcer]); a staff message only touches roles
      below the bot's ([RoleSafety]); tickets stay private, unless
      [+transfer] is given the guild id, in every world where that
      command is accepted ([TicketSafety], [MMSystem]).
    - Functional behaviour per branch: [roleUpdate]'s three outcomes and
      its partial failure and the baseline it records, the sweep's exact
      effect (bans, failed fetches, failed bans), the audit lookup,
      the staff gate, the list and flag commands, [+tprofit], the request
      modal, [hit_accept].
    - Round trips: file parse after print, add then remove, [+blacklist]
      then [+unblacklist], [+save] then [+recover], feature keys.
    - Invariants: [FEATURES] well formed, [REVERTING_ROLES] empty between
      handlers, tickets private.
    - Refinement: the files implement the abstract id-set contract.
    - Equivalence: [REVERTING_ROLES] never changes a result.
    - Bounds: the 50-id chunks of [+view]; [VOUCH_MS] after
      [+vouchinterval] as a double, and the delay Node's [setInterval]
      actually uses (1 ms below 0.0005 s and above 2^31-1 ms); the
      ledger's sums as doubles.
    - Findings: spec-versus-code divergences and gaps, stated as theorems
      for every input of the branch (the [+disable] prefix, lenient
      flags, the ledger's gate, [+help] twice).

    ** Bounds and fuel

    The only loop that is not structural is the chunking of [+view]:
    [chunks_go] runs with fuel [length l], which is enough because every
    round but the last removes 50 ids; [chunks_spec] states the chunks
    it returns.  Every other loop is over a list ([forM_], [foldM], [foldl]) and is
    structural.  The numeric bounds are the code's own: ids of at least 5
    digits, 5 audit entries, a 1.5 s retry, 50 ids per embed, 95
    characters of channel name, 3 s before a ticket is deleted, a
    30-minute member refetch, and Node's timer range [1, 2^31-1] ms
    ([node_delay]).

    ** Modelling choices

    - A handler is a computation of [M S unit].  A throw is the [Exn]
      outcome, with the state reached before it, as in JS.  A [catch]
      turns it back into a return ([tryCatch], [swallow]).
    - A JS [Set] is a [NoDup] list in insertion order, because the sweep
      bans in file order and [writeSet] prints in set order.  The [gset]
      view is the abstraction of the refinement theorems.
    - Handlers run to completion, one event at a time.  The platform's
      answers (failures, audit visibility, new channel ids, random picks)
      come from oracles in the world, so every theorem holds for every
      answer the oracles may give.
    - JS numbers are doubles: every [+], [*] and parse rounds its exact
      result with [round_double] ([JsNum]).  [JSON.stringify] writes non-finite numbers as
      [null], which reads back as [0] through [|| 0]; it is modelled as
      [NaN], which [|| 0] also maps to [0].

    ** Not modelled

    - Interleavings of [await] points between handlers: discord.js does
      not await a listener before the next event, but the model runs each
      handler to completion.  Hence no theorem is claimed about two
      overlapping runs of a handler; in particular two overlapping
      [startVouchTicker] runs may each arm an interval (see the
      findings).
    - Display only: [fmtUSD], [nowStamp],
      [buildProfitEmbed], [buildMMPanelEmbed], the embed texts, colours
      and images; replies are identified by their titles, and the
      [+settings] reply also by its feature list ([listFeaturesPretty]).
    - Process wiring with no state of its own: [client.on('error')], the
      [DISCORD_TOKEN] check at startup, [client.login], console logging.
    - File-system failures: [fs.writeFile] is modelled as succeeding.
    - The Unicode white space of JS [trim] and [Number()] beyond ASCII,
      and UTF-16.
    - Negative zero, which no line of the program tells apart from 0. *)

From Stdlib Require Import ZArith Ascii.
From Stdlib Require Strings.String.
From stdpp Require Export base gmap strings list pretty.

Create HintDb bot.
Create Rewrite HintDb bot_rw.
Create Rewrite HintDb world_rw.

(** ** The handler monad: state threading with JS exceptions *)

Inductive res (A : Type) : Type :=
| Ok (a : A)
| Exn.
Arguments Ok {A} a.
Arguments Exn {A}.

Definition M (S A : Type) : Type := S -> res A * S.

Section Monad.
  Context {S : Type}.

Definition retM {A} (a : A) : M S A := fun s => (Ok a, s).

Definition bindM {A B} (m : M S A) (k : A -> M S B) : M S B :=
    fun s => match m s with
             | (Ok a, s') => k a s'
             | (Exn, s') => (Exn, s')
             end.

  (** [throw]: a rejected promise or a thrown error. *)
Definition throwM {A} : M S A := fun s => (Exn, s).

Definition getM : M S S := fun s => (Ok s, s).
Definition getsM {A} (f : S -> A) : M S A := fun s => (Ok (f s), s).
Definition modifyM (f : S -> S) : M S unit := fun s => (Ok tt, f s).

  (** [try { m } catch { h }]: the handler runs in the state the throw left. *)
Definition tryCatch {A} (m : M S A) (h : M S A) : M S A :=
    fun s => match m s with
             | (Exn, s') => h s'
             | r => r
             end.

  (** [try { m } finally { f }]: [f] always runs; its own throw wins. *)
Definition tryFinally {A} (m : M S A) (f : M S unit) : M S A :=
    fun s => match m s with
             | (r, s') => match f s' with
                          | (Ok _, s'') => (r, s'')
                          | (Exn, s'') => (Exn, s'')
                          end
             end.

  (** The outer [try { ... } catch {}] of every listener. *)
Definition swallow (m : M S unit) : M S unit := tryCatch m (retM tt).

Definition whenM (b : bool) (m : M S unit) : M S unit :=
    if b then m else retM tt.

  (** [for (const x of l) { f(x) }] *)
Fixpoint forM_ {A} (l : list A) (f : A -> M S unit) : M S unit :=
    match l with
    | [] => retM tt
    | x :: l' => bindM (f x) (fun _ => forM_ l' f)
    end.

  (** Sequential fold, for loops that thread a local accumulator. *)
Fixpoint foldM {A B} (f : B -> A -> M S B) (acc : B) (l : list A) : M S B :=
    match l with
    | [] => retM acc
    | x :: l' => bindM (f acc x) (fun acc' => foldM f acc' l')
    end.

Definition final {A} (m : M S A) (s : S) : S := snd (m s).
Definition outcome {A} (m : M S A) (s : S) : res A := fst (m s).
End Monad.

Declare Scope bot_scope.
Delimit Scope bot_scope with bot.
Notation "'let*' x ':=' c1 'in' c2" := (bindM c1 (fun x => c2))
  (at level 100, x pattern, c1 at next level, right associativity) : bot_scope.
Notation "c1 ;; c2" := (bindM c1 (fun _ => c2)) : bot_scope.
Open Scope bot_scope.

(** ** Monad laws and run equations *)

Section MonadLemmas.
  Context {S : Type}.

Lemma bindM_retM_l {A B} (a : A) (k : A -> M S B) : bindM (retM a) k = k a.
  Proof. reflexivity. Qed.

Lemma bindM_retM_r {A} (m : M S A) s : bindM m retM s = m s.
  Proof. unfold bindM, retM. by destruct (m s) as [[] ?]. Qed.

Lemma bindM_assoc {A B C} (m : M S A) (k : A -> M S B) (h : B -> M S C) s :
    bindM (bindM m k) h s = bindM m (fun a => bindM (k a) h) s.
  Proof. unfold bindM. by destruct (m s) as [[] ?]. Qed.

Lemma bindM_Ok {A B} (m : M S A) (k : A -> M S B) s a s' :
    m s = (Ok a, s') -> bindM m k s = k a s'.
  Proof. unfold bindM. by intros ->. Qed.

Lemma bindM_Exn {A B} (m : M S A) (k : A -> M S B) s s' :
    m s = (Exn, s') -> bindM m k s = (Exn, s').
  Proof. unfold bindM. by intros ->. Qed.

Lemma snd_bindM_Ok {A B} (m : M S A) (k : A -> M S B) s a :
    fst (m s) = Ok a -> snd (bindM m k s) = snd (k a (snd (m s))).
  Proof. unfold bindM. destruct (m s) as [r s']. simpl. by intros ->. Qed.

Lemma forM_ok {A} (l : list A) (f : A -> M S unit) s :
    (forall x s, fst (f x s) = Ok tt) -> fst (forM_ l f s) = Ok tt.
  Proof.
    intros Hf. revert s. induction l as [|x l IH]; intros s; [done|]. simpl.
    unfold bindM. specialize (Hf x s). destruct (f x s) as [r s']. simpl in Hf. subst. apply IH.
  Qed.

Lemma swallow_final (m : M S unit) s :
    swallow m s = (Ok tt, final m s).
  Proof.
    unfold swallow, tryCatch, final, retM.
    by destruct (m s) as [[[]|] ?].
  Qed.

Lemma final_modifyM_bind {A} (f : S -> S) (m : M S A) s :
    final (modifyM f ;; m) s = final m (f s).
  Proof. reflexivity. Qed.

Lemma forM_app {A} (l1 l2 : list A) (f : A -> M S unit) s :
    forM_ (l1 ++ l2) f s = bindM (forM_ l1 f) (fun _ => forM_ l2 f) s.
  Proof.
    revert s. induction l1 as [|x l1 IH]; intros s; simpl.
    - reflexivity.
    - rewrite bindM_assoc. unfold bindM at 1 2.
      destruct (f x s) as [[]?]; [apply IH | done].
  Qed.
End MonadLemmas.

#[export] Hint Rewrite @bindM_retM_l @bindM_assoc @swallow_final : bot_rw.

(** ** Generic list lemmas *)

Lemma filter_all_True {A} (P : A -> Prop) `{forall x, Decision (P x)} (l : list A) :
  (forall x, x ∈ l -> P x) -> filter P l = l.
Proof.
  induction l as [|x l IH]; intros Hl; [done|].
  rewrite filter_cons_True by set_solver. rewrite IH; set_solver.
Qed.

Lemma filter_all_False {A} (P : A -> Prop) `{!forall x, Decision (P x)} (l : list A) :
  Forall (fun x => ~ P x) l -> filter P l = [].
Proof. induction 1; simpl; [done|]. by rewrite filter_cons_False. Qed.

(** ** Weakest preconditions

    [wp m Q s]: the run of [m] from [s] ends with an outcome and a state
    satisfying [Q].  The rules below are used backwards, one per
    combinator, so that a proof about a whole handler walks through its
    code in order ([wp_step]). *)

Section Wp.
  Context {S : Type}.

Definition wp {A} (m : M S A) (Q : res A -> S -> Prop) (s : S) : Prop :=
    Q (fst (m s)) (snd (m s)).

Lemma wp_final {A} (m : M S A) (P : S -> Prop) s :
    wp m (fun _ s' => P s') s -> P (final m s).
  Proof. done. Qed.

Lemma wp_retM {A} (a : A) Q s : Q (Ok a) s -> wp (retM a) Q s.
  Proof. done. Qed.

Lemma wp_throwM {A} (Q : res A -> S -> Prop) s : Q Exn s -> wp throwM Q s.
  Proof. done. Qed.

Lemma wp_getsM {A} (f : S -> A) Q s : Q (Ok (f s)) s -> wp (getsM f) Q s.
  Proof. done. Qed.

Lemma wp_getM Q s : Q (Ok s) s -> wp getM Q s.
  Proof. done. Qed.

Lemma wp_modifyM f Q s : Q (Ok tt) (f s) -> wp (modifyM f) Q s.
  Proof. done. Qed.

Lemma wp_bindM {A B} (m : M S A) (k : A -> M S B) Q s :
    wp m (fun r s' => match r with Ok a => wp (k a) Q s' | Exn => Q Exn s' end) s ->
    wp (bindM m k) Q s.
  Proof. unfold wp, bindM. by destruct (m s) as [[]?]. Qed.

Lemma wp_tryCatch {A} (m h : M S A) Q s :
    wp m (fun r s' => match r with Ok a => Q (Ok a) s' | Exn => wp h Q s' end) s ->
    wp (tryCatch m h) Q s.
  Proof. unfold wp, tryCatch. by destruct (m s) as [[]?]. Qed.

Lemma wp_tryFinally {A} (m : M S A) (f : M S unit) Q s :
    wp m (fun r s' => wp f (fun r' s'' => match r' with Ok _ => Q r s'' | Exn => Q Exn s'' end) s') s ->
    wp (tryFinally m f) Q s.
  Proof. unfold wp, tryFinally. destruct (m s) as [r s']. simpl. by destruct (f s') as [[]?]. Qed.

Lemma wp_swallow (m : M S unit) Q s :
    wp m (fun _ s' => Q (Ok tt) s') s -> wp (swallow m) Q s.
  Proof. unfold wp, swallow, tryCatch. by destruct (m s) as [[[]|]?]. Qed.

Lemma wp_whenM (b : bool) (m : M S unit) Q s :
    (if b then wp m Q s else Q (Ok tt) s) -> wp (whenM b m) Q s.
  Proof. by destruct b. Qed.

Lemma wp_if {A} (b : bool) (m1 m2 : M S A) Q s :
    (if b then wp m1 Q s else wp m2 Q s) -> wp (if b then m1 else m2) Q s.
  Proof. by destruct b. Qed.

Lemma wp_mono {A} (m : M S A) (Q Q' : res A -> S -> Prop) s :
    (forall r s', Q r s' -> Q' r s') -> wp m Q s -> wp m Q' s.
  Proof. unfold wp. auto. Qed.

Lemma wp_forM_ {A} (l : list A) (f : A -> M S unit) (I : S -> Prop) s :
    I s -> (forall x s, x ∈ l -> I s -> wp (f x) (fun _ s' => I s') s) ->
    wp (forM_ l f) (fun _ s' => I s') s.
  Proof.
    revert s. induction l as [|x l IH]; intros s Hs Hf; [done|]. simpl.
    apply wp_bindM. eapply wp_mono, Hf; [|set_solver|done].
    intros [] s' Hs'; [|done]. apply IH; [done|]. intros. apply Hf; set_solver.
  Qed.
End Wp.

(** One backward step of the weakest-precondition calculus. *)
Ltac wp_step :=
  match goal with
  | |- wp (bindM _ _) _ _ => apply wp_bindM
  | |- wp (retM _) _ _ => apply wp_retM
  | |- wp throwM _ _ => apply wp_throwM
  | |- wp (getsM _) _ _ => apply wp_getsM
  | |- wp getM _ _ => apply wp_getM
  | |- wp (modifyM _) _ _ => apply wp_modifyM
  | |- wp (tryCatch _ _) _ _ => apply wp_tryCatch
  | |- wp (tryFinally _ _) _ _ => apply wp_tryFinally
  | |- wp (swallow _) _ _ => apply wp_swallow
  | |- wp (whenM _ _) _ _ => apply wp_whenM
  | |- wp (if _ then _ else _) _ _ => apply wp_if
  end.

(** ** Step relations of the handler monad

    [steps R m]: every run of [m], normal or by an exception, relates its
    start state to its end state by [R].  [R] is a preorder, so that the
    relation of a composed handler follows from those of its parts.  An
    invariant [P] is the preorder [fun s s' => P s -> P s'].  Handlers
    are built from the combinators above, so a property is proved once
    per primitive step and then by [steps_auto] for the whole handler. *)

Section Steps.
  Context {S : Type} (R : S -> S -> Prop) `{!PreOrder R}.

Definition steps {A} (m : M S A) : Prop := forall s, R s (snd (m s)).

Lemma steps_retM {A} (a : A) : steps (retM a).
  Proof. intros s. simpl. reflexivity. Qed.

Lemma steps_throwM {A} : steps (@throwM S A).
  Proof. intros s. simpl. reflexivity. Qed.

Lemma steps_getsM {A} (f : S -> A) : steps (getsM f).
  Proof. intros s. simpl. reflexivity. Qed.

Lemma steps_getM : steps getM.
  Proof. intros s. simpl. reflexivity. Qed.

Lemma steps_modifyM (f : S -> S) : (forall s, R s (f s)) -> steps (modifyM f).
  Proof. intros Hf s. apply Hf. Qed.

Lemma steps_bindM {A B} (m : M S A) (k : A -> M S B) :
    steps m -> (forall a, steps (k a)) -> steps (bindM m k).
  Proof.
    intros Hm Hk s. unfold bindM. specialize (Hm s).
    destruct (m s) as [[a|] s']; simpl in *; [|done]. etrans; [exact Hm | apply Hk].
  Qed.

Lemma steps_tryCatch {A} (m h : M S A) : steps m -> steps h -> steps (tryCatch m h).
  Proof.
    intros Hm Hh s. unfold tryCatch. specialize (Hm s).
    destruct (m s) as [[a|] s']; simpl in *; [done|]. etrans; [exact Hm | apply Hh].
  Qed.

Lemma steps_tryFinally {A} (m : M S A) (f : M S unit) : steps m -> steps f -> steps (tryFinally m f).
  Proof.
    intros Hm Hf s. unfold tryFinally. specialize (Hm s). destruct (m s) as [r s'].
    specialize (Hf s'). destruct (f s') as [[]?]; simpl in *; by etrans.
  Qed.

Lemma steps_swallow (m : M S unit) : steps m -> steps (swallow m).
  Proof. intros. apply steps_tryCatch; [done | apply steps_retM]. Qed.

Lemma steps_whenM b (m : M S unit) : steps m -> steps (whenM b m).
  Proof. destruct b; [done | intros _; apply steps_retM]. Qed.

Lemma steps_forM_ {A} (l : list A) (f : A -> M S unit) :
    (forall x, steps (f x)) -> steps (forM_ l f).
  Proof.
    intros Hf. induction l as [|x l IH]; simpl; [apply steps_retM | by apply steps_bindM].
  Qed.

Lemma steps_forM_in {A} (l : list A) (f : A -> M S unit) :
    (forall x, x ∈ l -> steps (f x)) -> steps (forM_ l f).
  Proof.
    intros Hf. induction l as [|x l IH]; simpl; [apply steps_retM|].
    apply steps_bindM; [apply Hf; set_solver | intros _; apply IH; intros y Hy; apply Hf; set_solver].
  Qed.

Lemma steps_of_wp {A} (m : M S A) : (forall s, wp m (fun _ s' => R s s') s) -> steps m.
  Proof. done. Qed.

Lemma steps_wp {A} (m : M S A) s0 s : steps m -> R s0 s -> wp m (fun _ s' => R s0 s') s.
  Proof. intros Hm H. unfold wp. etrans; [exact H | apply Hm]. Qed.
End Steps.

(** A stronger relation steps a computation as well. *)
Lemma steps_impl {S A} (R1 R2 : S -> S -> Prop) (m : M S A) :
  (forall s s', R1 s s' -> R2 s s') -> steps R1 m -> steps R2 m.
Proof. intros H Hm s. apply H, Hm. Qed.

(** [steps_auto] decomposes a handler built from the combinators and
    leaves the primitive steps; it splits on the [if]s and [match]es of
    the handler's body. *)
Ltac steps_auto :=
  repeat match goal with
  | |- PreOrder _ => typeclasses eauto
  | H : forall _, steps ?R _ |- steps ?R _ => apply H
  | H : steps ?R ?m |- steps ?R ?m => exact H
  | |- steps _ (if _ then _ else _) => case_match
  | |- steps _ (match _ with _ => _ end) => case_match
  | |- steps _ (bindM _ _) => apply steps_bindM
  | |- steps _ (tryCatch _ _) => apply steps_tryCatch
  | |- steps _ (tryFinally _ _) => apply steps_tryFinally
  | |- steps _ (swallow _) => apply steps_swallow
  | |- steps _ (whenM _ _) => apply steps_whenM
  | |- steps _ (forM_ _ _) => apply steps_forM_
  | |- steps _ (retM _) => apply steps_retM
  | |- steps _ throwM => apply steps_throwM
  | |- steps _ (getsM _) => apply steps_getsM
  | |- steps _ getM => apply steps_getM
  | |- steps _ (modifyM _) => apply steps_modifyM
  | |- forall _ : _, steps _ _ => intros
  end.

(** ** Non-interference

    [respects E m]: runs of [m] from [E]-related states return the same
    result and end in [E]-related states.  With [E] "equal but for one
    field", it says that [m] never reads that field: its value cannot
    influence anything else. *)

Section Respects.
Context {S : Type} (E : S -> S -> Prop) `{!Equivalence E}.

Definition respects {A} (m : M S A) : Prop :=
  forall s1 s2, E s1 s2 -> fst (m s1) = fst (m s2) /\ E (snd (m s1)) (snd (m s2)).

Lemma respects_retM {A} (a : A) : respects (retM a).
Proof. by intros s1 s2 H. Qed.

Lemma respects_throwM {A} : respects (@throwM S A).
Proof. by intros s1 s2 H. Qed.

Lemma respects_getsM {A} (f : S -> A) :
  (forall s1 s2, E s1 s2 -> f s1 = f s2) -> respects (getsM f).
Proof. intros Hf s1 s2 H. split; [simpl; f_equal; by apply Hf | done]. Qed.

Lemma respects_modifyM (f : S -> S) :
  (forall s1 s2, E s1 s2 -> E (f s1) (f s2)) -> respects (modifyM f).
Proof. intros Hf s1 s2 H. split; [done | by apply Hf]. Qed.

Lemma respects_bindM {A B} (m : M S A) (k : A -> M S B) :
  respects m -> (forall a, respects (k a)) -> respects (bindM m k).
Proof.
  intros Hm Hk s1 s2 H. unfold bindM. destruct (Hm s1 s2 H) as [R1 R2].
  destruct (m s1) as [[a|] t1], (m s2) as [r2 t2]; simpl in *; subst; [|done]. by apply Hk.
Qed.

Lemma respects_tryCatch {A} (m h : M S A) : respects m -> respects h -> respects (tryCatch m h).
Proof.
  intros Hm Hh s1 s2 H. unfold tryCatch. destruct (Hm s1 s2 H) as [R1 R2].
  destruct (m s1) as [[a|] t1], (m s2) as [r2 t2]; simpl in *; subst; [done|]. by apply Hh.
Qed.

Lemma respects_tryFinally {A} (m : M S A) (f : M S unit) :
  respects m -> respects f -> respects (tryFinally m f).
Proof.
  intros Hm Hf s1 s2 H. unfold tryFinally. destruct (Hm s1 s2 H) as [R1 R2].
  destruct (m s1) as [r1 t1], (m s2) as [r2 t2]; simpl in *; subst.
  destruct (Hf t1 t2 R2) as [F1 F2].
  destruct (f t1) as [q1 u1], (f t2) as [q2 u2]; simpl in *; subst. by destruct q2.
Qed.

Lemma respects_swallow (m : M S unit) : respects m -> respects (swallow m).
Proof. intros. by apply respects_tryCatch, respects_retM. Qed.

Lemma respects_whenM b (m : M S unit) : respects m -> respects (whenM b m).
Proof. destruct b; [done | intros _; apply respects_retM]. Qed.

Lemma respects_forM_ {A} (l : list A) (f : A -> M S unit) :
  (forall x, respects (f x)) -> respects (forM_ l f).
Proof.
  intros Hf. induction l as [|x l IH]; simpl; [apply respects_retM | by apply respects_bindM].
Qed.

(** A run from a state and from a related one. *)
Lemma respects_final {A} (m : M S A) s1 s2 :
  respects m -> E s1 s2 -> E (final m s1) (final m s2).
Proof. intros Hm H. apply (Hm s1 s2 H). Qed.
End Respects.

Ltac respects_auto :=
  repeat match goal with
  | |- Equivalence _ => typeclasses eauto
  | H : forall _, respects ?E _ |- respects ?E _ => apply H
  | |- respects _ (if _ then _ else _) => case_match
  | |- respects _ (match _ with _ => _ end) => case_match
  | |- respects _ (bindM _ _) => apply respects_bindM
  | |- respects _ (tryCatch _ _) => apply respects_tryCatch
  | |- respects _ (tryFinally _ _) => apply respects_tryFinally
  | |- respects _ (swallow _) => apply respects_swallow
  | |- respects _ (whenM _ _) => apply respects_whenM
  | |- respects _ (forM_ _ _) => apply respects_forM_
  | |- respects _ (retM _) => apply respects_retM
  | |- respects _ throwM => apply respects_throwM
  | |- forall _ : _, respects _ _ => intros
  end.

(** ** JavaScript [Set]s: duplicate-free lists in insertion order *)

Section JsSet.
  Context {A : Type} `{EqDecision A}.

  (** [s.add(x)]: a new element goes to the end; a present one stays put. *)
Definition js_set_add (x : A) (s : list A) : list A :=
    if decide (x ∈ s) then s else s ++ [x].

  (** [s.delete(x)] *)
Definition js_set_delete (x : A) (s : list A) : list A :=
    filter (fun y => y ≠ x) s.

  (** [new Set(l)] *)
Definition js_set_of_list (l : list A) : list A :=
    foldl (fun s x => js_set_add x s) [] l.

Lemma elem_of_js_set_add x y s : y ∈ js_set_add x s <-> y = x \/ y ∈ s.
  Proof.
    unfold js_set_add. case_decide; [|rewrite elem_of_app, list_elem_of_singleton];
      naive_solver.
  Qed.

Lemma NoDup_js_set_add x s : NoDup s -> NoDup (js_set_add x s).
  Proof.
    unfold js_set_add. intros Hs. case_decide; [done|].
    apply NoDup_app. split; [done|]. split; [|apply NoDup_singleton].
    intros y Hy ->%list_elem_of_singleton. done.
  Qed.

Lemma js_set_add_present x s : x ∈ s -> js_set_add x s = s.
  Proof. unfold js_set_add. intros. by case_decide. Qed.

Lemma js_set_add_absent x s : x ∉ s -> js_set_add x s = s ++ [x].
  Proof. unfold js_set_add. intros. by case_decide. Qed.

Lemma elem_of_js_set_delete x y s : y ∈ js_set_delete x s <-> y ≠ x /\ y ∈ s.
  Proof. unfold js_set_delete. rewrite list_elem_of_filter. naive_solver. Qed.

Lemma NoDup_js_set_delete x s : NoDup s -> NoDup (js_set_delete x s).
  Proof. intros. by apply NoDup_filter. Qed.

Lemma js_set_delete_absent x s : x ∉ s -> js_set_delete x s = s.
  Proof.
    intros Hx. apply filter_all_True. set_solver.
  Qed.

Lemma js_set_delete_add x s : x ∉ s -> js_set_delete x (js_set_add x s) = s.
  Proof.
    intros Hx. rewrite js_set_add_absent by done.
    unfold js_set_delete. rewrite filter_app, filter_cons_False, filter_nil,
      app_nil_r by naive_solver.
    by apply js_set_delete_absent.
  Qed.

Lemma js_set_foldl_elem (l : list A) s y :
    y ∈ foldl (fun s x => js_set_add x s) s l <-> y ∈ s \/ y ∈ l.
  Proof.
    revert s. induction l as [|x l IH]; intros s; simpl.
    - set_solver.
    - rewrite IH, elem_of_js_set_add. set_solver.
  Qed.

Lemma js_set_foldl_NoDup (l : list A) s :
    NoDup s -> NoDup (foldl (fun s x => js_set_add x s) s l).
  Proof.
    revert s. induction l as [|x l IH]; intros s Hs; simpl; [done|].
    apply IH, NoDup_js_set_add, Hs.
  Qed.

Lemma elem_of_js_set_of_list l y : y ∈ js_set_of_list l <-> y ∈ l.
  Proof. unfold js_set_of_list. rewrite js_set_foldl_elem. set_solver. Qed.

Lemma NoDup_js_set_of_list l : NoDup (js_set_of_list l).
  Proof. apply js_set_foldl_NoDup, NoDup_nil_2. Qed.

  (** A duplicate-free list is its own set: [new Set(l)] keeps the order. *)
Lemma js_set_foldl_NoDup_app s l :
    NoDup (s ++ l) -> foldl (fun s x => js_set_add x s) s l = s ++ l.
  Proof.
    revert s. induction l as [|x l IH]; intros s Hnd; simpl.
    - by rewrite app_nil_r.
    - rewrite js_set_add_absent.
      + rewrite IH; [by rewrite <-app_assoc | by rewrite <-app_assoc].
      + intros Hx. apply NoDup_app in Hnd as (_ & Hdis & _).
        apply (Hdis x); [done | left].
  Qed.

Lemma js_set_of_list_NoDup l : NoDup l -> js_set_of_list l = l.
  Proof. intros. by apply (js_set_foldl_NoDup_app []). Qed.
End JsSet.

#[export] Hint Resolve NoDup_js_set_add NoDup_js_set_delete
  NoDup_js_set_of_list js_set_foldl_NoDup : bot.
#[export] Hint Rewrite @elem_of_js_set_add @elem_of_js_set_delete
  @elem_of_js_set_of_list : bot_rw.
