(* ===== verification/Text.v ===== *)
(** * Text: the string functions of [src/index.js]

    This file models the string handling that the identifier files and the
    commands rely on.
    - JS [String.prototype.trim] is [trim].  JS strings are UTF-16; here a
      string is a [Stdlib] string of 8-bit characters.  The white space is
      TAB, LF, VT, FF, CR and SPACE; the Unicode spaces that JS also trims
      are not represented.
    - [raw.split(/\r?\n/)] is [split_lines].
    - The test [/^\d{5,}$/.test(id)] is [is_snowflake].
    - [parseUserId] (lines 102-106) is [parseUserId].
    - The parsing half of [readSet] (lines 76-81) is [parse_set], and the
      printing half of [writeSet] (line 87) is [print_set].

    The main theorem is the round trip [parse_print]: reading back what
    [writeSet] printed gives the same set, for every set that [readSet]
    can produce. *)

From S2P Require Import Prelude.
From Stdlib Require Import Ascii.
From Stdlib Require Strings.String.

Module Text.

Local Open Scope string_scope.

(** ** Characters *)

Definition is_digit (c : ascii) : bool :=
  let n := nat_of_ascii c in (48 <=? n)%nat && (n <=? 57)%nat.

(** The characters JS [trim] removes, restricted to 8-bit characters. *)
Definition is_ws (c : ascii) : bool :=
  let n := nat_of_ascii c in ((9 <=? n)%nat && (n <=? 13)%nat) || (n =? 32)%nat.

Definition LF : ascii := "010"%char.
Definition CR : ascii := "013"%char.

(** ** [String.prototype.trim] *)

Fixpoint trim_start (s : string) : string :=
  match s with
  | EmptyString => EmptyString
  | String c s' => if is_ws c then trim_start s' else s
  end.

Fixpoint trim_end (s : string) : string :=
  match s with
  | EmptyString => EmptyString
  | String c s' =>
      let t := trim_end s' in
      if is_ws c && String.eqb t "" then "" else String c t
  end.

Definition trim (s : string) : string := trim_start (trim_end s).

(** ** [s.split(/\r?\n/)]

    The separator is LF, or CR immediately followed by LF.  A CR that is
    not followed by LF stays in its piece. *)

Definition cons_head (c : ascii) (l : list string) : list string :=
  match l with
  | [] => [String c ""]
  | x :: l' => String c x :: l'
  end.

Fixpoint split_lines (s : string) : list string :=
  match s with
  | EmptyString => [""]
  | String c s' =>
      if ascii_dec c LF then "" :: split_lines s'
      else if ascii_dec c CR then
        match s' with
        | String d s'' =>
            if ascii_dec d LF then "" :: split_lines s''
            else cons_head c (split_lines s')
        | EmptyString => cons_head c (split_lines s')
        end
      else cons_head c (split_lines s')
  end.

(** ** [readSet] parsing and [writeSet] printing *)

(** [new Set(raw.split(/\r?\n/).map(s => s.trim()).filter(Boolean))] *)
Definition parse_set (raw : string) : list string :=
  js_set_of_list (filter (fun x => x ≠ "") (map trim (split_lines raw))).

(** [raw.split(/\r?\n/).map(s => s.trim()).filter(Boolean)], the list
    [+recover], [+invall] and [+save] read from [user_ids.txt]. *)
Definition nonblank_lines (raw : string) : list string :=
  filter (fun x => x ≠ "") (map trim (split_lines raw)).

(** [[...set].join('\n') + (set.size ? '\n' : '')] *)
Definition print_set (s : list string) : string :=
  String.append (String.concat (String LF "") s)
    (match s with [] => "" | _ => String LF "" end).

(** ** Identifiers *)

Fixpoint string_forall (p : ascii -> bool) (s : string) : bool :=
  match s with
  | EmptyString => true
  | String c s' => p c && string_forall p s'
  end.

Fixpoint string_filter (p : ascii -> bool) (s : string) : string :=
  match s with
  | EmptyString => EmptyString
  | String c s' => if p c then String c (string_filter p s') else string_filter p s'
  end.

(** [/^\d{5,}$/.test(id)] *)
Definition is_snowflake (id : string) : bool :=
  string_forall is_digit id && (5 <=? String.length id)%nat.

(** The characters of the class [[<@!>#&]]. *)
Definition is_mention_punct (c : ascii) : bool :=
  match c with
  | "<"%char | "@"%char | "!"%char | ">"%char | "#"%char | "&"%char => true
  | _ => false
  end.

(** The characters of the class [[<@&>]]. *)
Definition is_role_punct (c : ascii) : bool :=
  match c with
  | "<"%char | "@"%char | "&"%char | ">"%char => true
  | _ => false
  end.

(** [arg.replace(/[<@&>]/g, '')]: a role id from an id or a role mention. *)
Definition strip_role (arg : string) : string :=
  string_filter (fun c => negb (is_role_punct c)) arg.

(** [parseUserId(str)]: [undefined] (a missing argument) is [None]. *)
Definition parseUserId (str : option string) : option string :=
  match str with
  | None | Some EmptyString => None
  | Some s =>
      let id := string_filter is_digit (string_filter (fun c => negb (is_mention_punct c)) s) in
      if is_snowflake id then Some id else None
  end.

(** ** Case, slices and splitting on a character class *)

(** [toLowerCase] on ASCII. *)
Definition ascii_lower (c : ascii) : ascii :=
  let n := nat_of_ascii c in
  if (65 <=? n)%nat && (n <=? 90)%nat then ascii_of_nat (n + 32) else c.

Fixpoint string_lower (s : string) : string :=
  match s with
  | EmptyString => EmptyString
  | String c s' => String (ascii_lower c) (string_lower s')
  end.

(** [s.slice(n)] *)
Fixpoint str_drop (n : nat) (s : string) : string :=
  match n, s with
  | O, _ => s
  | S n', String _ s' => str_drop n' s'
  | S _, EmptyString => EmptyString
  end.

(** [s.split(/[P]+/)] for a character class [P]: maximal runs of
    separators split, a leading or trailing run gives an empty piece. *)
Fixpoint split_on_go (p : ascii -> bool) (cur : string) (in_sep : bool) (s : string) : list string :=
  match s with
  | EmptyString => [cur]
  | String c s' =>
      if p c then
        if in_sep then split_on_go p cur true s' else cur :: split_on_go p "" true s'
      else split_on_go p (cur +:+ String c "") false s'
  end.

Definition split_on (p : ascii -> bool) (s : string) : list string := split_on_go p "" false s.

(** ** Lemmas on lines *)

Fixpoint last_char (s : string) : option ascii :=
  match s with
  | EmptyString => None
  | String c EmptyString => Some c
  | String _ s' => last_char s'
  end.

Definition head_char (s : string) : option ascii :=
  match s with EmptyString => None | String c _ => Some c end.

Definition not_ws (o : option ascii) : Prop :=
  match o with Some c => is_ws c = false | None => True end.

Definition no_lf (s : string) : Prop :=
  string_forall (fun c => negb (nat_of_ascii c =? 10)%nat) s = true.

(** A line [readSet] can return: non-empty, trimmed, without LF. *)
Definition clean (x : string) : Prop :=
  x ≠ "" /\ no_lf x /\ not_ws (head_char x) /\ not_ws (last_char x).

Lemma no_lf_cons c s : no_lf (String c s) <-> c ≠ LF /\ no_lf s.
Proof.
  unfold no_lf. simpl. rewrite andb_true_iff, negb_true_iff.
  split; intros [H1 H2]; split; auto.
  - intros ->. discriminate.
  - destruct (nat_of_ascii c =? 10)%nat eqn:E; [|done].
    exfalso. apply H1. apply Nat.eqb_eq in E. rewrite <-(ascii_nat_embedding c), E. reflexivity.
Qed.

Lemma last_char_cons c s :
  last_char (String c s) = match last_char s with None => Some c | o => o end.
Proof.
  revert c. induction s as [|d s IH]; intros c; [done|].
  change (last_char (String c (String d s))) with (last_char (String d s)).
  rewrite !IH. by destruct (last_char s).
Qed.

Lemma split_lines_cons_head c s :
  c ≠ LF -> c ≠ CR -> split_lines (String c s) = cons_head c (split_lines s).
Proof.
  intros H1 H2. simpl.
  destruct (ascii_dec c LF); [done|]. destruct (ascii_dec c CR); done.
Qed.

Lemma split_lines_CR d s :
  d ≠ LF -> split_lines (String CR (String d s)) = cons_head CR (split_lines (String d s)).
Proof.
  intros Hd. remember (String d s) as t eqn:Ht. simpl.
  destruct (ascii_dec CR LF); [discriminate|]. destruct (ascii_dec CR CR); [|done].
  subst t. cbv iota. by destruct (ascii_dec d LF).
Qed.

(** Splitting [x ++ "\n" ++ r] cuts after [x] when [x] has no LF and does
    not end with CR (otherwise the CR would join the separator). *)
Lemma split_lines_line x r :
  no_lf x -> last_char x ≠ Some CR ->
  split_lines (String.append x (String LF r)) = x :: split_lines r.
Proof.
  induction x as [|c x IH]; intros Hlf Hcr; [reflexivity|].
  apply no_lf_cons in Hlf as [Hc Hlf]. rewrite last_char_cons in Hcr.
  destruct (ascii_dec c CR) as [->|Hncr].
  - destruct x as [|d x]; [done|].
    apply no_lf_cons in Hlf as Hd. destruct Hd as [Hd _].
    rewrite last_char_cons in Hcr.
    change (String.append (String d x) (String LF r))
      with (String d (String.append x (String LF r))) in IH.
    change (String.append (String CR (String d x)) (String LF r))
      with (String CR (String d (String.append x (String LF r)))).
    rewrite split_lines_CR by done.
    rewrite IH; [reflexivity | done |].
    rewrite last_char_cons. by destruct (last_char x).
  - change (String.append (String c x) (String LF r))
      with (String c (String.append x (String LF r))).
    rewrite split_lines_cons_head by done. rewrite IH; [reflexivity|done|].
    by destruct (last_char x).
Qed.

Lemma trim_end_clean s : not_ws (last_char s) -> trim_end s = s.
Proof.
  induction s as [|c s IH]; [done|]. rewrite last_char_cons. simpl.
  intros H. destruct s as [|d s].
  - simpl in *. by rewrite H.
  - rewrite IH by (by destruct (last_char (String d s))).
    by rewrite andb_false_r.
Qed.

Lemma trim_clean x : clean x -> trim x = x.
Proof.
  intros (Hne & _ & Hh & Hl). unfold trim. rewrite trim_end_clean by done.
  destruct x as [|c x]; [done|]. simpl in *. by rewrite Hh.
Qed.

(** stdpp makes [String.append] [simpl never]; these are its equations. *)
Lemma string_append_nil b : String.append "" b = b.
Proof. reflexivity. Qed.

Lemma string_append_cons c a b :
  String.append (String c a) b = String c (String.append a b).
Proof. reflexivity. Qed.

Lemma string_append_assoc a b c :
  String.append (String.append a b) c = String.append a (String.append b c).
Proof.
  induction a as [|x a IH]; [done|]. rewrite !string_append_cons. f_equal. exact IH.
Qed.

Lemma print_set_cons x xs :
  print_set (x :: xs) = String.append x (String LF (print_set xs)).
Proof.
  unfold print_set. destruct xs as [|y ys].
  - reflexivity.
  - change (String.concat (String LF "") (x :: y :: ys))
      with (String.append x (String.append (String LF "") (String.concat (String LF "") (y :: ys)))).
    by rewrite !string_append_assoc.
Qed.

Lemma clean_line x : clean x -> no_lf x /\ last_char x ≠ Some CR.
Proof. intros (_ & Hlf & _ & Hl). split; [done|]. intros Hc. by rewrite Hc in Hl. Qed.

Lemma split_lines_print s :
  Forall clean s -> split_lines (print_set s) = app s [""].
Proof.
  induction s as [|x s IH]; intros Hs; [reflexivity|].
  apply Forall_cons in Hs as [Hx Hs]. apply clean_line in Hx as [Hlf Hcr].
  rewrite print_set_cons, split_lines_line by done. by rewrite IH.
Qed.

(** ** Trimming *)

Lemma string_forall_trim_end p s :
  string_forall p s = true -> string_forall p (trim_end s) = true.
Proof.
  induction s as [|c s IH]; [done|]. simpl. rewrite andb_true_iff.
  intros [Hc Hs]. destruct (is_ws c && String.eqb (trim_end s) ""); [done|].
  simpl. rewrite Hc. auto.
Qed.

Lemma string_forall_trim_start p s :
  string_forall p s = true -> string_forall p (trim_start s) = true.
Proof.
  induction s as [|c s IH]; [done|]. simpl. rewrite andb_true_iff.
  intros [Hc Hs]. destruct (is_ws c); [auto | simpl; by rewrite Hc, Hs].
Qed.

Lemma last_char_None s : last_char s = None -> s = "".
Proof.
  destruct s as [|c s]; [done|]. rewrite last_char_cons.
  by destruct (last_char s).
Qed.

Lemma trim_end_last s : not_ws (last_char (trim_end s)).
Proof.
  induction s as [|c s IH]; [done|]. cbn [trim_end].
  destruct (is_ws c && String.eqb (trim_end s) "") eqn:Hc; [done|].
  rewrite last_char_cons. destruct (last_char (trim_end s)) eqn:E; [done|].
  apply last_char_None in E. rewrite E in Hc. simpl.
  by rewrite andb_true_r in Hc.
Qed.

Lemma trim_start_head s : not_ws (head_char (trim_start s)).
Proof.
  induction s as [|c s IH]; [done|]. simpl. destruct (is_ws c) eqn:Hc; [done|]. done.
Qed.

Lemma trim_start_last s : not_ws (last_char s) -> not_ws (last_char (trim_start s)).
Proof.
  induction s as [|c s IH]; [done|]. rewrite last_char_cons. simpl.
  destruct (is_ws c) eqn:Hc; [|by rewrite last_char_cons].
  destruct s as [|d s]; [done|]. intros H. apply IH.
  by destruct (last_char (String d s)).
Qed.

Lemma no_lf_trim s : no_lf s -> no_lf (trim s).
Proof. intros. by apply string_forall_trim_start, string_forall_trim_end. Qed.

Lemma split_lines_no_lf s : Forall no_lf (split_lines s).
Proof.
  assert (Hcons : forall c l, c ≠ LF -> Forall no_lf l -> Forall no_lf (cons_head c l)).
  { intros c [|x l] Hc Hl; simpl; constructor; try apply no_lf_cons; try done.
    - by apply Forall_cons in Hl as [? ?].
    - by apply Forall_cons in Hl as [? ?]. }
  induction s as [|c s IH]; [by repeat constructor|]. simpl.
  destruct (ascii_dec c LF); [by constructor|].
  destruct (ascii_dec c CR) as [->|]; [|by apply Hcons].
  destruct s as [|d s]; [by apply Hcons|].
  destruct (ascii_dec d LF) as [->|]; [|by apply Hcons].
  simpl in IH. destruct (ascii_dec LF LF); [|done].
  apply Forall_cons in IH as [_ IH]. by constructor.
Qed.

Lemma trim_clean_of s : trim s ≠ "" -> no_lf s -> clean (trim s).
Proof.
  intros Hne Hlf. split; [done|]. split; [by apply no_lf_trim|].
  split; [apply trim_start_head|]. apply trim_start_last, trim_end_last.
Qed.

(** The lines of a printed list of clean lines are the list. *)
Lemma nonblank_print s : Forall clean s -> nonblank_lines (print_set s) = s.
Proof.
  intros Hs. unfold nonblank_lines. rewrite split_lines_print by done.
  rewrite map_app. simpl. rewrite (map_ext_in trim (fun x => x)).
  2: { intros x Hx%list_elem_of_In. apply trim_clean. by eapply Forall_forall. }
  rewrite map_id, filter_app, filter_cons_False, filter_nil, app_nil_r
    by (intros H; by apply H).
  apply filter_all_True. intros x Hx. eapply Forall_forall in Hs; [|done]. apply Hs.
Qed.

(** Every line read is clean. *)
Lemma nonblank_lines_clean raw : Forall clean (nonblank_lines raw).
Proof.
  apply Forall_forall. intros x Hx. unfold nonblank_lines in Hx.
  rewrite list_elem_of_filter in Hx. destruct Hx as [Hne Hx].
  apply list_elem_of_fmap in Hx as [y [-> Hy]].
  apply trim_clean_of; [done|].
  pose proof (split_lines_no_lf raw) as H. rewrite Forall_forall in H. by apply H.
Qed.

(** [writeSet] then [readSet]: a duplicate-free list of clean lines is
    read back exactly, in the same order. *)
Lemma parse_print_clean s :
  NoDup s -> Forall clean s -> parse_set (print_set s) = s.
Proof.
  intros Hnd Hs. unfold parse_set. fold (nonblank_lines (print_set s)).
  rewrite nonblank_print by done. by apply js_set_of_list_NoDup.
Qed.

(** ** What [readSet] returns *)

Lemma parse_set_wf raw : NoDup (parse_set raw) /\ Forall clean (parse_set raw).
Proof.
  split; [apply NoDup_js_set_of_list|]. apply Forall_forall. intros x Hx.
  unfold parse_set in Hx. rewrite elem_of_js_set_of_list in Hx.
  pose proof (nonblank_lines_clean raw) as H. rewrite Forall_forall in H. by apply H.
Qed.

Lemma parse_print_parse raw : parse_set (print_set (parse_set raw)) = parse_set raw.
Proof. destruct (parse_set_wf raw). by apply parse_print_clean. Qed.

(** ** Identifiers *)

Lemma is_digit_not_ws c : is_digit c = true -> is_ws c = false.
Proof.
  unfold is_digit, is_ws. intros H. apply andb_true_iff in H as [H1 H2].
  apply Nat.leb_le in H1, H2. apply orb_false_iff. split.
  - apply andb_false_iff. right. apply Nat.leb_gt. lia.
  - apply Nat.eqb_neq. lia.
Qed.

Lemma string_forall_last p s c :
  string_forall p s = true -> last_char s = Some c -> p c = true.
Proof.
  induction s as [|d s IH]; [done|]. rewrite last_char_cons. simpl.
  rewrite andb_true_iff. intros [Hd Hs]. destruct (last_char s) eqn:E.
  - intros [= <-]. by apply IH.
  - by intros [= <-].
Qed.

Lemma string_forall_impl (p q : ascii -> bool) s :
  (forall c, p c = true -> q c = true) -> string_forall p s = true -> string_forall q s = true.
Proof.
  intros Hpq. induction s as [|c s IH]; [done|]. simpl. rewrite !andb_true_iff.
  intros [? ?]; auto.
Qed.

(** A snowflake is a clean line, so the set files round-trip it. *)
Lemma snowflake_clean id : is_snowflake id = true -> clean id.
Proof.
  unfold is_snowflake. rewrite andb_true_iff. intros [Hd Hlen].
  split; [by intros ->|]. split.
  { eapply string_forall_impl; [|done]. intros c Hc%is_digit_not_ws.
    apply negb_true_iff, Nat.eqb_neq. intros E. unfold is_ws in Hc.
    rewrite E in Hc. discriminate. }
  split.
  - destruct id as [|c id]; [done|]. simpl in *. apply andb_true_iff in Hd as [Hc _].
    by apply is_digit_not_ws.
  - destruct (last_char id) eqn:E; [|done]. simpl.
    apply is_digit_not_ws. by eapply string_forall_last.
Qed.

Lemma string_filter_forall p s : string_forall p (string_filter p s) = true.
Proof.
  induction s as [|c s IH]; [done|]. simpl. destruct (p c) eqn:E; [|done].
  simpl. by rewrite E, IH.
Qed.

(** [parseUserId] returns only identifiers that pass [/^\d{5,}$/]. *)
Lemma parseUserId_snowflake str id :
  parseUserId str = Some id -> is_snowflake id = true.
Proof.
  destruct str as [[|c s]|]; simpl; try discriminate.
  case_match; [by intros [= <-] | discriminate].
Qed.
(** ** Lower case, filtering and splitting of ids *)

Lemma snowflake_no_ws_digits s :
  string_forall is_digit s = true -> string_forall (fun c => negb (is_ws c)) s = true.
Proof.
  intros H. eapply string_forall_impl; [|exact H]. intros c Hc. by rewrite is_digit_not_ws.
Qed.

Lemma ascii_lower_digit c : is_digit c = true -> ascii_lower c = c.
Proof.
  unfold is_digit, ascii_lower. intros H. apply andb_true_iff in H as [H1 H2].
  apply Nat.leb_le in H1, H2. destruct ((65 <=? nat_of_ascii c) && _)%nat eqn:E; [|done].
  apply andb_true_iff in E as [E _]. apply Nat.leb_le in E. lia.
Qed.

Lemma string_lower_digits s : string_forall is_digit s = true -> string_lower s = s.
Proof.
  induction s as [|c s IH]; [done|]. simpl. intros [Hc Hs]%andb_true_iff.
  by rewrite ascii_lower_digit, IH.
Qed.

Lemma string_lower_app a b : string_lower (a +:+ b) = string_lower a +:+ string_lower b.
Proof. induction a as [|c a IH]; [done|]. rewrite !string_append_cons. simpl. by rewrite IH. Qed.

Lemma string_filter_all p s : string_forall p s = true -> string_filter p s = s.
Proof.
  induction s as [|c s IH]; [done|]. simpl. intros [-> Hs]%andb_true_iff. by rewrite IH.
Qed.

Lemma string_append_nil_r a : a +:+ "" = a.
Proof. induction a as [|c a IH]; [done|]. by rewrite string_append_cons, IH. Qed.

Lemma split_on_go_none p cur b s :
  string_forall (fun c => negb (p c)) s = true -> split_on_go p cur b s = [cur +:+ s].
Proof.
  revert cur b. induction s as [|c s IH]; intros cur b; simpl.
  - by rewrite string_append_nil_r.
  - intros [Hc Hs]%andb_true_iff. apply negb_true_iff in Hc. rewrite Hc, IH by done.
    by rewrite string_append_assoc, string_append_cons, string_append_nil.
Qed.

Lemma split_on_go_app p cur a s :
  string_forall (fun c => negb (p c)) a = true ->
  split_on_go p cur false (a +:+ s) = split_on_go p (cur +:+ a) false s.
Proof.
  revert cur. induction a as [|c a IH]; intros cur; simpl.
  - by rewrite string_append_nil_r.
  - intros [Hc Ha]%andb_true_iff. apply negb_true_iff in Hc. try rewrite string_append_cons. simpl.
    rewrite Hc, IH by done. by rewrite string_append_assoc, string_append_cons, string_append_nil.
Qed.

Lemma last_char_app a b : b ≠ "" -> last_char (a +:+ b) = last_char b.
Proof.
  intros Hb. induction a as [|c a IH]; [done|].
  rewrite string_append_cons, last_char_cons, IH.
  destruct (last_char b) eqn:E; [done|]. by apply last_char_None in E.
Qed.

Lemma is_digit_not_punct c : is_digit c = true -> is_mention_punct c = false.
Proof. destruct c as [[][][][][][][][]]; by vm_compute. Qed.

(** A valid id is its own [parseUserId], its own lower case, and holds no
    whitespace. *)
Lemma snowflake_digits id : is_snowflake id = true -> string_forall is_digit id = true.
Proof. unfold is_snowflake. by intros [? _]%andb_true_iff. Qed.

Lemma parseUserId_id id : is_snowflake id = true -> parseUserId (Some id) = Some id.
Proof.
  intros H. pose proof (snowflake_digits id H) as Hd.
  unfold parseUserId. destruct id as [|c s]; [done|].
  rewrite (string_filter_all (fun c => negb (is_mention_punct c))).
  - rewrite string_filter_all by done. by rewrite H.
  - eapply string_forall_impl; [|exact Hd]. intros c' Hc'. by rewrite is_digit_not_punct.
Qed.

(** A command line [cw id]: a word without whitespace, one space and a
    valid id.  [trim], [toLowerCase] and [split(/\s+/)] see it as it is. *)
Lemma command_line cw id :
  string_forall (fun c => negb (is_ws c)) cw = true -> string_lower cw = cw -> cw ≠ "" ->
  is_snowflake id = true ->
  trim (cw +:+ String " " id) = cw +:+ String " " id /\
  string_lower (cw +:+ String " " id) = cw +:+ String " " id /\
  split_on is_ws (cw +:+ String " " id) = [cw; id].
Proof.
  intros Hw Hl Hne Hid. pose proof (snowflake_digits id Hid) as Hd.
  assert (Hid0 : id ≠ "") by (intros ->; discriminate).
  split; [|split].
  - unfold trim. rewrite trim_end_clean.
    + destruct cw as [|c cw']; [done|]. simpl in Hw. apply andb_true_iff in Hw as [Hc _].
      apply negb_true_iff in Hc. rewrite string_append_cons. simpl. by rewrite Hc.
    + rewrite last_char_app by done. rewrite last_char_cons.
      destruct (last_char id) as [c|] eqn:E; [|by apply last_char_None in E].
      simpl. apply is_digit_not_ws. by eapply string_forall_last.
  - rewrite string_lower_app, Hl. simpl. by rewrite string_lower_digits.
  - unfold split_on. rewrite split_on_go_app by done. simpl.
    rewrite split_on_go_none by (by apply snowflake_no_ws_digits). by rewrite string_append_nil.
Qed.

(** C17. The identifier-file round trip at the text level: [readSet] of
    the text that [writeSet] prints ([[...set].join('\n') + '\n']) gives
    back the set, in the same order, for every duplicate-free list of
    trimmed non-empty lines without LF, the lists [readSet] returns. *)
Theorem parse_print s :
  NoDup s -> Forall clean s -> parse_set (print_set s) = s.
Proof. apply parse_print_clean. Qed.

Lemma parse_print_witness : parse_set (print_set ["123456"; "222222"]) = ["123456"; "222222"].
Proof.
  apply parse_print.
  - apply (bool_decide_unpack _). vm_compute. reflexivity.
  - repeat constructor; repeat split; simpl; try reflexivity; discriminate.
Defined.

End Text.
