(* ===== verification/JsNum.v ===== *)
(** * JsNum: JavaScript numbers

    A JS number is an IEEE-754 binary64 double: a finite value, [NaN] or
    an infinity.  A finite double is kept here as the exact rational it
    denotes ([Fin q], [q] a dyadic rational in lowest terms).  The
    operations round their exact result to the nearest double, ties to
    even, with gradual underflow below [2^-1022] and overflow to an
    infinity ([round_double]), as IEEE-754's roundTiesToEven does:
    - [Number(s)] for the string-to-number conversions of lines 798-799,
      1046 and 1145: the StringNumericLiteral grammar (a signed decimal
      with an optional exponent, [0x], [0o] and [0b] integers,
      [Infinity], the empty string for [0]; anything else is [NaN]),
      whose exact value is then rounded ([js_number]);
    - [a + b] ([js_add]) and [a * b] ([js_mul]);
    - [Math.round] ([js_round]): the nearest integer, halves upwards; its
      result is exact.

    The theorems bound the rounding error ([round_double_error]): a
    finite result is within [2^-53] of the exact value, relatively, plus
    [2^-1075] in the subnormal range.  Negative zero is not
    distinguished from zero: no line of the program tells them apart. *)

From Stdlib Require Import ZArith QArith Qround Qpower Qabs Ascii Lqa Lia.
From S2P Require Import Prelude Text.
Import Text.

Module JsNum.

Local Open Scope string_scope.

Inductive JNum : Type :=
| Fin (q : Q)
| NaN
| Inf (positive : bool).

(** ** Rounding to a double *)

Definition two_pow (e : Z) : Q := Qpower (inject_Z 2) e.

(** [⌊log2 a⌋] for [a > 0]: [⌊log2 ⌊a⌋⌋] from [1] up, and
    [-⌈log2 ⌈1/a⌉⌉] below [1]. *)
Definition ilog2 (a : Q) : Z :=
  if Qle_bool 1 a then Z.log2 (Qfloor a) else (- Z.log2_up (Qceiling (/ a)))%Z.

(** The exponent of the last place of the 53-bit significand of [a]; at
    least that of the least subnormal, [2^-1074]. *)
Definition ulp_exp (a : Q) : Z := Z.max (-1074) (ilog2 a - 52).

(** The integer nearest to [x], ties to even. *)
Definition round_half_even (x : Q) : Z :=
  let f := Qfloor x in
  match ((x - inject_Z f) ?= (1 # 2))%Q with
  | Lt => f
  | Gt => (f + 1)%Z
  | Eq => if Z.even f then f else (f + 1)%Z
  end.

(** A positive rational rounded to 53 significant bits, with the
    exponent unbounded above. *)
Definition round_pos (a : Q) : Q :=
  let e := ulp_exp a in Qred (inject_Z (round_half_even (a / two_pow e)) * two_pow e)%Q.

(** Rounding to the nearest double: a rounded magnitude of [2^1024] or
    more overflows. *)
Definition round_double (q : Q) : JNum :=
  match (q ?= 0)%Q with
  | Eq => Fin 0
  | Gt => let r := round_pos q in if Qle_bool (two_pow 1024) r then Inf true else Fin r
  | Lt => let r := round_pos (- q)%Q in if Qle_bool (two_pow 1024) r then Inf false else Fin (- r)%Q
  end.

(** ** Operations *)

(** [Number.isFinite(n)] *)
Definition is_finite (n : JNum) : bool := match n with Fin _ => true | _ => false end.

(** [n || 0]: [0] and [NaN] are falsy. *)
Definition or0 (n : JNum) : JNum :=
  match n with
  | Fin q => if Qeq_bool q 0 then Fin 0 else Fin q
  | NaN => Fin 0
  | Inf b => Inf b
  end.

(** [a + b] *)
Definition js_add (a b : JNum) : JNum :=
  match a, b with
  | Fin x, Fin y => round_double (x + y)%Q
  | Fin _, Inf s | Inf s, Fin _ => Inf s
  | Inf s, Inf t => if Bool.eqb s t then Inf s else NaN
  | _, _ => NaN
  end.

(** [a * b] *)
Definition js_mul (a b : JNum) : JNum :=
  match a, b with
  | Fin x, Fin y => round_double (x * y)%Q
  | Fin x, Inf s | Inf s, Fin x =>
    match (x ?= 0)%Q with Eq => NaN | Gt => Inf s | Lt => Inf (negb s) end
  | Inf s, Inf t => Inf (Bool.eqb s t)
  | _, _ => NaN
  end.

(** [Math.round(n)] *)
Definition js_round (n : JNum) : JNum :=
  match n with Fin q => Fin (inject_Z (Qfloor (q + (1 # 2))%Q)) | _ => n end.

(** ** [Number(s)] *)

Definition digit_val (base : Z) (c : ascii) : option Z :=
  (let n := Z.of_nat (nat_of_ascii c) in
  let v := if (48 <=? n) && (n <=? 57) then Some (n - 48)
           else if (97 <=? n) && (n <=? 122) then Some (n - 87)
           else if (65 <=? n) && (n <=? 90) then Some (n - 55) else None in
  match v with Some d => if d <? base then Some d else None | None => None end)%Z.

(** The longest prefix of digits of [base], with its value and length. *)
Fixpoint take_digits (base : Z) (acc : Z) (k : nat) (l : list ascii) : Z * nat * list ascii :=
  match l with
  | c :: l' => match digit_val base c with
               | Some d => take_digits base (acc * base + d)%Z (S k) l'
               | None => (acc, k, l)
               end
  | [] => (acc, k, l)
  end.

(** [m * 10 ^ e] *)
Definition scale10 (m e : Z) : Q :=
  (if 0 <=? e then inject_Z (m * 10 ^ e) else Qmake m (Z.to_pos (10 ^ (- e))))%Z.

(** The exponent part [(e|E)[+-]?digits], if it is all of [l]. *)
Definition exponent (l : list ascii) : option Z :=
  match l with
  | [] => Some 0%Z
  | c :: l' =>
    if bool_decide (c = "e"%char \/ c = "E"%char) then
      let '(sgn, l'') := match l' with
                         | "-"%char :: r => ((-1)%Z, r)
                         | "+"%char :: r => (1%Z, r)
                         | _ => (1%Z, l')
                         end in
      match take_digits 10 0 0 l'' with
      | (x, S _, []) => Some (sgn * x)%Z
      | _ => None
      end
    else None
  end.

(** An unsigned decimal literal: [digits [. digits] | . digits], then an
    optional exponent; its exact value. *)
Definition unsigned_decimal (l : list ascii) : option Q :=
  let '(i, ni, r1) := take_digits 10 0 0 l in
  let '(m, nf, r2) := match r1 with
                      | "."%char :: r => take_digits 10 i 0 r
                      | _ => (i, 0%nat, r1)
                      end in
  if (ni + nf =? 0)%nat then None else
  match exponent r2 with
  | Some e => Some (scale10 m (e - Z.of_nat nf)%Z)
  | None => None
  end.

(** A [0x], [0o] or [0b] integer. *)
Definition radix_integer (l : list ascii) : option Q :=
  match l with
  | "0"%char :: c :: r =>
    let base := if bool_decide (c = "x"%char \/ c = "X"%char) then 16%Z
                else if bool_decide (c = "o"%char \/ c = "O"%char) then 8%Z
                else if bool_decide (c = "b"%char \/ c = "B"%char) then 2%Z else 0%Z in
    if (base =? 0)%Z then None else
    match take_digits base 0 0 r with
    | (v, S _, []) => Some (inject_Z v)
    | _ => None
    end
  | _ => None
  end.

Definition neg (n : JNum) : JNum :=
  match n with Fin q => Fin (- q)%Q | Inf b => Inf (negb b) | NaN => NaN end.

Definition unsigned_number (l : list ascii) : JNum :=
  if bool_decide (l = String.list_ascii_of_string "Infinity") then Inf true else
  match unsigned_decimal l with Some q => round_double q | None => NaN end.

(** [Number(s)] *)
Definition js_number (s : string) : JNum :=
  match String.list_ascii_of_string (trim s) with
  | [] => Fin 0
  | "-"%char :: l => neg (unsigned_number l)
  | "+"%char :: l => unsigned_number l
  | l => match radix_integer l with Some q => round_double q | None => unsigned_number l end
  end.

(** ** The rounding error *)

Section Rounding.
Local Open Scope Q_scope.

Lemma two_pow_pos e : 0 < two_pow e.
Proof. apply Qpower_0_lt. reflexivity. Qed.

Lemma two_pow_nat k : (0 <= k)%Z -> two_pow k == inject_Z (2 ^ k).
Proof. intros Hk. unfold two_pow. symmetry. by apply Zpower_Qpower. Qed.

Lemma two_pow_opp k : two_pow (- k) == / two_pow k.
Proof. apply Qpower_opp. Qed.

Lemma two_pow_add a b : two_pow (a + b) == two_pow a * two_pow b.
Proof. apply Qpower_plus. discriminate. Qed.

Lemma two_pow_ilog2 a : 0 < a -> two_pow (ilog2 a) <= a.
Proof.
  intros Ha. unfold ilog2. destruct (Qle_bool 1 a) eqn:H1.
  - apply Qle_bool_iff in H1.
    assert (Hf : (1 <= Qfloor a)%Z) by (rewrite <- (Qfloor_Z 1); by apply Qfloor_resp_le).
    destruct (Z.log2_spec (Qfloor a) ltac:(lia)) as [Hl _].
    rewrite two_pow_nat by apply Z.log2_nonneg.
    apply Qle_trans with (inject_Z (Qfloor a)); [rewrite <- Zle_Qle; exact Hl | apply Qfloor_le].
  - assert (Hlt : a < 1).
    { apply Qnot_le_lt. intros H. apply Qle_bool_iff in H. congruence. }
    assert (Hi : 1 < / a).
    { apply Qlt_shift_inv_l; [done|]. rewrite Qmult_1_l. exact Hlt. }
    assert (Hc : / a <= inject_Z (Qceiling (/ a))) by apply Qle_ceiling.
    assert (Hc1 : (1 < Qceiling (/ a))%Z) by (rewrite Zlt_Qlt; eapply Qlt_le_trans; eauto).
    destruct (Z.log2_up_spec _ Hc1) as [_ Hu].
    rewrite two_pow_opp, two_pow_nat by apply Z.log2_up_nonneg.
    apply Qle_shift_inv_r.
    + apply (Qlt_trans _ 1); [reflexivity|]. eapply Qlt_le_trans; [exact Hi|]. eapply Qle_trans; [exact Hc|].
      by rewrite <- Zle_Qle.
    + apply Qle_trans with (a * / a).
      * rewrite Qmult_inv_r; [apply Qle_refl | intros E; rewrite E in Ha; discriminate].
      * apply Qmult_le_l; [done|]. eapply Qle_trans; [exact Hc|]. by rewrite <- Zle_Qle.
Qed.

Lemma round_half_even_error x : Qabs (inject_Z (round_half_even x) - x) <= 1 # 2.
Proof.
  unfold round_half_even. set (f := Qfloor x).
  pose proof (Qfloor_le x) as H1. pose proof (Qlt_floor x) as H2. fold f in H1, H2.
  rewrite inject_Z_plus in H2. change (inject_Z 1) with 1 in H2. apply Qabs_Qle_condition.
  destruct ((x - inject_Z f) ?= (1 # 2)) eqn:E.
  - apply Qeq_alt in E. destruct (Z.even f); rewrite ?inject_Z_plus; change (inject_Z 1) with 1; split; lra.
  - apply Qlt_alt in E. split; lra.
  - apply Qgt_alt in E. rewrite inject_Z_plus. change (inject_Z 1) with 1. split; lra.
Qed.

Lemma round_half_even_nonneg x : 0 <= x -> (0 <= round_half_even x)%Z.
Proof.
  intros Hx. assert (H0 : (0 <= Qfloor x)%Z) by (rewrite <- (Qfloor_Z 0); by apply Qfloor_resp_le).
  unfold round_half_even. destruct (_ ?= _); [destruct (Z.even _)|..]; lia.
Qed.

Lemma two_pow_half e : two_pow e * (1 # 2) == two_pow (e - 1).
Proof. replace (e - 1)%Z with (e + -1)%Z by lia. rewrite two_pow_add. reflexivity. Qed.

Lemma round_pos_error a : 0 < a -> Qabs (round_pos a - a) <= a * two_pow (-53) + two_pow (-1075).
Proof.
  intros Ha. unfold round_pos. set (e := ulp_exp a).
  pose proof (two_pow_pos e) as He.
  assert (Hr : Qred (inject_Z (round_half_even (a / two_pow e)) * two_pow e) - a ==
               (inject_Z (round_half_even (a / two_pow e)) - a / two_pow e) * two_pow e).
  { rewrite Qred_correct. field. intros E. rewrite E in He. discriminate. }
  rewrite Hr, Qabs_Qmult, (Qabs_pos (two_pow e)) by (apply Qlt_le_weak, He).
  apply Qle_trans with ((1 # 2) * two_pow e).
  { apply Qmult_le_compat_r; [apply round_half_even_error | apply Qlt_le_weak, He]. }
  rewrite Qmult_comm, two_pow_half.
  pose proof (Qlt_le_weak _ _ (two_pow_pos (-53))) as H53.
  pose proof (Qlt_le_weak _ _ (two_pow_pos (-1075))) as H1075.
  unfold e, ulp_exp. destruct (Z.max_spec (-1074) (ilog2 a - 52)) as [[_ ->] | [_ ->]].
  - replace (ilog2 a - 52 - 1)%Z with (ilog2 a + -53)%Z by lia. rewrite two_pow_add.
    pose proof (two_pow_ilog2 a Ha) as Hl.
    assert (two_pow (ilog2 a) * two_pow (-53) <= a * two_pow (-53)) by (apply Qmult_le_compat_r; done).
    assert (0 <= a * two_pow (-53)) by (apply Qmult_le_0_compat; [apply Qlt_le_weak|]; done).
    lra.
  - assert (0 <= a * two_pow (-53)) by (apply Qmult_le_0_compat; [apply Qlt_le_weak|]; done).
    replace (-1074 - 1)%Z with (-1075)%Z by lia. lra.
Qed.

(** A rounded positive number is finite and within the error bound of
    the exact value, or it overflows to [Infinity] from a rounded value
    of at least [2^1024] that obeys the same bound. *)
Lemma round_double_pos q :
  0 < q ->
  exists r, 0 <= r /\ Qabs (r - q) <= q * two_pow (-53) + two_pow (-1075) /\
    (round_double q = Fin r \/ (round_double q = Inf true /\ two_pow 1024 <= r)).
Proof.
  intros Hq. unfold round_double. rewrite (proj1 (Qgt_alt q 0) Hq).
  exists (round_pos q). split; [|split; [by apply round_pos_error|]].
  - unfold round_pos. rewrite Qred_correct. apply Qmult_le_0_compat; [|apply Qlt_le_weak, two_pow_pos].
    change 0 with (inject_Z 0). rewrite <- Zle_Qle. apply round_half_even_nonneg.
    apply Qle_shift_div_l; [apply two_pow_pos|]. rewrite Qmult_0_l. by apply Qlt_le_weak.
  - destruct (Qle_bool (two_pow 1024) (round_pos q)) eqn:E; [right | by left].
    split; [done|]. by apply Qle_bool_iff.
Qed.

Lemma two_pow_m53 : two_pow (-53) == 1 # 9007199254740992.
Proof. reflexivity. Qed.

Lemma two_pow_m1075 : 0 <= two_pow (-1075) <= 1 # 1000000000000.
Proof. split; apply Qle_bool_iff; vm_compute; reflexivity. Qed.

Lemma two_pow_1024 : 1000000000000000000000000 <= two_pow 1024.
Proof. apply Qle_bool_iff; vm_compute; reflexivity. Qed.

(** [Math.round] of a positive number rounded to a double: the integer
    [z] nearest to the rounded value [r], halves up, or [Infinity] from an
    [r] of at least [2^1024]. *)
Lemma js_round_double x :
  0 < x ->
  exists r z, Qabs (r - x) <= x * (1 # 9007199254740992) + two_pow (-1075) /\ 0 <= r /\
    inject_Z z <= r + (1 # 2) < inject_Z z + 1 /\
    (js_round (round_double x) = Fin (inject_Z z) \/
     (js_round (round_double x) = Inf true /\ two_pow 1024 <= r)).
Proof.
  intros Hx. destruct (round_double_pos x Hx) as (r & Hr0 & Herr & Hcase).
  exists r, (Qfloor (r + (1 # 2))). rewrite two_pow_m53 in Herr.
  split; [exact Herr|]. split; [exact Hr0|]. split.
  - split; [apply Qfloor_le|]. pose proof (Qlt_floor (r + (1 # 2))) as H.
    rewrite inject_Z_plus in H. exact H.
  - destruct Hcase as [E | [E Hb]]; rewrite E; [by left | by right].
Qed.

End Rounding.

End JsNum.
