(* ===== verification/Store.v ===== *)
(** * Store: the file-backed identifier sets (lines 56-123)

    The file system is a finite map from file names to contents.  A
    missing file is one that [fs.readFile] rejects, which [readSet] turns
    into the empty set.  [fs.writeFile] is modelled as always succeeding.

    The contract of §4.1 of the spec is stated as the class [SetStore]
    with its laws [SetStoreLaws]: an abstract [gset] per set name.  The
    instance [fs_store] shows that the files implement it.  The exact
    order of the elements is kept by the concrete model, because the
    sweep iterates the deny-list in file order. *)

From S2P Require Import Prelude Text.
Import Text.

Module Store.

Local Open Scope string_scope.

Abbreviation FS := (gmap string string).

Definition BLACKLIST_FILE : string := "blacklist.txt".
Definition WHITELIST_FILE : string := "whitelist.txt".
Definition ALLOWED_FILE : string := "allowedUsers.txt".
Definition TICKETS_FILE : string := "tickets.txt".

(** [readSet(file)] *)
Definition readSet (fs : FS) (file : string) : list string :=
  match fs !! file with
  | Some raw => parse_set raw
  | None => []
  end.

(** [writeSet(file, set)] *)
Definition writeSet (file : string) (s : list string) (fs : FS) : FS :=
  <[file := print_set s]> fs.

(** The loop of [addIds]: [for (const id of ids) if (/^\d{5,}$/.test(id)) s.add(id)] *)
Definition add_valid (s : list string) (ids : list string) : list string :=
  foldl (fun s id => if is_snowflake id then js_set_add id s else s) s ids.

(** [addIds(file, ids)]: read, add the valid ids, rewrite the whole file,
    return the new set. *)
Definition addIds (file : string) (ids : list string) (fs : FS) : list string * FS :=
  let s := add_valid (readSet fs file) ids in
  (s, writeSet file s fs).

(** The loop of [removeIds]: [for (const id of ids) s.delete(id)] *)
Definition remove_all (s : list string) (ids : list string) : list string :=
  foldl (fun s id => js_set_delete id s) s ids.

(** [removeIds(file, ids)] *)
Definition removeIds (file : string) (ids : list string) (fs : FS) : list string * FS :=
  let s := remove_all (readSet fs file) ids in
  (s, writeSet file s fs).

(** [isAllowedUser(userId)]: [readSet] never throws, so the [catch] is dead. *)
Definition isAllowedUser (fs : FS) (userId : string) : bool :=
  bool_decide (userId ∈ readSet fs ALLOWED_FILE).

(** [isTicketChannelId(id)] and [addTicketChannelId(id)] *)
Definition isTicketChannelId (fs : FS) (id : string) : bool :=
  bool_decide (id ∈ readSet fs TICKETS_FILE).

Definition addTicketChannelId (id : string) (fs : FS) : FS :=
  snd (addIds TICKETS_FILE [id] fs).

(** ** The abstract contract of an identifier-set store (spec §4.1) *)

Class SetStore (St : Type) := {
  ss_load : St -> string -> gset string;
  ss_add : string -> list string -> St -> St;
  ss_remove : string -> list string -> St -> St
}.

Class SetStoreLaws (St : Type) `{SetStore St} := {
  ss_load_add f ids st :
    ss_load (ss_add f ids st) f = ss_load st f ∪ list_to_set (filter (fun id => is_snowflake id = true) ids);
  ss_load_add_other f g ids st :
    f ≠ g -> ss_load (ss_add f ids st) g = ss_load st g;
  ss_load_remove f ids st :
    ss_load (ss_remove f ids st) f = ss_load st f ∖ list_to_set ids;
  ss_load_remove_other f g ids st :
    f ≠ g -> ss_load (ss_remove f ids st) g = ss_load st g
}.

#[export] Instance fs_store : SetStore FS := {
  ss_load fs f := list_to_set (readSet fs f);
  ss_add f ids fs := snd (addIds f ids fs);
  ss_remove f ids fs := snd (removeIds f ids fs)
}.

(** ** Lemmas *)

Lemma readSet_wf fs f : NoDup (readSet fs f) /\ Forall clean (readSet fs f).
Proof.
  unfold readSet. destruct (fs !! f); [apply parse_set_wf|].
  split; constructor.
Qed.

(** Writing a set that [readSet] could have produced and reading it back
    gives it back, in order. *)
Lemma readSet_writeSet fs f s :
  NoDup s -> Forall clean s -> readSet (writeSet f s fs) f = s.
Proof.
  intros. unfold readSet, writeSet. rewrite lookup_insert_eq.
  by apply parse_print_clean.
Qed.

Lemma readSet_writeSet_other fs f g s :
  f ≠ g -> readSet (writeSet f s fs) g = readSet fs g.
Proof. intros. unfold readSet, writeSet. by rewrite lookup_insert_ne. Qed.

Lemma add_valid_wf s ids :
  NoDup s -> Forall clean s -> NoDup (add_valid s ids) /\ Forall clean (add_valid s ids).
Proof.
  revert s. induction ids as [|id ids IH]; intros s Hnd Hcl; [done|]. simpl.
  apply IH; destruct (is_snowflake id) eqn:E; auto with bot.
  unfold js_set_add. case_decide; [done|].
  apply Forall_app. split; [done|]. constructor; [|done]. by apply snowflake_clean.
Qed.

Lemma elem_of_add_valid s ids x :
  x ∈ add_valid s ids <-> x ∈ s \/ (x ∈ ids /\ is_snowflake x = true).
Proof.
  revert s. induction ids as [|id ids IH]; intros s; simpl.
  - set_solver.
  - rewrite IH, elem_of_cons. destruct (is_snowflake id) eqn:E.
    + rewrite elem_of_js_set_add. split; [intros [[->|?]|?]|intros [?|[[->|?] ?]]]; tauto.
    + split; [intros [?|?]|intros [?|[[->|?] ?]]]; [tauto|tauto|tauto|congruence|tauto].
Qed.

Lemma remove_all_wf s ids :
  NoDup s -> Forall clean s -> NoDup (remove_all s ids) /\ Forall clean (remove_all s ids).
Proof.
  revert s. induction ids as [|id ids IH]; intros s Hnd Hcl; [done|]. simpl.
  apply IH; [auto with bot|]. apply Forall_forall. intros x Hx.
  apply elem_of_js_set_delete in Hx as [_ Hx]. by eapply Forall_forall.
Qed.

Lemma elem_of_remove_all s ids x : x ∈ remove_all s ids <-> x ∈ s /\ x ∉ ids.
Proof.
  revert s. induction ids as [|id ids IH]; intros s; simpl.
  - set_solver.
  - rewrite IH, elem_of_js_set_delete. set_solver.
Qed.

Lemma readSet_addIds fs f ids :
  readSet (snd (addIds f ids fs)) f = fst (addIds f ids fs).
Proof.
  simpl. destruct (readSet_wf fs f) as [Hnd Hcl].
  destruct (add_valid_wf _ ids Hnd Hcl). by apply readSet_writeSet.
Qed.

Lemma readSet_addIds_other fs f g ids :
  f ≠ g -> readSet (snd (addIds f ids fs)) g = readSet fs g.
Proof. apply readSet_writeSet_other. Qed.

Lemma readSet_removeIds_other fs f g ids :
  f ≠ g -> readSet (snd (removeIds f ids fs)) g = readSet fs g.
Proof. apply readSet_writeSet_other. Qed.

Lemma readSet_removeIds fs f ids :
  readSet (snd (removeIds f ids fs)) f = fst (removeIds f ids fs).
Proof.
  simpl. destruct (readSet_wf fs f) as [Hnd Hcl].
  destruct (remove_all_wf _ ids Hnd Hcl). by apply readSet_writeSet.
Qed.

#[export] Hint Rewrite readSet_addIds readSet_removeIds : bot_rw.


(** [addTicketChannelId] then [isTicketChannelId]: the registry gains the
    id when it is a snowflake, and nothing else. *)
Lemma isTicketChannelId_add fs ch x :
  isTicketChannelId (addTicketChannelId ch fs) x = true <->
  isTicketChannelId fs x = true \/ (x = ch /\ is_snowflake ch = true).
Proof.
  unfold isTicketChannelId, addTicketChannelId. rewrite !bool_decide_eq_true, readSet_addIds.
  cbn [fst addIds]. rewrite elem_of_add_valid, list_elem_of_singleton. naive_solver.
Qed.

Lemma load_addIds fs f ids :
  list_to_set (C:=gset string) (readSet (snd (addIds f ids fs)) f) =
  list_to_set (readSet fs f) ∪ list_to_set (filter (fun id => is_snowflake id = true) ids).
Proof.
  rewrite readSet_addIds. unfold addIds; simpl fst. apply set_eq. intros x.
  rewrite elem_of_union, !elem_of_list_to_set, elem_of_add_valid, list_elem_of_filter.
  tauto.
Qed.

Lemma load_removeIds fs f ids :
  list_to_set (C:=gset string) (readSet (snd (removeIds f ids fs)) f) =
  list_to_set (readSet fs f) ∖ list_to_set ids.
Proof.
  rewrite readSet_removeIds. unfold removeIds; simpl fst. apply set_eq. intros x.
  rewrite elem_of_difference, !elem_of_list_to_set, elem_of_remove_all. tauto.
Qed.

#[export] Instance fs_store_laws : SetStoreLaws FS.
Proof.
  split; intros; simpl.
  - apply load_addIds.
  - by rewrite readSet_writeSet_other.
  - apply load_removeIds.
  - by rewrite readSet_writeSet_other.
Qed.

(** ** Properties of the identifier files *)

(** C13. The flat files implement the abstract identifier-set contract of
    spec §4.1: [addIds] adds exactly the ids that pass [/^\d{5,}$/] and
    silently drops the others, [removeIds] removes exactly the given ids,
    and neither touches another set's file. *)
Theorem store_refines_contract : SetStoreLaws FS.
Proof.
  split; intros; simpl.
  - apply load_addIds.
  - by rewrite readSet_writeSet_other.
  - apply load_removeIds.
  - by rewrite readSet_writeSet_other.
Qed.

(** C16. [add(set,[X]); remove(set,[X])] with [X] a valid absent id gives
    back the set, in the same order.  The file itself ends up as the
    canonical print of that set, which equals the original file exactly
    when the original was canonical (see [add_remove_normalises]). *)
Theorem add_remove_roundtrip fs f x :
  is_snowflake x = true -> x ∉ readSet fs f ->
  snd (removeIds f [x] (snd (addIds f [x] fs))) = writeSet f (readSet fs f) fs /\
  readSet (snd (removeIds f [x] (snd (addIds f [x] fs)))) f = readSet fs f.
Proof.
  intros Hx Habs.
  assert (Hset : remove_all (add_valid (readSet fs f) [x]) [x] = readSet fs f).
  { simpl. rewrite Hx. by apply js_set_delete_add. }
  assert (Hadd : readSet (snd (addIds f [x] fs)) f = add_valid (readSet fs f) [x])
    by apply readSet_addIds.
  split.
  - unfold removeIds at 1. rewrite Hadd, Hset. cbn [snd].
    unfold addIds. cbn [snd]. unfold writeSet. by rewrite insert_insert_eq.
  - rewrite readSet_removeIds. unfold removeIds. cbn [fst]. by rewrite Hadd, Hset.
Qed.

Lemma add_remove_roundtrip_witness :
  is_snowflake "222222" = true /\
  ("222222" ∉ readSet {["blacklist.txt" := "111111" +:+ String LF ""]} BLACKLIST_FILE) /\
  readSet (snd (removeIds BLACKLIST_FILE ["222222"]
     (snd (addIds BLACKLIST_FILE ["222222"] {["blacklist.txt" := "111111" +:+ String LF ""]}))))
     BLACKLIST_FILE = ["111111"].
Proof.
  assert (H1 : is_snowflake "222222" = true) by reflexivity.
  assert (H2 : "222222" ∉ readSet {["blacklist.txt" := "111111" +:+ String LF ""]} BLACKLIST_FILE)
    by (vm_compute; set_solver).
  split; [done|]. split; [done|].
  destruct (add_remove_roundtrip {["blacklist.txt" := "111111" +:+ String LF ""]} BLACKLIST_FILE "222222" H1 H2)
    as [_ ->].
  reflexivity.
Defined.

(** When the file already held the canonical print of its set, the round
    trip restores the file system exactly. *)
Corollary add_remove_canonical fs f x s :
  is_snowflake x = true -> x ∉ s -> NoDup s -> Forall clean s ->
  fs !! f = Some (print_set s) ->
  snd (removeIds f [x] (snd (addIds f [x] fs))) = fs.
Proof.
  intros Hx Habs Hnd Hcl Hf.
  assert (Hr : readSet fs f = s) by (unfold readSet; rewrite Hf; by apply parse_print_clean).
  destruct (add_remove_roundtrip fs f x Hx) as [-> _]; [by rewrite Hr|].
  rewrite Hr. unfold writeSet. by apply insert_id.
Qed.

(** Finding: the round trip does not restore the bytes of a file that
    was not canonical.  CRLF line ends and blank lines are normalised away,
    and a missing file comes back as an empty one. *)
Example add_remove_normalises :
  let raw := "123456" +:+ String CR (String LF (String CR (String LF ""))) in
  let fs : FS := {[BLACKLIST_FILE := raw]} in
  snd (removeIds BLACKLIST_FILE ["222222"] (snd (addIds BLACKLIST_FILE ["222222"] fs))) !! BLACKLIST_FILE
    = Some ("123456" +:+ String LF "") /\
  snd (removeIds BLACKLIST_FILE ["222222"] (snd (addIds BLACKLIST_FILE ["222222"] (∅ : FS)))) !! BLACKLIST_FILE
    = Some "".
Proof. split; vm_compute; reflexivity. Qed.

End Store.
