(* ===== verification/Features.v ===== *)
(** * Features: the feature-flag registry (lines 185-228 and 1457-1492)

    [FEATURES] is a JS object.  Here it is a [JObject], a list of
    key/value pairs in property order.  Its values are JSON values
    [JVal], because [features.json] is parsed with [JSON.parse] and merged
    with [{ ...DEFAULT_FEATURES, ...obj }] without any check.  A handler
    tests [if (!FEATURES.ban) return;], that is JS truthiness ([truthy]).

    [features.json] is modelled by its parsed value, [option JVal].
    [None] means the file is missing or not valid JSON.  This relies on
    [JSON.parse (JSON.stringify v) = v] for the values written here.
    Numbers are integers in this model; only their truthiness matters.

    JS puts integer-like keys first when it enumerates an object, which
    only changes the order [listFeaturesPretty] prints in.  That ordering
    is not modelled. *)

From S2P Require Import Prelude Text.
From stdpp Require Import finite.
From Stdlib Require Import ZArith Ascii.
Import Text.

Module Features.

Local Open Scope string_scope.

Inductive JVal : Type :=
| JNull
| JBool (b : bool)
| JNum (z : Z)
| JStr (s : string)
| JArr (l : list JVal)
| JObj (kvs : list (string * JVal)).

Abbreviation JObject := (list (string * JVal)).

(** [!!v] for a property read; [None] is [undefined]. *)
Definition truthy (v : option JVal) : bool :=
  match v with
  | None | Some JNull => false
  | Some (JBool b) => b
  | Some (JNum z) => negb (Z.eqb z 0)
  | Some (JStr s) => negb (String.eqb s "")
  | Some (JArr _) | Some (JObj _) => true
  end.

(** [o[k]] *)
Fixpoint obj_get (k : string) (o : JObject) : option JVal :=
  match o with
  | [] => None
  | (k', v) :: o' => if String.eqb k k' then Some v else obj_get k o'
  end.

(** [o[k] = v]: an existing key keeps its place; a new key goes last. *)
Fixpoint obj_set (k : string) (v : JVal) (o : JObject) : JObject :=
  match o with
  | [] => [(k, v)]
  | (k', v') :: o' => if String.eqb k k' then (k, v) :: o' else (k', v') :: obj_set k v o'
  end.

Fixpoint string_chars (i : nat) (s : string) : JObject :=
  match s with
  | EmptyString => []
  | String c s' => (pretty i, JStr (String c "")) :: string_chars (S i) s'
  end.

(** The own enumerable properties [...v] copies: an object's pairs (a
    repeated key keeps the last value), an array's or a string's indices,
    nothing for [null], booleans and numbers. *)
Definition spread_props (v : JVal) : JObject :=
  match v with
  | JObj kvs => kvs
  | JArr l => imap (fun i x => (pretty i, x)) l
  | JStr s => string_chars 0 s
  | _ => []
  end.

(** [{ ...o, ...v }] *)
Definition obj_spread (o : JObject) (v : JVal) : JObject :=
  foldl (fun o kv => obj_set kv.1 kv.2 o) o (spread_props v).

Inductive Feature : Type :=
| FBan | FKick | FBotadd | FChannel | FRoleUpdate | FRoleDelete.

#[export] Instance Feature_eq_dec : EqDecision Feature.
Proof. solve_decision. Defined.

Definition feature_key (f : Feature) : string :=
  match f with
  | FBan => "ban" | FKick => "kick" | FBotadd => "botadd"
  | FChannel => "channel" | FRoleUpdate => "roleUpdate" | FRoleDelete => "roleDelete"
  end.

Definition all_features : list Feature :=
  [FBan; FKick; FBotadd; FChannel; FRoleUpdate; FRoleDelete].

#[export] Program Instance Feature_finite : Finite Feature := {| enum := all_features |}.
Next Obligation. unfold all_features. repeat constructor; set_solver. Qed.
Next Obligation. intros []; set_solver. Qed.

(** [DEFAULT_FEATURES] *)
Definition DEFAULT_FEATURES : JObject :=
  map (fun f => (feature_key f, JBool true)) all_features.

(** [FEATURES.<key>] as the guards read it. *)
Definition isEnabled (F : JObject) (f : Feature) : bool :=
  truthy (obj_get (feature_key f) F).

(** [loadFeatures()]: the new [FEATURES] and the new contents of
    [features.json].  A missing or corrupt file falls back to the defaults
    and writes them back ([saveFeatures]). *)
Definition loadFeatures (file : option JVal) : JObject * option JVal :=
  match file with
  | Some obj => (obj_spread DEFAULT_FEATURES obj, file)
  | None => (DEFAULT_FEATURES, Some (JObj DEFAULT_FEATURES))
  end.

(** ** [normalizeFeatureKey] (lines 213-223) *)

Definition normalizeFeatureKey (k : option string) : option Feature :=
  match k with
  | None | Some EmptyString => None
  | Some k =>
      let s := trim (string_lower k) in
      if bool_decide (s ∈ ["ban"; "bans"]) then Some FBan
      else if bool_decide (s ∈ ["kick"; "kicks"]) then Some FKick
      else if bool_decide (s ∈ ["botadd"; "bot"; "bots"]) then Some FBotadd
      else if bool_decide (s ∈ ["channel"; "channels"; "ch"]) then Some FChannel
      else if bool_decide (s ∈ ["roleupdate"; "role"; "role-update"; "role_upd"; "ru"]) then Some FRoleUpdate
      else if bool_decide (s ∈ ["roledelete"; "role-del"; "rd"]) then Some FRoleDelete
      else None
  end.

(** ** [+enable] / [+disable] (lines 1458-1492) *)

Definition is_sep (c : ascii) : bool := is_ws c || bool_decide (c = ","%char).

(** [args.split(/[,\s]+/)] *)
Definition split_sep (s : string) : list string := split_on is_sep s.

(** [args.split(/[,\s]+/).map(s => s.trim()).filter(Boolean)] *)
Definition toggle_tokens (args : string) : list string :=
  filter (fun x => x ≠ "") (map trim (split_sep args)).

(** The loop: [FEATURES[key] = enabling; changed++] or record [unknown]. *)
Definition apply_toggles (enabling : bool) (tokens : list string) (F : JObject)
  : JObject * nat * list string :=
  foldl (fun '(F, changed, unknown) t =>
           match normalizeFeatureKey (Some t) with
           | None => (F, changed, app unknown [t])
           | Some f => (obj_set (feature_key f) (JBool enabling) F, S changed, unknown)
           end) (F, 0%nat, []) tokens.

(** [listFeaturesPretty()] (lines 224-228): one line per property of
    [FEATURES], in the order of [Object.entries], with its truthiness.
    The property order is the list's; JS puts integer-like keys first,
    which no key of [DEFAULT_FEATURES] is. *)
Definition feature_line (kv : string * JVal) : string :=
  "• **" +:+ fst kv +:+ "**: " +:+ (if truthy (Some (snd kv)) then "ENABLED" else "DISABLED").

Definition listFeaturesPretty (F : JObject) : string :=
  String.concat (String LF EmptyString) (map feature_line F).

(** ** Well-formedness of [FEATURES]

    Every one of the six keys has a value, so each guard reads a defined
    property.  This is what [{ ...DEFAULT_FEATURES, ...obj }] ensures;
    nothing ensures the values are booleans. *)
Definition features_wf (F : JObject) : bool :=
  forallb (fun f => bool_decide (is_Some (obj_get (feature_key f) F))) all_features.

(** ** Lemmas *)

Lemma obj_get_set_eq k v o : obj_get k (obj_set k v o) = Some v.
Proof.
  induction o as [|[k' v'] o IH]; simpl; [by rewrite String.eqb_refl|].
  destruct (String.eqb_spec k k'); simpl; [by rewrite String.eqb_refl|].
  destruct (String.eqb_spec k k'); [done|]. exact IH.
Qed.

Lemma obj_get_set_ne k k' v o : k ≠ k' -> obj_get k (obj_set k' v o) = obj_get k o.
Proof.
  intros Hne. induction o as [|[k'' v'] o IH]; simpl.
  - destruct (String.eqb_spec k k'); [done|]. done.
  - destruct (String.eqb_spec k' k''); simpl.
    + subst. destruct (String.eqb_spec k k''); done.
    + destruct (String.eqb_spec k k''); [done|]. exact IH.
Qed.

Lemma obj_get_set_some k k' v o : is_Some (obj_get k o) -> is_Some (obj_get k (obj_set k' v o)).
Proof.
  intros H. destruct (String.eq_dec k k') as [->|Hne].
  - rewrite obj_get_set_eq. by eexists.
  - by rewrite obj_get_set_ne.
Qed.

Lemma obj_spread_keeps k o v : is_Some (obj_get k o) -> is_Some (obj_get k (obj_spread o v)).
Proof.
  unfold obj_spread. generalize (spread_props v). intros l. revert o.
  induction l as [|[k' x] l IH]; intros o Ho; simpl; [done|].
  apply IH, obj_get_set_some, Ho.
Qed.

#[export] Hint Resolve obj_get_set_some obj_spread_keeps : bot.

Lemma obj_get_notin k l : k ∉ map fst l -> obj_get k l = None.
Proof.
  induction l as [|[k' v] l IH]; intros Hn; [done|]. cbn.
  destruct (String.eqb_spec k k') as [->|]; [set_solver|]. apply IH. set_solver.
Qed.

(** Spreading the pairs of a parsed object, whose keys are distinct,
    gives each key the object's value and keeps the others. *)
Lemma obj_get_foldl_set k o l :
  NoDup (map fst l) ->
  obj_get k (foldl (fun o kv => obj_set kv.1 kv.2 o) o l) =
  match obj_get k l with Some v => Some v | None => obj_get k o end.
Proof.
  revert o. induction l as [|[k' v] l IH]; intros o Hnd; [done|].
  cbn [map fst] in Hnd. apply NoDup_cons in Hnd as [Hk' Hnd]. cbn [foldl fst snd obj_get].
  rewrite IH by done. destruct (String.eqb_spec k k') as [->|Hne].
  - by rewrite obj_get_notin, obj_get_set_eq.
  - by rewrite obj_get_set_ne.
Qed.

Lemma features_wf_spec F : features_wf F = true <-> forall f, is_Some (obj_get (feature_key f) F).
Proof.
  unfold features_wf. rewrite forallb_forall. split.
  - intros H f. assert (Hf : In f all_features) by (destruct f; simpl; tauto).
    specialize (H f Hf). by apply bool_decide_eq_true in H.
  - intros H f _. by apply bool_decide_eq_true_2.
Qed.

Lemma features_wf_set F k v : features_wf F = true -> features_wf (obj_set k v F) = true.
Proof. rewrite !features_wf_spec. intros H f. apply obj_get_set_some, H. Qed.

Lemma DEFAULT_FEATURES_wf : features_wf DEFAULT_FEATURES = true.
Proof. reflexivity. Qed.

Lemma loadFeatures_wf file : features_wf (fst (loadFeatures file)) = true.
Proof.
  destruct file as [v|]; [|reflexivity]. simpl. apply features_wf_spec. intros f.
  apply obj_spread_keeps, features_wf_spec, DEFAULT_FEATURES_wf.
Qed.

Lemma apply_toggles_wf en toks F :
  features_wf F = true -> features_wf (fst (fst (apply_toggles en toks F))) = true.
Proof.
  unfold apply_toggles. generalize 0%nat. generalize (@nil string) at 2. revert F.
  induction toks as [|t toks IH]; intros F c u HF; [done|]. cbn [foldl].
  destruct (normalizeFeatureKey (Some t)); apply IH; [by apply features_wf_set | done].
Qed.

#[export] Hint Resolve features_wf_set DEFAULT_FEATURES_wf loadFeatures_wf apply_toggles_wf : bot.


(** ** Properties *)

(** C33. Round trip of the feature names: [normalizeFeatureKey] maps the
    key of [DEFAULT_FEATURES] of every capability, in any letter case
    the JS keys are written in ([roleUpdate], [roleDelete]), back to that
    capability. *)
Theorem normalizeFeatureKey_roundtrip f :
  normalizeFeatureKey (Some (feature_key f)) = Some f /\
  normalizeFeatureKey (Some (string_lower (feature_key f))) = Some f.
Proof. destruct f; split; reflexivity. Qed.

(** C34. [loadFeatures] does not check [features.json] (spec §3 says the
    flags are booleans and unknown keys are ignored).  For every object
    the file parses to: every key of the file is kept in [FEATURES],
    unknown keys included, the six capabilities all have a value, and
    each guard reads the file's value by truthiness (so ["false"] enables
    a guard and [0] disables one), or [true] when the file omits it. *)
Theorem loadFeatures_lenient o :
  NoDup (map fst o) ->
  let F := fst (loadFeatures (Some (JObj o))) in
  features_wf F = true /\
  (forall k v, obj_get k o = Some v -> obj_get k F = Some v) /\
  (forall f, isEnabled F f = match obj_get (feature_key f) o with Some v => truthy (Some v) | None => true end).
Proof.
  intros Hnd. cbv zeta. split; [apply loadFeatures_wf|]. cbn [loadFeatures fst]. unfold obj_spread, spread_props.
  split.
  - intros k v Hk. by rewrite obj_get_foldl_set, Hk.
  - intros f. unfold isEnabled. rewrite obj_get_foldl_set by done.
    destruct (obj_get (feature_key f) o); [done|]. by destruct f.
Qed.

Lemma loadFeatures_lenient_witness :
  NoDup (map fst [("ban", JStr "false"); ("kick", JNum 0); ("extra", JBool true)]) /\
  let F := fst (loadFeatures (Some (JObj [("ban", JStr "false"); ("kick", JNum 0); ("extra", JBool true)]))) in
  features_wf F = true /\
  (forall k v, obj_get k [("ban", JStr "false"); ("kick", JNum 0); ("extra", JBool true)] = Some v ->
               obj_get k F = Some v) /\
  (forall f, isEnabled F f =
     match obj_get (feature_key f) [("ban", JStr "false"); ("kick", JNum 0); ("extra", JBool true)] with
     | Some v => truthy (Some v) | None => true end).
Proof.
  assert (H : NoDup (map fst [("ban", JStr "false"); ("kick", JNum 0); ("extra", JBool true)])).
  { apply (bool_decide_unpack _). vm_compute. reflexivity. }
  split; [exact H | apply loadFeatures_lenient, H].
Defined.

End Features.
