(* ===== verification/Baseline.v ===== *)
(** * Baseline: the role snapshot map and the reverting set (lines 146-182)

    [ORIGINAL_ROLE_STATE] maps a guild id to a map from role id to the
    role's last accepted [{ position, permissions }].  Here it is a
    [gmap string (gmap string Snap)].  [REVERTING_ROLES] is a [gset] of
    role ids.  A [Role] is the discord.js role object the events carry:
    its id, name, position and permission bitfield.  A bitfield is a JS
    [bigint], so it is an unbounded [Z]. *)

From S2P Require Import Prelude.
From Stdlib Require Import ZArith.

Module Baseline.

Record Snap : Type := mkSnap {
  position : Z;
  permissions : Z
}.

#[export] Instance Snap_eq_dec : EqDecision Snap.
Proof. solve_decision. Defined.

Record Role : Type := mkRole {
  r_id : string;
  r_name : string;
  r_position : Z;
  r_permissions : Z
}.

(** [{ position: role.position, permissions: role.permissions.bitfield }] *)
Definition snap_of (r : Role) : Snap := mkSnap (r_position r) (r_permissions r).

Abbreviation RoleMap := (gmap string (gmap string Snap)).

(** [getOriginalRoleState(guildId, roleId)] *)
Definition getOriginalRoleState (m : RoleMap) (guildId roleId : string) : option Snap :=
  match m !! guildId with
  | Some gmap => gmap !! roleId
  | None => None
  end.

(** [setOriginalRoleState(guildId, role)]: creates the guild's map if it
    is missing, then sets the role's entry. *)
Definition setOriginalRoleState (m : RoleMap) (guildId : string) (role : Role) : RoleMap :=
  let gm := match m !! guildId with Some gm => gm | None => ∅ end in
  <[guildId := <[r_id role := snap_of role]> gm]> m.

(** [removeOriginalRoleState(guildId, roleId)] *)
Definition removeOriginalRoleState (m : RoleMap) (guildId roleId : string) : RoleMap :=
  match m !! guildId with
  | Some gm => <[guildId := delete roleId gm]> m
  | None => m
  end.

(** [snapshotGuildRoles(guild)] after a successful [guild.roles.fetch()]:
    the guild's map is replaced by one built from every cached role. *)
Definition snapshotGuildRoles (m : RoleMap) (guildId : string) (roles : list Role) : RoleMap :=
  <[guildId := list_to_map (map (fun r => (r_id r, snap_of r)) roles)]> m.

(** ** Lemmas *)

Lemma get_set_eq m g r : getOriginalRoleState (setOriginalRoleState m g r) g (r_id r) = Some (snap_of r).
Proof.
  unfold getOriginalRoleState, setOriginalRoleState.
  by rewrite !lookup_insert_eq.
Qed.

Lemma get_set_ne m g g' r rid :
  (g, rid) ≠ (g', r_id r) ->
  getOriginalRoleState (setOriginalRoleState m g' r) g rid = getOriginalRoleState m g rid.
Proof.
  intros Hne. unfold getOriginalRoleState, setOriginalRoleState.
  destruct (decide (g = g')) as [->|Hg].
  - rewrite lookup_insert_eq, lookup_insert_ne by congruence.
    by destruct (m !! g').
  - by rewrite lookup_insert_ne.
Qed.

Lemma get_remove_eq m g rid : getOriginalRoleState (removeOriginalRoleState m g rid) g rid = None.
Proof.
  unfold getOriginalRoleState, removeOriginalRoleState.
  destruct (m !! g) eqn:E; [|by rewrite E]. by rewrite lookup_insert_eq, lookup_delete_eq.
Qed.

Lemma get_remove_ne m g g' rid rid' :
  (g, rid) ≠ (g', rid') ->
  getOriginalRoleState (removeOriginalRoleState m g' rid') g rid = getOriginalRoleState m g rid.
Proof.
  intros Hne. unfold getOriginalRoleState, removeOriginalRoleState.
  destruct (m !! g') eqn:E; [|done].
  destruct (decide (g = g')) as [->|Hg].
  - rewrite lookup_insert_eq, E, lookup_delete_ne by congruence. done.
  - by rewrite lookup_insert_ne.
Qed.

#[export] Hint Rewrite get_set_eq get_remove_eq : bot_rw.

End Baseline.
