(* ===== verification/Platform.v ===== *)
(** * Platform: the discord.js world the handlers act on

    This file holds the state the bot shares with the chat platform.
    - [Guild]: a server.  It has its owner, its members, its bans, the
      server-side state of its roles, the permissions of the bot's own
      member, its audit trail and whether [LOG_CHANNEL_ID] resolves in it.
    - [AuditEntry]: one entry of the audit trail.  The trail is eventually
      consistent.  [ae_created] is the entry's [createdTimestamp] and
      [ae_visible] is the time from which [fetchAuditLogs] returns it.
    - [Effect]: an outbound call that changes something outside the
      process: ban, unban, kick, role edits, a log embed, a DM.
    - [Event]: a gateway event the bot listens to.  The interval tick of
      the sweep is one too.
    - [World]: the platform together with the process state of
      [src/index.js].  That is [FEATURES], [ORIGINAL_ROLE_STATE],
      [REVERTING_ROLES], [LOG_CHAN_OBJ] and the files.  It also holds the
      trace of performed effects, the queue of gateway events those
      effects cause, and an oracle [w_fails] that says which platform call
      fails at which time.

    A performed effect changes the guild the way the platform does.  A
    ban removes the member and adds the ban; a role edit changes the
    role.  The effect also appends the bot's own audit entry and queues
    the gateway events the platform will send back ([perform]). *)

From S2P Require Import Prelude Text Store Features Baseline.
From Stdlib Require Import ZArith.
Import Text Store Features Baseline.

Module Platform.



Inductive AuditType : Type :=
| MemberBanAdd | ChannelDelete | RoleDelete | RoleUpdate | MemberKick | BotAdd.

#[export] Instance AuditType_eq_dec : EqDecision AuditType.
Proof. solve_decision. Defined.

Record AuditEntry : Type := mkEntry {
  ae_type : AuditType;
  ae_target : option string;
  ae_executor : option string;
  ae_created : Z;
  ae_visible : Z
}.

Inductive Perm : Type := ViewAuditLog | BanMembers | ManageRoles.

#[export] Instance Perm_eq_dec : EqDecision Perm.
Proof. solve_decision. Defined.

Record Guild : Type := mkGuild {
  g_id : string;
  g_ownerId : string;
  g_name : string;
  g_members : gset string;
  g_bans : gset string;
  g_roles : gmap string Role;
  g_me_perms : list Perm;
  g_audit : list AuditEntry;   (* newest first *)
  g_has_log : bool;
  g_member_roles : gmap string (gset string);  (* member.roles.cache, by member id *)
  g_managed : gset string;     (* the ids of the managed (integration) roles *)
  g_me_top : Z;                (* me.roles.highest.position *)
  g_viewers : option (gset string)  (* who can view CHANNEL_TO_CHECK, if it is cached *)
}.

Inductive Effect : Type :=
| EBan (g uid : string)
| EUnban (g uid : string)
| EKick (g uid : string)
| ESetPermissions (g rid : string) (p : Z)
| ESetPosition (g rid : string) (pos : Z)
| ESend (ch title : string)
| EDM (uid : string)
| EAddRole (g uid rid : string)
| ERemoveRole (g uid rid : string).

Inductive Call : Type :=
| CEffect (e : Effect)
| CFetchAudit (g : string)
| CFetchLogChannel (g : string)
| CFetchRoles (g : string)
| CFetchMember (g uid : string)
| CFetchMembers (g : string)
| CFetchUser (uid : string).

Inductive Event : Type :=
| EvBanAdd (g uid : string)
| EvChannelDelete (g cid cname : string)
| EvRoleDelete (g : string) (r : Role)
| EvRoleCreate (g : string) (r : Role)
| EvRoleUpdate (g : string) (oldr newr : Role)
| EvMemberRemove (g uid : string)
| EvMemberAdd (g uid : string) (is_bot : bool)
| EvTick.

Record World : Type := mkWorld {
  w_now : Z;
  w_bot : string;                    (* client.user.id *)
  w_lag : Z;                         (* audit-trail lag of the bot's own entries *)
  w_guilds : list Guild;             (* client.guilds.cache, in order *)
  w_fs : FS;
  w_features_file : option JVal;
  w_FEATURES : JObject;
  w_ORIGINAL_ROLE_STATE : RoleMap;
  w_REVERTING_ROLES : gset string;
  w_LOG_CHAN_OBJ : option string;
  w_trace : list Effect;             (* performed effects, oldest first *)
  w_pending : list Event;            (* gateway events still to dispatch *)
  w_fails : Z -> Call -> bool
}.

Definition LOG_CHANNEL_ID : string := "1431477498100715650"%string.

(** ** Field updates *)

Definition set_fs (f : FS -> FS) (w : World) : World :=
  mkWorld (w_now w) (w_bot w) (w_lag w) (w_guilds w) (f (w_fs w)) (w_features_file w)
    (w_FEATURES w) (w_ORIGINAL_ROLE_STATE w) (w_REVERTING_ROLES w) (w_LOG_CHAN_OBJ w)
    (w_trace w) (w_pending w) (w_fails w).

Definition set_features (F : JObject) (file : option JVal) (w : World) : World :=
  mkWorld (w_now w) (w_bot w) (w_lag w) (w_guilds w) (w_fs w) file
    F (w_ORIGINAL_ROLE_STATE w) (w_REVERTING_ROLES w) (w_LOG_CHAN_OBJ w)
    (w_trace w) (w_pending w) (w_fails w).

Definition set_roles (f : RoleMap -> RoleMap) (w : World) : World :=
  mkWorld (w_now w) (w_bot w) (w_lag w) (w_guilds w) (w_fs w) (w_features_file w)
    (w_FEATURES w) (f (w_ORIGINAL_ROLE_STATE w)) (w_REVERTING_ROLES w) (w_LOG_CHAN_OBJ w)
    (w_trace w) (w_pending w) (w_fails w).

Definition set_reverting (f : gset string -> gset string) (w : World) : World :=
  mkWorld (w_now w) (w_bot w) (w_lag w) (w_guilds w) (w_fs w) (w_features_file w)
    (w_FEATURES w) (w_ORIGINAL_ROLE_STATE w) (f (w_REVERTING_ROLES w)) (w_LOG_CHAN_OBJ w)
    (w_trace w) (w_pending w) (w_fails w).

Definition set_now (t : Z) (w : World) : World :=
  mkWorld t (w_bot w) (w_lag w) (w_guilds w) (w_fs w) (w_features_file w)
    (w_FEATURES w) (w_ORIGINAL_ROLE_STATE w) (w_REVERTING_ROLES w) (w_LOG_CHAN_OBJ w)
    (w_trace w) (w_pending w) (w_fails w).

Definition set_pending (p : list Event) (w : World) : World :=
  mkWorld (w_now w) (w_bot w) (w_lag w) (w_guilds w) (w_fs w) (w_features_file w)
    (w_FEATURES w) (w_ORIGINAL_ROLE_STATE w) (w_REVERTING_ROLES w) (w_LOG_CHAN_OBJ w)
    (w_trace w) p (w_fails w).

Definition set_logchan (c : option string) (w : World) : World :=
  mkWorld (w_now w) (w_bot w) (w_lag w) (w_guilds w) (w_fs w) (w_features_file w)
    (w_FEATURES w) (w_ORIGINAL_ROLE_STATE w) (w_REVERTING_ROLES w) c
    (w_trace w) (w_pending w) (w_fails w).

(** The platform side of a performed effect. *)
Definition set_platform (gs : list Guild) (tr : list Effect) (p : list Event) (w : World) : World :=
  mkWorld (w_now w) (w_bot w) (w_lag w) gs (w_fs w) (w_features_file w)
    (w_FEATURES w) (w_ORIGINAL_ROLE_STATE w) (w_REVERTING_ROLES w) (w_LOG_CHAN_OBJ w)
    tr p (w_fails w).

(** ** Guilds *)

Definition guild_of (w : World) (g : string) : option Guild :=
  List.find (fun gd => bool_decide (g_id gd = g)) (w_guilds w).

Definition map_guild (g : string) (f : Guild -> Guild) (gs : list Guild) : list Guild :=
  map (fun gd => if decide (g_id gd = g) then f gd else gd) gs.

Definition with_members (f : gset string -> gset string) (gd : Guild) : Guild :=
  mkGuild (g_id gd) (g_ownerId gd) (g_name gd) (f (g_members gd)) (g_bans gd) (g_roles gd)
    (g_me_perms gd) (g_audit gd) (g_has_log gd) (g_member_roles gd) (g_managed gd) (g_me_top gd) (g_viewers gd).

Definition with_bans (f : gset string -> gset string) (gd : Guild) : Guild :=
  mkGuild (g_id gd) (g_ownerId gd) (g_name gd) (g_members gd) (f (g_bans gd)) (g_roles gd)
    (g_me_perms gd) (g_audit gd) (g_has_log gd) (g_member_roles gd) (g_managed gd) (g_me_top gd) (g_viewers gd).

Definition with_roles (f : gmap string Role -> gmap string Role) (gd : Guild) : Guild :=
  mkGuild (g_id gd) (g_ownerId gd) (g_name gd) (g_members gd) (g_bans gd) (f (g_roles gd))
    (g_me_perms gd) (g_audit gd) (g_has_log gd) (g_member_roles gd) (g_managed gd) (g_me_top gd) (g_viewers gd).

Definition with_entry (e : AuditEntry) (gd : Guild) : Guild :=
  mkGuild (g_id gd) (g_ownerId gd) (g_name gd) (g_members gd) (g_bans gd) (g_roles gd)
    (g_me_perms gd) (e :: g_audit gd) (g_has_log gd) (g_member_roles gd) (g_managed gd) (g_me_top gd) (g_viewers gd).

Definition with_member_roles (uid : string) (f : gset string -> gset string) (gd : Guild) : Guild :=
  mkGuild (g_id gd) (g_ownerId gd) (g_name gd) (g_members gd) (g_bans gd) (g_roles gd)
    (g_me_perms gd) (g_audit gd) (g_has_log gd)
    (<[uid := f (default ∅ (g_member_roles gd !! uid))]> (g_member_roles gd)) (g_managed gd) (g_me_top gd) (g_viewers gd).

(** [isProtectedId(guild, id)]: the owner or the bot itself. *)
Definition isProtectedId (w : World) (gd : Guild) (id : string) : bool :=
  bool_decide (id = g_ownerId gd \/ id = w_bot w).

Definition has_perm (gd : Guild) (p : Perm) : bool := bool_decide (p ∈ g_me_perms gd).

(** ** Performing an effect *)

(** The bot's own audit entry for an action it performs now. *)
Definition bot_entry (w : World) (t : AuditType) (target : string) : AuditEntry :=
  mkEntry t (Some target) (Some (w_bot w)) (w_now w) (w_now w + w_lag w).

Definition is_member (w : World) (g uid : string) : bool :=
  match guild_of w g with
  | Some gd => bool_decide (uid ∈ g_members gd)
  | None => false
  end.

(** [await guild.members.fetch(id)]: it rejects for an id that is not a
    member, or when the platform fails. *)
Definition fetchMember (g uid : string) : M World unit :=
  fun w => if is_member w g uid && negb (w_fails w (w_now w) (CFetchMember g uid))
           then (Ok tt, w) else (Exn, w).

Definition role_in (w : World) (g rid : string) : option Role :=
  match guild_of w g with
  | Some gd => g_roles gd !! rid
  | None => None
  end.

Definition with_permissions (r : Role) (p : Z) : Role :=
  mkRole (r_id r) (r_name r) (r_position r) p.

Definition with_position (r : Role) (pos : Z) : Role :=
  mkRole (r_id r) (r_name r) pos (r_permissions r).

(** A role edit: the role changes on the server, the bot's [RoleUpdate]
    entry is logged, and [roleUpdate(old, new)] is queued. *)
Definition perform_role_edit (g rid : string) (edit : Role -> Role) (tr : list Effect) (w : World) : World :=
  match role_in w g rid with
  | Some r =>
      set_platform
        (map_guild g (fun gd => with_entry (bot_entry w RoleUpdate rid)
                                  (with_roles (insert rid (edit r)) gd)) (w_guilds w))
        tr (w_pending w ++ [EvRoleUpdate g r (edit r)]) w
  | None => set_platform (w_guilds w) tr (w_pending w) w
  end.

(** The platform's answer to a performed effect. *)
Definition perform (e : Effect) (w : World) : World :=
  let tr := w_trace w ++ [e] in
  match e with
  | EBan g uid =>
      let left := if is_member w g uid then [EvMemberRemove g uid] else [] in
      set_platform
        (map_guild g (fun gd => with_entry (bot_entry w MemberBanAdd uid)
                                  (with_bans (union {[uid]})
                                    (with_members (fun m => m ∖ {[uid]}) gd))) (w_guilds w))
        tr (w_pending w ++ EvBanAdd g uid :: left) w
  | EUnban g uid =>
      set_platform (map_guild g (with_bans (fun b => b ∖ {[uid]})) (w_guilds w)) tr (w_pending w) w
  | EKick g uid =>
      let left := if is_member w g uid then [EvMemberRemove g uid] else [] in
      set_platform
        (map_guild g (fun gd => with_entry (bot_entry w MemberKick uid)
                                  (with_members (fun m => m ∖ {[uid]}) gd)) (w_guilds w))
        tr (w_pending w ++ left) w
  | ESetPermissions g rid p => perform_role_edit g rid (fun r => with_permissions r p) tr w
  | ESetPosition g rid pos => perform_role_edit g rid (fun r => with_position r pos) tr w
  | ESend _ _ | EDM _ => set_platform (w_guilds w) tr (w_pending w) w
  | EAddRole g uid rid =>
      set_platform (map_guild g (with_member_roles uid (union {[rid]})) (w_guilds w)) tr (w_pending w) w
  | ERemoveRole g uid rid =>
      set_platform (map_guild g (with_member_roles uid (fun s => s ∖ {[rid]})) (w_guilds w)) tr (w_pending w) w
  end.

(** ** Primitive handler steps *)

(** An outbound call: it either fails (a rejected promise) or is performed. *)
Definition call (e : Effect) : M World unit :=
  fun w => if w_fails w (w_now w) (CEffect e) then (Exn, w) else (Ok tt, perform e w).

(** [await wait(ms)] *)
Definition wait (ms : Z) : M World unit :=
  modifyM (fun w => set_now (w_now w + ms) w).

(** [getLogChannel(guild, fallback)]: [LOG_CHANNEL_ID] is set, so the
    guild's channel is fetched, and a failed fetch yields the fallback. *)
Definition getLogChannel (gd : Guild) (fallback : option string) : M World (option string) :=
  fun w => if g_has_log gd && negb (w_fails w (w_now w) (CFetchLogChannel (g_id gd)))
           then (Ok (Some LOG_CHANNEL_ID), w) else (Ok fallback, w).

(** [const logc = await getLogChannel(guild, LOG_CHAN_OBJ); if (logc) await logc.send({ embeds: [makeEmbed(title, ...)] })].
    An embed is identified by its title. *)
Definition sendLog (gd : Guild) (title : string) : M World unit :=
  let* fallback := getsM w_LOG_CHAN_OBJ in
  let* logc := getLogChannel gd fallback in
  match logc with
  | Some ch => call (ESend ch title)
  | None => retM tt
  end.

Definition readSetM (file : string) : M World (list string) :=
  getsM (fun w => readSet (w_fs w) file).

Definition addIdsM (file : string) (ids : list string) : M World (list string) :=
  fun w => (Ok (fst (addIds file ids (w_fs w))), set_fs (fun fs => snd (addIds file ids fs)) w).

Definition removeIdsM (file : string) (ids : list string) : M World (list string) :=
  fun w => (Ok (fst (removeIds file ids (w_fs w))), set_fs (fun fs => snd (removeIds file ids fs)) w).

(** [if (!FEATURES.<f>) return;] inside its [try {} catch {}] *)
Definition featureOn (f : Feature) : M World bool :=
  getsM (fun w => isEnabled (w_FEATURES w) f).

Definition withGuild (g : string) (k : Guild -> M World unit) : M World unit :=
  fun w => match guild_of w g with
           | Some gd => k gd w
           | None => (Exn, w)
           end.

(** ** Frame lemmas: what the platform side of an effect leaves alone *)

(** The process state of [src/index.js] inside a world. *)
Definition proc (w : World) :=
  (w_fs w, w_FEATURES w, w_features_file w, w_ORIGINAL_ROLE_STATE w,
   w_REVERTING_ROLES w, w_LOG_CHAN_OBJ w).

(** The parts of a world no handler changes. *)
Definition fixed (w : World) := (w_bot w, w_lag w, w_fails w).

Definition members_of (w : World) (g : string) : gset string :=
  match guild_of w g with Some gd => g_members gd | None => ∅ end.

(** [w'] extends the trace of [w] by effects that all satisfy [P]. *)
Definition trace_ext (P : Effect -> Prop) (w w' : World) : Prop :=
  exists sfx, w_trace w' = w_trace w ++ sfx /\ Forall P sfx.

Definition is_send (e : Effect) : Prop := match e with ESend _ _ => True | _ => False end.

#[export] Instance is_send_dec e : Decision (is_send e).
Proof. destruct e; simpl; apply _. Defined.

Definition statics (gd : Guild) := (g_id gd, g_ownerId gd, g_name gd, g_me_perms gd, g_has_log gd).

(** ** Weakest preconditions of the primitive steps *)

Definition deny (w : World) : list string := readSet (w_fs w) BLACKLIST_FILE.
Definition allow (w : World) : list string := readSet (w_fs w) WHITELIST_FILE.

(** What sending a log embed may do, whether it succeeds or fails: add
    sends to the trace, nothing else. *)
Definition log_post (w w' : World) : Prop :=
  trace_ext is_send w w' /\ w_guilds w' = w_guilds w /\ proc w' = proc w /\
  fixed w' = fixed w /\ w_now w' = w_now w /\ w_pending w' = w_pending w.

(** Every platform call succeeds. *)
Definition quiet (w : World) : Prop := forall t c, w_fails w t c = false.

Definition actions (w : World) : list Effect := filter (fun e => ~ is_send e) (w_trace w).

(** ** A concrete guild and world, for the examples *)

Definition sample_guild (members : gset string) (audit : list AuditEntry) : Guild :=
  mkGuild "900000001"%string "100000001"%string "sab-mm"%string members ∅ ∅
    [ViewAuditLog; BanMembers; ManageRoles] audit true ∅ ∅ 100 None.

Definition sample_world (fs : FS) (members : gset string) (audit : list AuditEntry) : World :=
  mkWorld 0 "555555555"%string 0 [sample_guild members audit] fs None DEFAULT_FEATURES ∅ ∅ None [] []
    (fun _ _ => false).

Lemma perform_role_edit_proc g rid f tr w : proc (perform_role_edit g rid f tr w) = proc w.
Proof. unfold perform_role_edit. by destruct (role_in w g rid). Qed.

Lemma perform_proc e w : proc (perform e w) = proc w.
Proof. destruct e; simpl; try reflexivity; apply perform_role_edit_proc. Qed.

Lemma perform_role_edit_fixed g rid f tr w :
  fixed (perform_role_edit g rid f tr w) = fixed w /\ w_now (perform_role_edit g rid f tr w) = w_now w.
Proof. unfold perform_role_edit. by destruct (role_in w g rid). Qed.

Lemma perform_fixed e w : fixed (perform e w) = fixed w /\ w_now (perform e w) = w_now w.
Proof. destruct e; simpl; try done; apply perform_role_edit_fixed. Qed.

Lemma perform_trace e w : exists p, w_trace (perform e w) = w_trace w ++ [e] /\ w_pending (perform e w) = w_pending w ++ p.
Proof.
  destruct e; simpl; eauto using app_nil_r;
    unfold perform_role_edit; (destruct (role_in w g rid); simpl; eauto using app_nil_r).
Qed.

Lemma find_map_guild g f gs g' :
  (forall gd, g_id (f gd) = g_id gd) ->
  List.find (fun gd => bool_decide (g_id gd = g')) (map_guild g f gs) =
  (fun gd => if decide (g_id gd = g) then f gd else gd) <$>
    List.find (fun gd => bool_decide (g_id gd = g')) gs.
Proof.
  intros Hf. unfold map_guild. induction gs as [|gd gs IH]; [done|]. cbn [map List.find].
  destruct (decide (g_id gd = g)) as [Hg|Hg].
  - rewrite Hf. destruct (bool_decide (g_id gd = g')); [simpl; by rewrite decide_True|].
    exact IH.
  - destruct (bool_decide (g_id gd = g')); [simpl; by rewrite decide_False|]. exact IH.
Qed.

Lemma members_of_map_guild w gs tr p g f g' :
  (forall gd, g_id (f gd) = g_id gd) ->
  members_of (set_platform (map_guild g f gs) tr p w) g' =
  match List.find (fun gd => bool_decide (g_id gd = g')) gs with
  | Some gd => if decide (g = g') then g_members (f gd) else g_members gd
  | None => ∅
  end.
Proof.
  intros Hf. unfold members_of, guild_of. simpl. rewrite find_map_guild by done.
  destruct (List.find _ gs) as [gd|] eqn:E; simpl; [|done].
  apply List.find_some in E as [_ E]. apply bool_decide_eq_true in E. subst.
  by repeat case_decide; subst.
Qed.

(** A ban removes the member from that guild's members and nothing else. *)
Lemma members_of_perform e w g' :
  members_of (perform e w) g' =
  match e with
  | EBan g uid | EKick g uid => if decide (g = g') then members_of w g' ∖ {[uid]} else members_of w g'
  | _ => members_of w g'
  end.
Proof.
  assert (Hmap : forall g f tr p, (forall gd, g_id (f gd) = g_id gd) ->
    (forall gd, g_members (f gd) = g_members gd) ->
    members_of (set_platform (map_guild g f (w_guilds w)) tr p w) g' = members_of w g').
  { intros g f tr p Hf Hm. rewrite members_of_map_guild by done. unfold members_of, guild_of.
    destruct (List.find _ _); [|done]. case_decide; [apply Hm | done]. }
  destruct e; simpl; try done.
  - rewrite members_of_map_guild by done. unfold members_of, guild_of.
    destruct (List.find _ _); case_decide; try done. by rewrite empty_difference_L.
  - by apply Hmap.
  - rewrite members_of_map_guild by done. unfold members_of, guild_of.
    destruct (List.find _ _); case_decide; try done. by rewrite empty_difference_L.
  - unfold perform_role_edit. destruct (role_in w g rid); [by apply Hmap | done].
  - unfold perform_role_edit. destruct (role_in w g rid); [by apply Hmap | done].
  - by apply Hmap.
  - by apply Hmap.
Qed.

(** ** Run equations of the primitive steps *)

Lemma call_run e w :
  call e w = if w_fails w (w_now w) (CEffect e) then (Exn, w) else (Ok tt, perform e w).
Proof. reflexivity. Qed.

(** Sending a log embed touches nothing but the trace. *)
Lemma sendLog_frame gd t w :
  let w' := snd (sendLog gd t w) in
  w_guilds w' = w_guilds w /\ proc w' = proc w /\ fixed w' = fixed w /\ w_now w' = w_now w.
Proof.
  unfold sendLog, bindM, getsM, getLogChannel.
  destruct (g_has_log gd && _); simpl;
    [|destruct (w_LOG_CHAN_OBJ w)]; try done;
    rewrite call_run; case_match; done.
Qed.

(** ** Trace extensions *)

Lemma trace_ext_refl P w : trace_ext P w w.
Proof. exists []. by rewrite app_nil_r. Qed.

Lemma trace_ext_trans P w1 w2 w3 : trace_ext P w1 w2 -> trace_ext P w2 w3 -> trace_ext P w1 w3.
Proof.
  intros [s1 [H1 F1]] [s2 [H2 F2]]. exists (s1 ++ s2).
  split; [by rewrite H2, H1, app_assoc | by apply Forall_app].
Qed.

Lemma trace_ext_mono (P Q : Effect -> Prop) w w' :
  (forall e, P e -> Q e) -> trace_ext P w w' -> trace_ext Q w w'.
Proof. intros HPQ [s [H F]]. exists s. split; [done|]. by eapply Forall_impl. Qed.

Lemma trace_ext_perform (P : Effect -> Prop) e w : P e -> trace_ext P w (perform e w).
Proof.
  intros HP. destruct (perform_trace e w) as [p [Ht _]]. exists [e].
  split; [done|]. by constructor.
Qed.

Lemma trace_ext_call (P : Effect -> Prop) e w : P e -> trace_ext P w (snd (call e w)).
Proof. intros HP. rewrite call_run. case_match; [apply trace_ext_refl | by apply trace_ext_perform]. Qed.

Lemma sendLog_trace gd t w : trace_ext is_send w (snd (sendLog gd t w)).
Proof.
  unfold sendLog, bindM, getsM, getLogChannel.
  destruct (g_has_log gd && _); simpl; [|destruct (w_LOG_CHAN_OBJ w)]; simpl;
    try apply trace_ext_refl; by apply trace_ext_call.
Qed.

#[export] Hint Resolve trace_ext_refl trace_ext_call sendLog_trace : bot.

Lemma map_guild_statics g f gs :
  (forall gd, statics (f gd) = statics gd) -> map statics (map_guild g f gs) = map statics gs.
Proof.
  intros Hf. unfold map_guild. rewrite map_map. apply map_ext. intros gd. by case_decide.
Qed.

(** An effect never changes which guilds there are, nor their owners. *)
Lemma perform_statics e w : map statics (w_guilds (perform e w)) = map statics (w_guilds w).
Proof.
  destruct e; simpl; try apply map_guild_statics; try done;
    unfold perform_role_edit; destruct (role_in w g rid); simpl; try done;
    by apply map_guild_statics.
Qed.

Lemma log_post_refl w : log_post w w.
Proof. repeat split; apply trace_ext_refl. Qed.

Lemma log_post_trans w1 w2 w3 : log_post w1 w2 -> log_post w2 w3 -> log_post w1 w3.
Proof.
  intros (T1 & G1 & P1 & F1 & N1 & Q1) (T2 & G2 & P2 & F2 & N2 & Q2).
  split; [by eapply trace_ext_trans|]. repeat split; congruence.
Qed.

Lemma wp_call e Q w :
  (if w_fails w (w_now w) (CEffect e) then Q Exn w else Q (Ok tt) (perform e w)) ->
  wp (call e) Q w.
Proof. unfold wp. rewrite call_run. by destruct (w_fails _ _ _). Qed.

Lemma quiet_fails w w' : w_fails w' = w_fails w -> quiet w -> quiet w'.
Proof. intros E Hq t c. by rewrite E. Qed.

Lemma wp_sendLog gd t Q w :
  (forall r w', log_post w w' -> (quiet w -> r = Ok tt) -> Q r w') -> wp (sendLog gd t) Q w.
Proof.
  intros HQ. unfold wp. apply HQ.
  - destruct (sendLog_frame gd t w) as (G & P & F & N).
    split; [apply sendLog_trace|]. repeat split; try done.
    unfold sendLog, bindM, getsM, getLogChannel.
    destruct (g_has_log gd && _); simpl; [|destruct (w_LOG_CHAN_OBJ w)]; simpl; try done;
      rewrite call_run; destruct (w_fails _ _ _); simpl; try done;
      destruct (perform_trace (ESend _ t) w) as [p [_ Hp]]; rewrite Hp; simpl; by rewrite app_nil_r.
  - intros Hq. unfold sendLog, bindM, getsM, getLogChannel.
    destruct (g_has_log gd && _); simpl; [|destruct (w_LOG_CHAN_OBJ w)]; simpl; try done;
      by rewrite call_run, Hq.
Qed.

Lemma wp_readSetM file Q w : Q (Ok (readSet (w_fs w) file)) w -> wp (readSetM file) Q w.
Proof. done. Qed.

Lemma wp_addIdsM file ids Q w :
  Q (Ok (fst (addIds file ids (w_fs w)))) (set_fs (fun fs => snd (addIds file ids fs)) w) ->
  wp (addIdsM file ids) Q w.
Proof. done. Qed.

Lemma wp_featureOn f Q w : Q (Ok (isEnabled (w_FEATURES w) f)) w -> wp (featureOn f) Q w.
Proof. done. Qed.

Lemma wp_withGuild g k Q w :
  match guild_of w g with Some gd => wp (k gd) Q w | None => Q Exn w end ->
  wp (withGuild g k) Q w.
Proof. unfold wp, withGuild. by destruct (guild_of w g). Qed.

Lemma wp_wait ms Q w : Q (Ok tt) (set_now (w_now w + ms) w) -> wp (wait ms) Q w.
Proof. done. Qed.

(** ** Field projections through the steps

    [actions w] is the trace of [w] without the log embeds: the effects
    that change the server.  The rewrite database [world_rw] pushes the
    projections a theorem reads through the field updates and [perform];
    [log_post_fields] reads them off a log step. *)

Lemma actions_perform e w :
  actions (perform e w) = actions w ++ filter (fun e => ~ is_send e) [e].
Proof.
  unfold actions. destruct (perform_trace e w) as [p [-> _]]. by rewrite filter_app.
Qed.

Lemma perform_fields e w :
  w_fs (perform e w) = w_fs w /\ w_ORIGINAL_ROLE_STATE (perform e w) = w_ORIGINAL_ROLE_STATE w /\
  w_REVERTING_ROLES (perform e w) = w_REVERTING_ROLES w /\ w_FEATURES (perform e w) = w_FEATURES w /\
  w_now (perform e w) = w_now w /\ w_bot (perform e w) = w_bot w /\ w_fails (perform e w) = w_fails w.
Proof.
  pose proof (perform_proc e w) as P. destruct (perform_fixed e w) as [F N].
  unfold proc, fixed in *. simplify_eq. by repeat split.
Qed.

Lemma actions_perform_act e w : ~ is_send e -> actions (perform e w) = actions w ++ [e].
Proof. intros He. rewrite actions_perform. by rewrite filter_cons_True. Qed.

Lemma actions_perform_send e w : is_send e -> actions (perform e w) = actions w.
Proof. intros He. rewrite actions_perform, filter_cons_False by tauto. apply app_nil_r. Qed.

Lemma w_fs_perform e w : w_fs (perform e w) = w_fs w.
Proof. apply perform_fields. Qed.
Lemma w_roles_perform e w : w_ORIGINAL_ROLE_STATE (perform e w) = w_ORIGINAL_ROLE_STATE w.
Proof. apply perform_fields. Qed.
Lemma w_reverting_perform e w : w_REVERTING_ROLES (perform e w) = w_REVERTING_ROLES w.
Proof. apply perform_fields. Qed.
Lemma w_features_perform e w : w_FEATURES (perform e w) = w_FEATURES w.
Proof. apply perform_fields. Qed.
Lemma w_now_perform e w : w_now (perform e w) = w_now w.
Proof. apply perform_fields. Qed.
Lemma w_bot_perform e w : w_bot (perform e w) = w_bot w.
Proof. apply perform_fields. Qed.
Lemma w_fails_perform e w : w_fails (perform e w) = w_fails w.
Proof. apply perform_fields. Qed.

Lemma actions_set_fs f w : actions (set_fs f w) = actions w.
Proof. reflexivity. Qed.
Lemma actions_set_roles f w : actions (set_roles f w) = actions w.
Proof. reflexivity. Qed.
Lemma actions_set_reverting f w : actions (set_reverting f w) = actions w.
Proof. reflexivity. Qed.
Lemma actions_set_now t w : actions (set_now t w) = actions w.
Proof. reflexivity. Qed.

#[export] Hint Rewrite actions_perform_act actions_perform_send using (simpl; tauto) : world_rw.
#[export] Hint Rewrite w_fs_perform w_roles_perform w_reverting_perform
  w_features_perform w_now_perform w_bot_perform w_fails_perform actions_set_fs actions_set_roles actions_set_reverting actions_set_now : world_rw.

Lemma log_post_fields w w' :
  log_post w w' ->
  actions w' = actions w /\ w_fs w' = w_fs w /\ w_ORIGINAL_ROLE_STATE w' = w_ORIGINAL_ROLE_STATE w /\
  w_REVERTING_ROLES w' = w_REVERTING_ROLES w /\ w_FEATURES w' = w_FEATURES w /\
  w_guilds w' = w_guilds w /\ w_now w' = w_now w /\ w_bot w' = w_bot w /\ w_fails w' = w_fails w.
Proof.
  intros ([sfx [Ht Hs]] & G & P & F & N & _). unfold proc, fixed in *. simplify_eq.
  unfold actions. rewrite Ht, filter_app.
  rewrite (filter_all_False (fun e => ~ is_send e) sfx); [|eapply Forall_impl; [exact Hs|]; tauto].
  rewrite app_nil_r. by repeat split.
Qed.

(** [world_simpl] turns every log step among the hypotheses into the
    equations of [log_post_fields] and rewrites the goal with them and with
    [world_rw], from the last world back to the first. *)
Ltac world_norm :=
  autorewrite with world_rw;
  cbn [w_fs w_ORIGINAL_ROLE_STATE w_REVERTING_ROLES w_FEATURES w_trace w_now
       w_bot w_fails w_guilds set_fs set_roles set_reverting set_now].

Ltac world_norm_in H :=
  autorewrite with world_rw in H;
  cbn [w_fs w_ORIGINAL_ROLE_STATE w_REVERTING_ROLES w_FEATURES w_trace w_now
       w_bot w_fails w_guilds set_fs set_roles set_reverting set_now] in H.

Ltac world_simpl :=
  repeat match goal with
  | H : log_post _ _ |- _ =>
      let E1 := fresh "E" in let E2 := fresh "E" in let E3 := fresh "E" in
      let E4 := fresh "E" in let E5 := fresh "E" in let E6 := fresh "E" in
      let E7 := fresh "E" in let E8 := fresh "E" in let E9 := fresh "E" in
      destruct (log_post_fields _ _ H) as (E1 & E2 & E3 & E4 & E5 & E6 & E7 & E8 & E9); clear H
  end;
  repeat (progress world_norm ||
          match goal with
          | E : ?f ?b = _ |- context [?f ?b] => is_var b; rewrite E
          end);
  repeat match goal with
  | H : w_fails ?x _ _ = _ |- _ => progress (world_norm_in H)
  | E : w_fails ?b = _, H : w_fails ?b _ _ = _ |- _ => is_var b; rewrite E in H
  | H : context [w_bot ?x] |- _ => progress (world_norm_in H)
  | E : w_bot ?b = _, H : context [w_bot ?b] |- _ => is_var b; rewrite E in H
  end.

(** ** Steps that leave the process state alone

    A preorder on worlds that holds between any two worlds with the same
    process state ([proc]) relates the two ends of every platform call,
    log embed, wait and read. *)

Section ProcSteps.
  Context (R : World -> World -> Prop) `{!PreOrder R}.
  Hypothesis R_frame : forall w w', proc w' = proc w -> R w w'.

Lemma steps_call e : steps R (call e).
  Proof. intros w. rewrite call_run. destruct (w_fails _ _ _); [done|]. apply R_frame, perform_proc. Qed.

Lemma steps_sendLog gd t : steps R (sendLog gd t).
  Proof. intros w. apply R_frame, sendLog_frame. Qed.

Lemma steps_wait ms : steps R (wait ms).
  Proof. intros w. by apply R_frame. Qed.

Lemma steps_fetchMember g uid : steps R (fetchMember g uid).
Proof. intros w. unfold fetchMember. by case_match. Qed.

Lemma steps_readSetM file : steps R (readSetM file).
  Proof. apply steps_getsM; apply _. Qed.

Lemma steps_featureOn f : steps R (featureOn f).
  Proof. apply steps_getsM; apply _. Qed.

Lemma steps_getLogChannel gd fb : steps R (getLogChannel gd fb).
  Proof. intros w. unfold getLogChannel. by case_match. Qed.

Lemma steps_withGuild g k : (forall gd, steps R (k gd)) -> steps R (withGuild g k).
  Proof. intros Hk w. unfold withGuild. destruct (guild_of w g); [apply Hk | done]. Qed.
End ProcSteps.

(** [guild_of] returns the guild with the requested id. *)
Lemma guild_of_id w g gd : guild_of w g = Some gd -> g_id gd = g.
Proof. unfold guild_of. intros E. apply List.find_some in E as [_ E]. by apply bool_decide_eq_true in E. Qed.

End Platform.
