(* ===== verification/AuditLog.v ===== *)
(** * AuditLog: attributing an event to its executor

    Every handler reads the audit trail in the same way.  It calls
    [guild.fetchAuditLogs({ type, limit: 5 })], which returns the five
    newest entries of the type that are visible at the time of the call.
    It then takes the first entry that passes a filter on target and age.
    The ban handler wraps this in [fetchEntry] and retries once after
    [wait(1500)] (lines 446-457).  This is the only retry in the program.
    [resolveBanEntry] models it.

    Time is [w_now]; only [wait] advances it. *)

From S2P Require Import Prelude Baseline Platform.
From Stdlib Require Import ZArith.
Import Baseline Platform.

Module AuditLog.

(** Entries of type [t] in guild [g] that the platform returns now. *)
Definition visible_entries (w : World) (g : string) (t : AuditType) : list AuditEntry :=
  match guild_of w g with
  | Some gd => filter (fun e => ae_type e = t /\ (ae_visible e <= w_now w)%Z) (g_audit gd)
  | None => []
  end.

(** [guild.fetchAuditLogs({ type: t, limit: 5 })] *)
Definition fetchAuditLogs (g : string) (t : AuditType) : M World (list AuditEntry) :=
  fun w => if w_fails w (w_now w) (CFetchAudit g) then (Exn, w)
           else (Ok (take 5 (visible_entries w g t)), w).

(** [e => e.target?.id === id && (Date.now() - e.createdTimestamp < window)] *)
Definition recent_target (id : string) (window now : Z) (e : AuditEntry) : bool :=
  bool_decide (ae_target e = Some id) && bool_decide (now - ae_created e < window)%Z.

(** [e => e.target?.id === id] *)
Definition is_target (id : string) (e : AuditEntry) : bool :=
  bool_decide (ae_target e = Some id).

(** [entry?.executor?.id] read as a truthy string: [undefined], [null]
    and [""] are all absent. *)
Definition exec_id (e : AuditEntry) : option string :=
  match ae_executor e with
  | Some x => if bool_decide (x = ""%string) then None else Some x
  | None => None
  end.

(** [logs.entries.find(e => e.target?.id === id && (Date.now() - e.createdTimestamp < window))] *)
Definition findRecent (g : string) (t : AuditType) (id : string) (window : Z)
  : M World (option AuditEntry) :=
  let* logs := fetchAuditLogs g t in
  let* now := getsM w_now in
  retM (List.find (recent_target id window now) logs).

(** [fetchEntry] of the ban handler, with its one retry. *)
Definition resolveBanEntry (g uid : string) : M World (option AuditEntry) :=
  let* entry := findRecent g MemberBanAdd uid 60000 in
  match entry with
  | Some e => retM (Some e)
  | None => wait 1500 ;; findRecent g MemberBanAdd uid 60000
  end.

(** What a successful lookup returns, as a pure function of the world. *)
Definition first_recent (w : World) (g : string) (t : AuditType) (id : string) (window : Z)
  : option AuditEntry :=
  List.find (recent_target id window (w_now w)) (take 5 (visible_entries w g t)).

Definition audit_ok (w : World) (g : string) : Prop :=
  w_fails w (w_now w) (CFetchAudit g) = false.

(** ** Lemmas *)

Lemma findRecent_run w g t id window :
  audit_ok w g -> findRecent g t id window w = (Ok (first_recent w g t id window), w).
Proof. unfold audit_ok, findRecent, fetchAuditLogs, bindM. intros ->. reflexivity. Qed.

Lemma findRecent_fail w g t id window :
  ~ audit_ok w g -> findRecent g t id window w = (Exn, w).
Proof.
  unfold audit_ok, findRecent, fetchAuditLogs, bindM. intros H.
  destruct (w_fails w (w_now w) (CFetchAudit g)); [done|]. by destruct H.
Qed.

Lemma first_recent_sound w g t id window e :
  first_recent w g t id window = Some e ->
  ae_type e = t /\ ae_target e = Some id /\ (w_now w - ae_created e < window)%Z /\
  (ae_visible e <= w_now w)%Z /\ e ∈ take 5 (visible_entries w g t).
Proof.
  unfold first_recent. intros Hf.
  apply List.find_some in Hf as [Hin Hp]. apply list_elem_of_In in Hin.
  unfold recent_target in Hp. apply andb_true_iff in Hp as [H1 H2].
  apply bool_decide_eq_true in H1, H2.
  assert (Hv : e ∈ visible_entries w g t) by (by eapply subseteq_take).
  unfold visible_entries in Hv. destruct (guild_of w g); [|set_solver].
  apply list_elem_of_filter in Hv as [[? ?] _]. done.
Qed.

Lemma find_exists {A} (p : A -> bool) (l : list A) x :
  x ∈ l -> p x = true -> exists y, List.find p l = Some y /\ p y = true.
Proof.
  intros Hx Hp. destruct (List.find p l) as [y|] eqn:E.
  - exists y. split; [done|]. by apply List.find_some in E as [_ ?].
  - apply list_elem_of_In in Hx. by rewrite (List.find_none p l E x Hx) in Hp.
Qed.

Lemma wp_fetchAuditLogs g t Q w :
  (if w_fails w (w_now w) (CFetchAudit g) then Q Exn w
   else Q (Ok (take 5 (visible_entries w g t))) w) ->
  wp (fetchAuditLogs g t) Q w.
Proof. unfold wp, fetchAuditLogs. by destruct (w_fails _ _ _). Qed.

Lemma wp_findRecent g t id window Q w :
  (if w_fails w (w_now w) (CFetchAudit g) then Q Exn w
   else Q (Ok (first_recent w g t id window)) w) ->
  wp (findRecent g t id window) Q w.
Proof. unfold wp, findRecent, bindM, fetchAuditLogs. by destruct (w_fails _ _ _). Qed.

Lemma wp_resolveBanEntry g uid Q w :
  (if w_fails w (w_now w) (CFetchAudit g) then Q Exn w
   else match first_recent w g MemberBanAdd uid 60000 with
        | Some e => Q (Ok (Some e)) w
        | None => let w' := set_now (w_now w + 1500) w in
                  if w_fails w' (w_now w') (CFetchAudit g) then Q Exn w'
                  else Q (Ok (first_recent w' g MemberBanAdd uid 60000)) w'
        end) ->
  wp (resolveBanEntry g uid) Q w.
Proof.
  unfold resolveBanEntry. intros H. apply wp_bindM, wp_findRecent.
  destruct (w_fails _ _ _); [done|]. destruct (first_recent _ _ _ _ _); [done|].
  apply wp_bindM, wp_wait, wp_findRecent. exact H.
Qed.

Section AuditSteps.
  Context (R : World -> World -> Prop) `{!PreOrder R}.
  Hypothesis R_frame : forall w w', proc w' = proc w -> R w w'.

Lemma steps_fetchAuditLogs g t : steps R (fetchAuditLogs g t).
  Proof. intros w. unfold fetchAuditLogs. destruct (w_fails _ _ _); done. Qed.

Lemma steps_findRecent g t id window : steps R (findRecent g t id window).
  Proof. unfold findRecent. steps_auto; auto using steps_fetchAuditLogs. Qed.

Lemma steps_resolveBanEntry g uid : steps R (resolveBanEntry g uid).
  Proof. unfold resolveBanEntry. steps_auto; auto using steps_findRecent, steps_wait. Qed.
End AuditSteps.

(** The ban handler's lookup ([fetchEntry] with its one retry): it
    returns the first recent entry for the target among the five newest
    visible ban entries.  If there is none, it waits 1.5 s and returns the
    same lookup in the later world. *)
Lemma resolveBanEntry_spec w g uid :
  audit_ok w g -> audit_ok (set_now (w_now w + 1500) w) g ->
  resolveBanEntry g uid w =
    match first_recent w g MemberBanAdd uid 60000 with
    | Some e => (Ok (Some e), w)
    | None => let w' := set_now (w_now w + 1500) w in
              (Ok (first_recent w' g MemberBanAdd uid 60000), w')
    end.
Proof.
  intros H1 H2. unfold resolveBanEntry. rewrite (bindM_Ok _ _ _ _ _ (findRecent_run _ _ _ _ _ H1)).
  destruct (first_recent w g MemberBanAdd uid 60000); [done|].
  unfold wait, modifyM, bindM. by rewrite findRecent_run.
Qed.

(** C26. The retry tolerates up to 1.5 s of audit-trail lag.  An entry
    for the banned user that is not yet visible when the ban event
    arrives is still found.  It must be visible at the retry, among the
    five newest ban entries, and younger than 60 s then. *)
Theorem resolveBanEntry_tolerates_lag w g uid e :
  audit_ok w g -> audit_ok (set_now (w_now w + 1500) w) g ->
  e ∈ take 5 (visible_entries (set_now (w_now w + 1500) w) g MemberBanAdd) ->
  ae_target e = Some uid -> (w_now w + 1500 - ae_created e < 60000)%Z ->
  exists e' w', resolveBanEntry g uid w = (Ok (Some e'), w') /\ ae_target e' = Some uid.
Proof.
  intros H1 H2 He Ht Hc. rewrite resolveBanEntry_spec by done.
  destruct (first_recent w g MemberBanAdd uid 60000) as [e'|] eqn:E.
  - exists e', w. split; [done|]. by apply first_recent_sound in E as (_ & ? & _).
  - unfold first_recent. edestruct (find_exists (recent_target uid 60000 (w_now w + 1500))) as [y [Hy Hpy]];
      [exact He| |].
    + unfold recent_target. rewrite Ht. by rewrite !bool_decide_eq_true_2 by (done || lia).
    + eexists y, _. simpl. rewrite Hy. split; [done|].
      unfold recent_target in Hpy. apply andb_true_iff in Hpy as [Hpy _].
      by apply bool_decide_eq_true in Hpy.
Qed.

Local Open Scope string_scope.

Definition ban_entry := mkEntry MemberBanAdd (Some "222222") (Some "123456789") 0 1000.
Definition wlag := sample_world ∅ {["222222"]} [ban_entry].

Lemma resolveBanEntry_tolerates_lag_witness :
  exists e' w', resolveBanEntry "900000001" "222222" wlag = (Ok (Some e'), w') /\ ae_target e' = Some "222222".
Proof.
  apply (resolveBanEntry_tolerates_lag wlag "900000001" "222222" ban_entry); try reflexivity.
  vm_compute. left.
Defined.

End AuditLog.
