(* ===== verification/Engine.v ===== *)
(** * Engine: the enforcement handlers (lines 417-757)

    There is one definition per listener.  Each is composed the way the
    code composes it.
    - The feature guard [try { if (!FEATURES.x) return; } catch {}] comes
      first, outside the main [try].
    - The body runs inside [swallow] (the outer [try {} catch {}]).
    - Early returns are the [else] branches.
    - Every platform call may fail, as decided by the world's oracle.

    The handlers take the guild id from the event and read the live guild
    from the world.  That is what the discord.js cache object shares.
    Embeds are identified by their titles, without the emoji. *)

From S2P Require Import Prelude Text Store Features Baseline Platform AuditLog.
From Stdlib Require Import ZArith.
Import Text Store Features Baseline Platform AuditLog.

Module Engine.

Local Open Scope string_scope.

(** [addExecutorToBlacklist(guild, executorId, reason)] (lines 418-433) *)
Definition addExecutorToBlacklist (gd : Guild) (executorId : option string) : M World unit :=
  match executorId with
  | None => retM tt
  | Some id =>
      if bool_decide (id = "") then retM tt else
      let* prot := getsM (fun w => isProtectedId w gd id) in
      if prot then retM tt else
      let* whitelist := readSetM WHITELIST_FILE in
      if bool_decide (id ∈ whitelist) then retM tt else
      addIdsM BLACKLIST_FILE [id] ;;
      sendLog gd "Added to Blacklist"
  end.

(** The [try] around [guild.bans.remove] (lines 481-493): [true] when the
    ban was reversed and logged, [false] when the [catch] ran. *)
Definition tryUnban (gd : Guild) (uid : string) : M World bool :=
  tryCatch (call (EUnban (g_id gd) uid) ;; sendLog gd "Auto-Unbanned" ;; retM true)
           (sendLog gd "Failed to Unban" ;; retM false).

(** [client.on('guildBanAdd', ...)] (lines 435-498) *)
Definition onGuildBanAdd (g uid : string) : M World unit :=
  let* on := featureOn FBan in
  whenM on (swallow (withGuild g (fun gd =>
    if negb (has_perm gd ViewAuditLog) then retM tt else
    let* entry := resolveBanEntry g uid in
    match entry with
    | None => retM tt
    | Some e =>
      match ae_executor e with
      | None => retM tt
      | Some execId =>
        if bool_decide (execId = "") then retM tt else
        let* me := getsM w_bot in
        if bool_decide (execId = me) then retM tt else
        let* whitelist := readSetM WHITELIST_FILE in
        if bool_decide (execId ∈ whitelist) then retM tt else
        if negb (has_perm gd BanMembers) then sendLog gd "Ban Detected (cannot reverse)" else
        let* reversed := tryUnban gd uid in
        if reversed then addExecutorToBlacklist gd (Some execId) else retM tt
      end
    end))).

(** The body shared by [channelDelete] and the first [roleDelete]
    listener (lines 506-516 and 524-534): the first entry for the target,
    and only if it is younger than 15 s. *)
Definition blacklistDeleter (g target : string) (t : AuditType) : M World unit :=
  withGuild g (fun gd =>
    if negb (has_perm gd ViewAuditLog) then retM tt else
    let* logs := fetchAuditLogs g t in
    match List.find (is_target target) logs with
    | None => retM tt
    | Some e =>
        let* now := getsM w_now in
        if bool_decide (now - ae_created e < 15000)%Z
        then addExecutorToBlacklist gd (ae_executor e) else retM tt
    end).

(** [client.on('channelDelete', ...)] (lines 502-517) *)
Definition onChannelDelete (g cid : string) : M World unit :=
  let* on := featureOn FChannel in
  whenM on (swallow (blacklistDeleter g cid ChannelDelete)).

(** The first [roleDelete] listener (lines 520-535). *)
Definition onRoleDeleteBlacklist (g : string) (r : Role) : M World unit :=
  let* on := featureOn FRoleDelete in
  whenM on (swallow (blacklistDeleter g (r_id r) RoleDelete)).

(** The second [roleDelete] listener (lines 555-559), not feature-gated. *)
Definition onRoleDeleteSnapshot (g : string) (r : Role) : M World unit :=
  swallow (modifyM (set_roles (fun m => removeOriginalRoleState m g (r_id r)))).

(** Both listeners on one [roleDelete] event.  The first one awaits
    [fetchAuditLogs] before it changes anything, so the synchronous second
    listener has finished by then; the two touch disjoint state. *)
Definition onRoleDelete (g : string) (r : Role) : M World unit :=
  onRoleDeleteSnapshot g r ;; onRoleDeleteBlacklist g r.

(** [client.on('roleCreate', ...)] (lines 542-552) *)
Definition onRoleCreate (g : string) (r : Role) : M World unit :=
  swallow (withGuild g (fun gd =>
    modifyM (set_roles (fun m => setOriginalRoleState m g r)) ;;
    sendLog gd "Role Created (snapshotted)")).

(** Step 1 of [roleUpdate] (lines 576-583): its own [try {} catch {}]. *)
Definition roleUpdateExecutor (g rid : string) : M World (option string) :=
  tryCatch (let* entry := findRecent g RoleUpdate rid 15000 in
            retM (match entry with Some e => exec_id e | None => None end))
           (retM None).

(** [newRole] is the cached discord.js [Role].  [role.setPermissions]
    resolves through [role.edit], which patches the cached object with
    the server's answer, and [role.setPosition] through
    [GuildRolesPositionUpdate], which sets its position.  So after each
    awaited call the handler's [newRole] holds the reverted field. *)
Definition with_role_permissions (p : Z) (r : Role) : Role :=
  mkRole (r_id r) (r_name r) (r_position r) p.

Definition with_role_position (n : Z) (r : Role) : Role :=
  mkRole (r_id r) (r_name r) n (r_permissions r).

(** Step 4 (lines 619-642): the compensating writes inside
    [try { REVERTING_ROLES.add(id); ... } finally { REVERTING_ROLES.delete(id); }].
    It returns the handler's [newRole] as the two calls left it. *)
Definition revertRole (gd : Guild) (newRole : Role) (orig : Snap) (permChanged posChanged : bool)
  : M World Role :=
  tryFinally
    (modifyM (set_reverting (union {[r_id newRole]})) ;;
     let* r1 := (if permChanged then
                   call (ESetPermissions (g_id gd) (r_id newRole) (permissions orig)) ;;
                   retM (with_role_permissions (permissions orig) newRole)
                 else retM newRole) in
     let* r2 := (if posChanged then
                   call (ESetPosition (g_id gd) (r_id newRole) (position orig)) ;;
                   retM (with_role_position (position orig) r1)
                 else retM r1) in
     sendLog gd "Reverted Role Change" ;;
     retM r2)
    (modifyM (set_reverting (fun s => s ∖ {[r_id newRole]}))).

(** [client.on('roleUpdate', (oldRole, newRole) => ...)] (lines 567-655).
    [oldRole] is not read by the handler. *)
Definition onRoleUpdate (g : string) (newRole : Role) : M World unit :=
  let* on := featureOn FRoleUpdate in
  whenM on (swallow (withGuild g (fun gd =>
    if negb (has_perm gd ViewAuditLog) then retM tt else
    let* execId := roleUpdateExecutor g (r_id newRole) in
    let* accepted :=
      match execId with
      | Some x =>
          let* whitelist := readSetM WHITELIST_FILE in
          if bool_decide (x ∈ whitelist) then
            modifyM (set_roles (fun m => setOriginalRoleState m g newRole)) ;;
            sendLog gd "Whitelist Bypass: Role Change Accepted" ;;
            retM true
          else retM false
      | None => retM false
      end in
    if accepted then retM tt else
    let* orig := getsM (fun w => getOriginalRoleState (w_ORIGINAL_ROLE_STATE w) g (r_id newRole)) in
    match orig with
    | None => modifyM (set_roles (fun m => setOriginalRoleState m g newRole))
    | Some o =>
        let permChanged := negb (Z.eqb (r_permissions newRole) (permissions o)) in
        let posChanged := negb (Z.eqb (r_position newRole) (position o)) in
        if negb permChanged && negb posChanged then retM tt else
        let* live := revertRole gd newRole o permChanged posChanged in
        addExecutorToBlacklist gd execId ;;
        modifyM (set_roles (fun m => setOriginalRoleState m g live))
    end))).

(** [client.on('guildMemberRemove', ...)] (lines 659-706) *)
Definition onGuildMemberRemove (g uid : string) : M World unit :=
  let* on := featureOn FKick in
  whenM on (swallow (withGuild g (fun gd =>
    if negb (has_perm gd ViewAuditLog) then retM tt else
    let* entry := findRecent g MemberKick uid 15000 in
    match entry with
    | None => retM tt
    | Some e =>
        addExecutorToBlacklist gd (ae_executor e) ;;
        tryCatch (call (EDM uid)) (retM tt) ;;
        sendLog gd "Kick Detected -> Kicker Blacklisted"
    end))).

(** [client.on('guildMemberAdd', ...)] (lines 709-757) *)
Definition onGuildMemberAdd (g uid : string) (is_bot : bool) : M World unit :=
  let* on := featureOn FBotadd in
  whenM on (swallow (
    if negb is_bot then retM tt else
    withGuild g (fun gd =>
      if negb (has_perm gd ViewAuditLog) then retM tt else
      let* whitelist := readSetM WHITELIST_FILE in
      if bool_decide (uid ∈ whitelist) then retM tt else
      let* entry := findRecent g BotAdd uid 15000 in
      let execId := match entry with Some e => exec_id e | None => None end in
      tryCatch (let* prot := getsM (fun w => isProtectedId w gd uid) in
                whenM (negb prot) (call (EKick g uid)))
               (retM tt) ;;
      addIdsM BLACKLIST_FILE [uid] ;;
      sendLog gd "Bot Added -> Kicked & Blacklisted" ;;
      match execId with
      | Some x =>
          let* prot := getsM (fun w => isProtectedId w gd x) in
          whenM (negb prot) (addExecutorToBlacklist gd (Some x))
      | None => retM tt
      end))).

(** ** The role-update handler's outcome *)

(** The executor [roleUpdate] attributes a change of role [rid] to, in a
    world where the audit fetch succeeds. *)
Definition role_executor (w : World) (g rid : string) : option string :=
  match first_recent w g RoleUpdate rid 15000 with Some e => exec_id e | None => None end.

(** The compensating calls of step 4 for a baseline [o]. *)
Definition revert_calls (g : string) (nr : Role) (o : Snap) : list Effect :=
  ((if negb (Z.eqb (r_permissions nr) (permissions o))
    then [ESetPermissions g (r_id nr) (permissions o)] else []) ++
   (if negb (Z.eqb (r_position nr) (position o))
    then [ESetPosition g (r_id nr) (position o)] else []))%list.

(** ** Symbolic execution *)

(** [wp_go] walks a handler backwards through the weakest-precondition
    rules of the combinators and of the primitive steps, and splits on
    the [if]s and [match]es it meets. *)
Ltac wp_go :=
  repeat first
    [ wp_step
    | apply wp_call | apply wp_readSetM | apply wp_addIdsM | apply wp_featureOn
    | apply wp_withGuild | apply wp_wait | apply wp_fetchAuditLogs | apply wp_findRecent
    | apply wp_resolveBanEntry
    | apply wp_sendLog; intros ?r ?w ?Hlog ?Hok
    | progress cbv beta iota
    | match goal with
      | |- if _ then _ else _ => case_match
      | |- match _ with _ => _ end => case_match
      | |- wp (match _ with _ => _ end) _ _ => case_match
      end ].


(** ** The deny-list helper *)

Lemma deny_set_fs_add w id :
  deny (set_fs (fun fs => snd (addIds BLACKLIST_FILE [id] fs)) w) =
  add_valid (deny w) [id].
Proof. unfold deny, set_fs. cbn [w_fs]. rewrite readSet_addIds. reflexivity. Qed.

Lemma allow_set_fs_add w id :
  allow (set_fs (fun fs => snd (addIds BLACKLIST_FILE [id] fs)) w) = allow w.
Proof. unfold allow, set_fs. cbn [w_fs]. unfold addIds. by apply readSet_writeSet_other. Qed.

Lemma log_post_deny w w' : log_post w w' -> deny w' = deny w /\ allow w' = allow w.
Proof. intros (_ & _ & P & _). unfold proc in P. unfold deny, allow. split; congruence. Qed.

(** [addExecutorToBlacklist] either only sends, or adds one unprotected,
    non-allow-listed id to the deny-list and then only sends. *)
Lemma wp_addExecutorToBlacklist gd x Q w :
  (forall r w', log_post w w' -> (quiet w -> r = Ok tt) ->
     (forall id, x = Some id -> id = "" \/ isProtectedId w gd id = true \/ id ∈ allow w) ->
     Q r w') ->
  (forall id r w', x = Some id -> isProtectedId w gd id = false -> id ∉ allow w ->
     log_post (set_fs (fun fs => snd (addIds BLACKLIST_FILE [id] fs)) w) w' ->
     (quiet w -> r = Ok tt) -> Q r w') ->
  wp (addExecutorToBlacklist gd x) Q w.
Proof.
  intros H1 H2. unfold addExecutorToBlacklist.
  destruct x as [x|]; wp_go;
    try (apply H1; [apply log_post_refl | done | intros ? [= <-]]);
    repeat match goal with H : bool_decide _ = true |- _ => apply bool_decide_eq_true in H end;
    unfold allow; try tauto.
  eapply H2; [done | done | unfold allow; by eapply bool_decide_eq_false_1 | done | exact Hok].
Qed.

(** ** The deny-list helper is safe *)

(** C12. [addExecutorToBlacklist] adds at most its argument to the
    deny-list.  It adds it only when it is a valid id that is neither the
    owner, nor the bot, nor allow-listed.  It changes nothing but the
    deny-list and the trace of log embeds. *)
Theorem addExecutorToBlacklist_safe gd x w id :
  id ∈ deny (final (addExecutorToBlacklist gd x) w) ->
  id ∈ deny w \/
  (x = Some id /\ isProtectedId w gd id = false /\ (id ∉ allow w) /\ is_snowflake id = true).
Proof.
  apply wp_final, wp_addExecutorToBlacklist.
  - intros _ w' Hl _ _. destruct (log_post_deny _ _ Hl) as [-> _]. by left.
  - intros y _ w' -> Hp Ha Hl _ Hid. destruct (log_post_deny _ _ Hl) as [Hd _].
    rewrite Hd, deny_set_fs_add in Hid.
    apply elem_of_add_valid in Hid as [Hid|[Hid Hsf]]; [by left|right].
    by apply list_elem_of_singleton in Hid as ->.
Qed.

Lemma addExecutorToBlacklist_safe_witness :
  "123456789" ∈ deny (sample_world {[BLACKLIST_FILE := "111" +:+ String Text.LF ""]} ∅ []) \/
  (Some "123456789" = Some "123456789" /\ isProtectedId (sample_world {[BLACKLIST_FILE := "111" +:+ String Text.LF ""]} ∅ []) (sample_guild {["111"; "222222"]} []) "123456789" = false /\
   ("123456789" ∉ allow (sample_world {[BLACKLIST_FILE := "111" +:+ String Text.LF ""]} ∅ [])) /\ is_snowflake "123456789" = true).
Proof.
  apply (addExecutorToBlacklist_safe (sample_guild _ _) (Some "123456789") (sample_world {[BLACKLIST_FILE := "111" +:+ String Text.LF ""]} ∅ [])).
  apply (bool_decide_unpack _). vm_compute. reflexivity.
Defined.

(** Step 1 of [roleUpdate]: the executor of a successful fetch, and
    [null] when the fetch rejects. *)
Lemma wp_roleUpdateExecutor g rid Q w :
  Q (Ok (if w_fails w (w_now w) (CFetchAudit g) then None else role_executor w g rid)) w ->
  wp (roleUpdateExecutor g rid) Q w.
Proof.
  unfold roleUpdateExecutor, role_executor. intros H. by wp_go.
Qed.

(** Step 4 of [roleUpdate]: the [finally] always removes the role from
    [REVERTING_ROLES]; the compensating calls made are a prefix of
    [revert_calls], all of them when the step returns normally, and the
    role it returns then has the baseline's snapshot; nothing but the
    trace and the platform changes otherwise. *)
Lemma wp_revertRole gd nr o Q w :
  (forall r w',
     (exists done, actions w' = (actions w ++ done)%list /\
        done `prefix_of` revert_calls (g_id gd) nr o /\
        (forall x, r = Ok x -> done = revert_calls (g_id gd) nr o /\ snap_of x = o /\ r_id x = r_id nr) /\
        (negb (Z.eqb (r_permissions nr) (permissions o)) = true ->
         w_fails w (w_now w) (CEffect (ESetPermissions (g_id gd) (r_id nr) (permissions o))) = true ->
         r = Exn /\ done = [])) ->
     w_REVERTING_ROLES w' = w_REVERTING_ROLES w ∖ {[r_id nr]} ->
     w_fs w' = w_fs w -> w_ORIGINAL_ROLE_STATE w' = w_ORIGINAL_ROLE_STATE w ->
     w_FEATURES w' = w_FEATURES w -> w_fails w' = w_fails w -> w_now w' = w_now w ->
     w_bot w' = w_bot w -> (quiet w -> exists x, r = Ok x) ->
     Q r w') ->
  wp (revertRole gd nr o (negb (Z.eqb (r_permissions nr) (permissions o)))
                       (negb (Z.eqb (r_position nr) (position o)))) Q w.
Proof.
  intros HQ. unfold revertRole. wp_go; world_simpl.
  all: apply HQ; world_simpl; try reflexivity; try (match goal with |- _ ∖ _ = _ => set_solver end).
  all: try (intros _; eexists; reflexivity).
  all: try (intros Hq; exfalso; rewrite Hq in *; discriminate).
  all: try (intros Hq; exfalso; enough (Exn = Ok tt) by discriminate;
            apply Hok, (quiet_fails w); [world_simpl; reflexivity | exact Hq]).
  all: rewrite <- ?app_assoc, ?app_nil_r; eexists; (split; [first [reflexivity | symmetry; apply app_nil_r]|]).
  all: unfold revert_calls; repeat match goal with H : negb _ = _ |- context [if negb ?x then _ else _] => rewrite H end.
  all: cbn [app]; split; [try apply prefix_cons; try apply prefix_nil; try reflexivity | split; intros; simplify_eq; try done].
  all: try (split; [done|]; split; [|reflexivity]; destruct o; unfold snap_of, with_role_position, with_role_permissions in *; cbn in *;
            repeat match goal with H : negb _ = false |- _ => apply negb_false_iff, Z.eqb_eq in H end; congruence).
  all: congruence.
Qed.

(** [wp_run] is [wp_go] that also steps over [addExecutorToBlacklist]
    with the two outcomes of [wp_addExecutorToBlacklist]. *)
Ltac wp_run :=
  repeat first
    [ apply wp_roleUpdateExecutor
    | apply wp_revertRole; intros ?r ?w [?done (?Ra & ?Rp & ?Rok & ?Rfail)] ?Rv ?Rf ?Ro ?Rfe ?Rfa ?Rn ?Rb ?Rq
    | progress wp_go
    | apply wp_addExecutorToBlacklist;
        [intros ?r ?w ?Hlog ?Hok ?Hskip | intros ?id ?r ?w ?Hxe ?Hprot ?Hallow ?Hlog ?Hok] ].

(** [use_quiet Hq] discharges the [quiet] premises of the log steps from
    [Hq : quiet w], since no step changes the failure oracle. *)
Ltac use_quiet Hq :=
  repeat match goal with
  | H : quiet ?x -> _ |- _ => specialize (H (quiet_fails _ x ltac:(world_simpl; reflexivity) Hq))
  end.

(** Both comparisons of step 3 say "unchanged" exactly when the role's
    snapshot is the baseline. *)
Lemma snap_unchanged nr o :
  negb (negb (r_permissions nr =? permissions o)%Z) && negb (negb (r_position nr =? position o)%Z) = true <->
  snap_of nr = o.
Proof.
  rewrite !negb_involutive, andb_true_iff, !Z.eqb_eq. destruct o as [p q]. unfold snap_of. simpl.
  split; [intros [-> ->]; done | intros Heq; by injection Heq].
Qed.

(** [prim_steps frame extra] closes the primitive steps of a handler for
    a preorder whose frame lemma is [frame]; [extra] closes the steps
    that change the process state. *)
Ltac prim_steps frame extra :=
  repeat first
    [ progress steps_auto
    | apply (steps_call _ frame) | apply (steps_sendLog _ frame) | apply (steps_wait _ frame)
    | apply (steps_resolveBanEntry _ frame)
    | apply steps_readSetM | apply steps_featureOn | apply steps_withGuild | apply steps_getLogChannel
    | apply steps_fetchAuditLogs | apply steps_findRecent | apply steps_fetchMember
    | extra ].

End Engine.
