(* ===== verification/Enforcer.v ===== *)
(** * Enforcer: the deny-list sweep (lines 362-407)

    [enforce] runs every second.  It reads the deny-list and the
    allow-list once.  Then, for every guild and every deny-listed id, it
    skips allow-listed and protected ids.  It looks the id up with
    [guild.members.fetch(id)], skipping it when the fetch rejects, and
    bans it if it is a member.  Every failure is swallowed.

    The model keeps no member cache separate from the server's member
    set: a cached member is found as a fetch that succeeds.  A second
    tick that sees a banned member still in a stale cache is therefore
    not modelled, and no idempotence of the sweep is claimed.

    Main results:
    - [sweep_removes_exactly]: when bans and member fetches succeed, one
      tick removes exactly the deny-listed, non-allow-listed,
      non-protected members.
    - [sweep_bans_only_targets]: whatever fails, the sweep bans no
      allow-listed or protected id and no id outside the deny-list. *)

From S2P Require Import Prelude Text Store Features Baseline Platform.
From Stdlib Require Import ZArith.
Import Text Store Features Baseline Platform.

Module Enforcer.

(** [let member = guild.members.cache.get(id); if (!member) { try { member
    = await guild.members.fetch(id) } catch { member = null } }] (lines
    375-383).  The model keeps no separate member cache: the lookup is the
    fetch, which finds a member of the guild unless the platform rejects
    it (an uncached member whose fetch fails), and a rejection is a skip. *)
Definition lookupMember (g id : string) : M World bool :=
  tryCatch (fetchMember g id ;; retM true) (retM false).

(** One iteration of [for (const id of black)] in one guild (lines 370-399). *)
Definition enforceMember (white : list string) (gd : Guild) (id : string) : M World unit :=
  if bool_decide (id ∈ white) then retM tt else
  let* prot := getsM (fun w => isProtectedId w gd id) in
  if prot then retM tt else
  let* present := lookupMember (g_id gd) id in
  if negb present then retM tt else
  tryCatch (call (EBan (g_id gd) id) ;;
            sendLog gd "Auto-Banned (blacklist - present)"%string)
           (retM tt).

Definition enforceGuild (black white : list string) (gd : Guild) : M World unit :=
  forM_ black (enforceMember white gd).

(** [enforce] *)
Definition enforce : M World unit :=
  swallow (let* black := readSetM BLACKLIST_FILE in
           let* white := readSetM WHITELIST_FILE in
           let* gs := getsM w_guilds in
           forM_ gs (enforceGuild black white)).

(** ** Vocabulary of the theorems *)


(** The ids one tick must remove from a guild. *)
Definition targets (w : World) (gd : Guild) : gset string :=
  list_to_set (filter (fun id => (id ∉ allow w) /\ isProtectedId w gd id = false) (deny w)).

(** Every ban call and every member fetch succeeds, whenever it is made. *)
Definition sweep_calls_succeed (w : World) : Prop :=
  forall t g id, w_fails w t (CEffect (EBan g id)) = false /\ w_fails w t (CFetchMember g id) = false.

(** Guild ids are unique in [client.guilds.cache]. *)
Definition guilds_wf (w : World) : Prop := NoDup (map g_id (w_guilds w)).

(** The ids the loop over [gs] removes from guild [g']. *)
Definition removed_from (w : World) (black white : list string) (gs : list Guild) (g' : string) : gset string :=
  ⋃ (map (fun gd => if decide (g' = g_id gd)
                    then list_to_set (filter (fun id => (id ∉ white) /\ isProtectedId w gd id = false) black)
                    else ∅) gs).

(** The effects one tick may have, relative to the world it started in. *)
Definition sweep_effect (w : World) (e : Effect) : Prop :=
  match e with
  | EBan g id => id ∈ deny w /\ (id ∉ allow w) /\
                 exists gd, gd ∈ w_guilds w /\ g = g_id gd /\ isProtectedId w gd id = false
  | ESend _ _ => True
  | _ => False
  end.

Definition w111 := sample_world {[BLACKLIST_FILE := "111" +:+ String Text.LF ""]} {["111"; "222222"]} [].

Lemma is_member_members_of w g id : is_member w g id = bool_decide (id ∈ members_of w g).
Proof. unfold is_member, members_of. destruct (guild_of w g); [done|]. by rewrite bool_decide_eq_false_2 by set_solver. Qed.

(** The lookup finds a member unless the fetch is rejected; it never throws. *)
Lemma lookupMember_run g id w :
  lookupMember g id w = (Ok (is_member w g id && negb (w_fails w (w_now w) (CFetchMember g id))), w).
Proof. unfold lookupMember, tryCatch, fetchMember, bindM. by destruct (_ && _). Qed.

Lemma bans_succeed_fixed w w' : fixed w' = fixed w -> sweep_calls_succeed w -> sweep_calls_succeed w'.
Proof. unfold fixed, sweep_calls_succeed. intros [= _ _ ->]. done. Qed.

Lemma protected_fixed w w' : fixed w' = fixed w -> isProtectedId w' = isProtectedId w.
Proof. unfold fixed, isProtectedId. intros [= -> _ _]. done. Qed.

(** The ban-and-log block after the guards: what it leaves behind. *)
Lemma ban_block_frame gd id w :
  let w' := snd (tryCatch (call (EBan (g_id gd) id) ;; sendLog gd "Auto-Banned (blacklist - present)"%string) (retM tt) w) in
  proc w' = proc w /\ fixed w' = fixed w /\ w_now w' = w_now w /\
  map statics (w_guilds w') = map statics (w_guilds w) /\
  (forall g', members_of w' g' =
     if w_fails w (w_now w) (CEffect (EBan (g_id gd) id)) then members_of w g'
     else members_of (perform (EBan (g_id gd) id) w) g').
Proof.
  unfold tryCatch, bindM. rewrite call_run.
  destruct (w_fails w (w_now w) (CEffect (EBan (g_id gd) id))); [done|].
  destruct (perform_fixed (EBan (g_id gd) id) w) as [Hf Hn].
  pose proof (perform_proc (EBan (g_id gd) id) w) as Hp.
  destruct (sendLog_frame gd "Auto-Banned (blacklist - present)"%string (perform (EBan (g_id gd) id) w))
    as (Hg & Hp' & Hf' & Hn').
  pose proof (perform_statics (EBan (g_id gd) id) w) as Hs.
  destruct (sendLog _ _ _) as [[] w''] eqn:E; simpl in *;
    (split; [congruence|]; split; [congruence|]; split; [congruence|]; split; [congruence|]);
    intros g'; unfold members_of, guild_of; by rewrite Hg.
Qed.

Lemma enforceMember_frame white gd id w :
  let w' := snd (enforceMember white gd id w) in
  proc w' = proc w /\ fixed w' = fixed w /\ w_now w' = w_now w /\
  map statics (w_guilds w') = map statics (w_guilds w).
Proof.
  unfold enforceMember. case_bool_decide; [done|].
  unfold bindM, getM, getsM. destruct (isProtectedId w gd id); [done|].
  rewrite lookupMember_run. destruct (negb (_ && _)); [done|].
  destruct (ban_block_frame gd id w) as (? & ? & ? & ? & _). done.
Qed.

(** One iteration removes the id from the guild exactly when it is a
    sweep target there. *)
Lemma enforceMember_members white gd id w g' :
  sweep_calls_succeed w ->
  members_of (snd (enforceMember white gd id w)) g' =
  if decide (g' = g_id gd /\ (id ∉ white) /\ isProtectedId w gd id = false)
  then members_of w g' ∖ {[id]} else members_of w g'.
Proof.
  intros Hb. unfold enforceMember. case_bool_decide as Hw.
  { rewrite decide_False by naive_solver. done. }
  unfold bindM, getM, getsM. destruct (isProtectedId w gd id) eqn:Hp.
  { rewrite decide_False by naive_solver. done. }
  rewrite lookupMember_run, (proj2 (Hb _ _ _)), andb_true_r.
  destruct (negb (is_member w (g_id gd) id)) eqn:Hm; simpl.
  - rewrite is_member_members_of in Hm. apply negb_true_iff, bool_decide_eq_false in Hm.
    case_decide as Hd; [|done]. destruct Hd as [-> _]. set_solver.
  - destruct (ban_block_frame gd id w) as (_ & _ & _ & _ & ->). rewrite (proj1 (Hb _ _ _)).
    rewrite members_of_perform. repeat case_decide; naive_solver.
Qed.

Lemma enforceMember_ok white gd id w : fst (enforceMember white gd id w) = Ok tt.
Proof.
  unfold enforceMember. case_bool_decide; [done|]. unfold bindM, getM, getsM.
  destruct (isProtectedId w gd id); [done|]. rewrite lookupMember_run. destruct (negb _); [done|].
  unfold tryCatch. repeat case_match; simpl; repeat match goal with u : unit |- _ => destruct u end; done.
Qed.

Lemma enforceGuild_frame black white gd w :
  let w' := snd (enforceGuild black white gd w) in
  proc w' = proc w /\ fixed w' = fixed w /\ w_now w' = w_now w /\
  map statics (w_guilds w') = map statics (w_guilds w).
Proof.
  unfold enforceGuild. revert w. induction black as [|id black IH]; intros w; [done|].
  cbn [forM_]. rewrite (snd_bindM_Ok _ _ _ tt) by apply enforceMember_ok.
  destruct (enforceMember_frame white gd id w) as (H1 & H2 & H3 & H4).
  destruct (IH (snd (enforceMember white gd id w))) as (H5 & H6 & H7 & H8).
  split; [congruence|]. split; [congruence|]. split; congruence.
Qed.

(** One guild's loop removes exactly its targets from that guild. *)
Lemma enforceGuild_members black white gd w g' :
  sweep_calls_succeed w ->
  members_of (snd (enforceGuild black white gd w)) g' =
  if decide (g' = g_id gd)
  then members_of w g' ∖ list_to_set (filter (fun id => (id ∉ white) /\ isProtectedId w gd id = false) black)
  else members_of w g'.
Proof.
  revert w. induction black as [|id black IH]; intros w Hb.
  - simpl. case_decide; [|done]. by rewrite difference_empty_L.
  - unfold enforceGuild. cbn [forM_]. rewrite (snd_bindM_Ok _ _ _ tt) by apply enforceMember_ok.
    destruct (enforceMember_frame white gd id w) as (_ & Hf & _ & _).
    fold (enforceGuild black white gd). rewrite IH by (by eapply bans_succeed_fixed).
    rewrite (enforceMember_members _ _ _ _ _ Hb). rewrite (protected_fixed _ _ Hf).
    rewrite filter_cons. repeat case_decide; simpl; set_solver.
Qed.

Lemma enforceGuild_ok black white gd w : fst (enforceGuild black white gd w) = Ok tt.
Proof. apply forM_ok. intros. apply enforceMember_ok. Qed.

Lemma enforce_final w :
  final enforce w = snd (forM_ (w_guilds w) (enforceGuild (deny w) (allow w)) w).
Proof. unfold enforce. unfold final at 1. rewrite swallow_final. reflexivity. Qed.

Lemma forM_guilds_frame gs black white w :
  let w' := snd (forM_ gs (enforceGuild black white) w) in
  proc w' = proc w /\ fixed w' = fixed w /\ map statics (w_guilds w') = map statics (w_guilds w).
Proof.
  revert w. induction gs as [|gd gs IH]; intros w; [done|].
  cbn [forM_]. rewrite (snd_bindM_Ok _ _ _ tt) by apply enforceGuild_ok.
  destruct (enforceGuild_frame black white gd w) as (H1 & H2 & _ & H3).
  destruct (IH (snd (enforceGuild black white gd w))) as (H4 & H5 & H6).
  split; [congruence|]. split; congruence.
Qed.

Lemma forM_guilds_members gs black white w g' :
  sweep_calls_succeed w ->
  members_of (snd (forM_ gs (enforceGuild black white) w)) g' =
  members_of w g' ∖ removed_from w black white gs g'.
Proof.
  unfold removed_from. revert w. induction gs as [|gd gs IH]; intros w Hb.
  - simpl. by rewrite difference_empty_L.
  - cbn [forM_]. rewrite (snd_bindM_Ok _ _ _ tt) by apply enforceGuild_ok.
    destruct (enforceGuild_frame black white gd w) as (_ & Hf & _ & _).
    rewrite IH by (by eapply bans_succeed_fixed).
    rewrite (enforceGuild_members _ _ _ _ _ Hb), (protected_fixed _ _ Hf).
    simpl. case_decide; set_solver.
Qed.

Lemma removed_from_notin w black white gs g' :
  g' ∉ map g_id gs -> removed_from w black white gs g' = ∅.
Proof.
  unfold removed_from. induction gs as [|gd gs IH]; intros Hn; [done|]. simpl in *.
  rewrite decide_False by set_solver. rewrite IH by set_solver. apply union_empty_l_L.
Qed.

Lemma removed_from_single w black white gs gd :
  NoDup (map g_id gs) -> gd ∈ gs ->
  removed_from w black white gs (g_id gd) =
  list_to_set (filter (fun id => (id ∉ white) /\ isProtectedId w gd id = false) black).
Proof.
  induction gs as [|gd' gs IH]; intros Hnd Hin; [set_solver|].
  simpl in Hnd. apply NoDup_cons in Hnd as [Hnin Hnd].
  pose proof (removed_from_notin w black white gs (g_id gd')) as Hnone.
  unfold removed_from in *. simpl.
  apply elem_of_cons in Hin as [->|Hin].
  - rewrite decide_True, Hnone by done. apply union_empty_r_L.
  - rewrite decide_False.
    + rewrite IH by done. apply union_empty_l_L.
    + intros Heq. apply Hnin. rewrite <-Heq. by apply list_elem_of_fmap_2.
Qed.

(** C7. One tick of the sweep removes from each guild exactly the members
    that are deny-listed, not allow-listed and not protected there.  Every
    other member stays.  It assumes the ban calls and the member fetches
    succeed, and that guild ids are unique.  A rejected fetch of an
    uncached member (lines 377-381) skips that member for this tick. *)
Theorem sweep_removes_exactly w gd :
  sweep_calls_succeed w -> guilds_wf w -> gd ∈ w_guilds w ->
  members_of (final enforce w) (g_id gd) = members_of w (g_id gd) ∖ targets w gd.
Proof.
  intros Hb Hwf Hin. rewrite enforce_final, forM_guilds_members by done.
  by rewrite removed_from_single.
Qed.

(** ** Safety *)

Lemma enforceMember_trace white gd id w :
  trace_ext (fun e => (e = EBan (g_id gd) id /\ (id ∉ white) /\ isProtectedId w gd id = false) \/ is_send e)
    w (snd (enforceMember white gd id w)).
Proof.
  unfold enforceMember. case_bool_decide; [apply trace_ext_refl|].
  unfold bindM, getM, getsM. destruct (isProtectedId w gd id) eqn:Hp; [apply trace_ext_refl|].
  rewrite lookupMember_run. destruct (negb _); [apply trace_ext_refl|].
  unfold tryCatch, bindM. rewrite call_run.
  destruct (w_fails w (w_now w) (CEffect (EBan (g_id gd) id))); [apply trace_ext_refl|].
  assert (Hext : trace_ext (fun e => (e = EBan (g_id gd) id /\ (id ∉ white) /\ isProtectedId w gd id = false) \/ is_send e)
            w (snd (sendLog gd "Auto-Banned (blacklist - present)"%string (perform (EBan (g_id gd) id) w)))).
  { apply (trace_ext_trans _ _ (perform (EBan (g_id gd) id) w)).
    - apply trace_ext_perform. by left.
    - eapply trace_ext_mono, sendLog_trace. by right. }
  cbv beta iota.
  destruct (sendLog gd "Auto-Banned (blacklist - present)"%string (perform (EBan (g_id gd) id) w))
    as [[] w'] eqn:E; simpl in Hext |- *; rewrite Hp in Hext; exact Hext.
Qed.

Lemma enforceGuild_trace black white gd w :
  trace_ext (fun e => (exists id, id ∈ black /\ e = EBan (g_id gd) id /\ (id ∉ white) /\
                                  isProtectedId w gd id = false) \/ is_send e)
    w (snd (enforceGuild black white gd w)).
Proof.
  unfold enforceGuild. revert w. induction black as [|id black IHb]; intros w;
    [apply trace_ext_refl|].
  cbn [forM_]. rewrite (snd_bindM_Ok _ _ _ tt) by apply enforceMember_ok.
  destruct (enforceMember_frame white gd id w) as (_ & Hf & _ & _).
  apply (trace_ext_trans _ _ (snd (enforceMember white gd id w))).
  - eapply trace_ext_mono, enforceMember_trace. intros e [(-> & ? & ?)|?]; [|by right].
    left. exists id. set_solver.
  - eapply trace_ext_mono, IHb. rewrite (protected_fixed _ _ Hf).
    intros e [(id' & ?)|?]; [|by right]. left. exists id'. set_solver.
Qed.

Lemma forM_guilds_trace gs black white w :
  trace_ext (fun e => (exists gd id, gd ∈ gs /\ id ∈ black /\ e = EBan (g_id gd) id /\ (id ∉ white) /\
                                     isProtectedId w gd id = false) \/ is_send e)
    w (snd (forM_ gs (enforceGuild black white) w)).
Proof.
  revert w. induction gs as [|gd gs IHg]; intros w; [apply trace_ext_refl|].
  cbn [forM_]. rewrite (snd_bindM_Ok _ _ _ tt) by apply enforceGuild_ok.
  destruct (enforceGuild_frame black white gd w) as (_ & Hf & _ & _).
  apply (trace_ext_trans _ _ (snd (enforceGuild black white gd w))).
  - eapply trace_ext_mono, enforceGuild_trace.
    intros e [(id & ?)|?]; [|by right]. left. exists gd, id. set_solver.
  - eapply trace_ext_mono, IHg. rewrite (protected_fixed _ _ Hf).
    intros e [(gd' & id' & ?)|?]; [|by right]. left. exists gd', id'. set_solver.
Qed.

(** C8. Safety of the sweep, whatever fails: one tick only bans and
    logs.  Every ban is of a deny-listed id that is neither allow-listed
    nor protected in that guild.  This holds even if the deny-list file
    holds the owner's or the bot's own id (allow-list precedence and the
    protected-identifier invariant of spec §8). *)
Theorem sweep_bans_only_targets w :
  trace_ext (sweep_effect w) w (final enforce w).
Proof.
  unfold final at 1, enforce. rewrite swallow_final. unfold final, bindM, readSetM, getsM. cbn [fst snd].
  eapply trace_ext_mono, forM_guilds_trace.
  intros e [(gd & id & Hgd & Hid & -> & Hw & Hp)|Hs].
  - simpl. split; [done|]. split; [done|]. by exists gd.
  - by destruct e.
Qed.

Lemma sweep_removes_exactly_witness :
  members_of (final enforce w111) "900000001" =
  members_of w111 "900000001" ∖ targets w111 (sample_guild {["111"; "222222"]} []).
Proof.
  apply (sweep_removes_exactly w111 (sample_guild _ _)).
  - intros ???. split; reflexivity.
  - apply (bool_decide_unpack _). vm_compute. reflexivity.
  - simpl. left.
Defined.

End Enforcer.
