(* ===== verification/EventLoop.v ===== *)
(** * EventLoop: startup, dispatch and the process's runs

    [client.once('ready')] (lines 320-412) and the dispatch of gateway
    events to the listeners of lines 435-757.  A run of the process is a
    sequence of steps:
    - the next queued gateway event is dispatched to its listeners,
      which run to completion before the next event (the listeners await
      only platform calls, and the platform's answers are part of the
      world, so one event's handlers are one atomic step);
    - the sweep's timer fires ([setInterval(enforce, 1000)]);
    - time passes.
    The queue holds the events the bot's own calls cause, in order, so
    the feedback of the bot's actions on itself is part of a run. *)

From S2P Require Import Prelude Text Store Features Baseline Platform AuditLog Engine Enforcer.
From Stdlib Require Import ZArith.
Import Text Store Features Baseline Platform AuditLog Engine Enforcer.

Module EventLoop.

Local Open Scope string_scope.

(** ** Startup *)

(** [for (const [, g] of client.guilds.cache) { LOG_CHAN_OBJ = await getLogChannel(g, null); if (LOG_CHAN_OBJ) break; }] *)
Fixpoint pickLogChannel (gs : list Guild) : M World unit :=
  match gs with
  | [] => retM tt
  | gd :: gs' =>
      let* c := getLogChannel gd None in
      modifyM (set_logchan c) ;;
      match c with Some _ => retM tt | None => pickLogChannel gs' end
  end.

(** [await guild.roles.fetch()] *)
Definition fetchRoles (g : string) : M World unit :=
  fun w => if w_fails w (w_now w) (CFetchRoles g) then (Exn, w) else (Ok tt, w).

(** The roles of [guild.roles.cache]. *)
Definition cached_roles (w : World) (g : string) : list Role :=
  match guild_of w g with Some gd => map snd (map_to_list (g_roles gd)) | None => [] end.

(** [snapshotGuildRoles(guild)] (lines 150-164) with its own [try/catch]. *)
Definition snapshotGuildRolesM (gd : Guild) : M World unit :=
  tryCatch (fetchRoles (g_id gd) ;;
            let* roles := getsM (fun w => cached_roles w (g_id gd)) in
            modifyM (set_roles (fun m => snapshotGuildRoles m (g_id gd) roles)))
           (retM tt).

(** [await loadFeatures()]: the parsed [features.json], or the defaults
    written back when it is missing or not JSON. *)
Definition loadFeaturesM : M World unit :=
  modifyM (fun w => let '(F, file) := loadFeatures (w_features_file w) in set_features F file w).

(** The startup sequence of [ready]: the log channel, the role
    baselines of every guild, the feature flags and their notice.  The
    vouch ticker it starts is not modelled; the sweep's timer is the
    [step_tick] rule. *)
Definition onReady : M World unit :=
  let* gs := getsM w_guilds in
  swallow (pickLogChannel gs) ;;
  swallow (forM_ gs snapshotGuildRolesM) ;;
  swallow (loadFeaturesM ;;
           match gs with
           | gd :: _ => sendLog gd "Feature Flags Loaded"
           | [] => retM tt
           end).

(** ** Dispatch *)

(** The listeners of one gateway event, in registration order. *)
Definition handle (ev : Event) : M World unit :=
  match ev with
  | EvBanAdd g uid => onGuildBanAdd g uid
  | EvChannelDelete g cid _ => onChannelDelete g cid
  | EvRoleDelete g r => onRoleDelete g r
  | EvRoleCreate g r => onRoleCreate g r
  | EvRoleUpdate g _ newr => onRoleUpdate g newr
  | EvMemberRemove g uid => onGuildMemberRemove g uid
  | EvMemberAdd g uid b => onGuildMemberAdd g uid b
  | EvTick => enforce
  end.

(** One step of the process. *)
Inductive step : World -> World -> Prop :=
| step_event w ev rest :
    w_pending w = ev :: rest -> step w (final (handle ev) (set_pending rest w))
| step_tick w : step w (final enforce w)
| step_time w t : (w_now w <= t)%Z -> step w (set_now t w).

(** Dispatching the queued events in order, [fuel] of them at most. *)
Fixpoint drain (fuel : nat) (w : World) : World :=
  match fuel with
  | O => w
  | S n =>
      match w_pending w with
      | [] => w
      | ev :: rest => drain n (final (handle ev) (set_pending rest w))
      end
  end.

(** ** Runs *)

Lemma drain_steps n w : rtc step w (drain n w).
Proof.
  revert w. induction n as [|n IH]; intros w; simpl; [done|].
  destruct (w_pending w) as [|ev rest] eqn:E; [done|].
  eapply rtc_l; [by apply step_event | apply IH].
Qed.

(** A preorder on worlds that every handler's run respects, that the
    queue and the clock do not affect, holds along every run. *)
Lemma rtc_step_preorder (R : World -> World -> Prop) `{!PreOrder R} :
  (forall ev, steps R (handle ev)) ->
  (forall w p, R w (set_pending p w)) -> (forall w t, R w (set_now t w)) ->
  forall w w', rtc step w w' -> R w w'.
Proof.
  intros Hh Hp Ht w w' Hr. induction Hr as [w|w1 w2 w3 Hs _ IH]; [reflexivity|].
  etrans; [|exact IH]. destruct Hs as [w ev rest _|w|w t _].
  - etrans; [apply Hp | apply Hh].
  - apply (Hh EvTick).
  - apply Ht.
Qed.

End EventLoop.
