(* ===== verification/AllowList.v ===== *)
(** * AllowList: allow-list precedence in every handler

    [deny_safe w w'] relates two worlds when the allow-list is unchanged
    and every id that is on the deny-list of [w'] was on it in [w] or is a
    valid id that is not allow-listed in [w].  It is a preorder.  Every
    listener of lines 435-757 relates its start and end worlds by it,
    whatever the platform answers: this is spec §8's "an allow-listed
    identifier is never added to the deny-list". *)

From S2P Require Import Prelude Text Store Features Baseline Platform AuditLog Engine Enforcer EventLoop.
From Stdlib Require Import ZArith.
Import Text Store Features Baseline Platform AuditLog Engine Enforcer EventLoop.

Module AllowList.

Local Open Scope string_scope.

(** ** Allow-list precedence

    [deny_safe w w']: the allow-list is the same in both worlds, and every
    id that is on the deny-list of [w'] was on it in [w] or is a valid id
    that is not on the allow-list. *)
Definition deny_safe (w w' : World) : Prop :=
  allow w' = allow w /\
  forall id, id ∈ deny w' -> id ∈ deny w \/ ((id ∉ allow w) /\ is_snowflake id = true).

#[export] Instance deny_safe_preorder : PreOrder deny_safe.
Proof.
  split.
  - intros w. split; [done|]. by left.
  - intros w1 w2 w3 [A12 D12] [A23 D23]. split; [congruence|].
    intros id Hid. destruct (D23 id Hid) as [H|[H S]]; [by apply D12|].
    right. by rewrite <- A12.
Qed.

(** A ban by a user who is not on the allow-list, dispatched once. *)
Definition ban_world : World :=
  set_pending [EvBanAdd "900000001" "222222"]
    (sample_world ∅ {["222222"]} [mkEntry MemberBanAdd (Some "222222") (Some "123456789") 0 0]).

Lemma deny_safe_fs w w' : w_fs w' = w_fs w -> deny_safe w w'.
Proof. intros P. unfold deny_safe, deny, allow. rewrite P. split; [done|]. by left. Qed.

Lemma deny_safe_frame w w' : proc w' = proc w -> deny_safe w w'.
Proof. intros P. apply deny_safe_fs. unfold proc in P. congruence. Qed.

Lemma deny_safe_add w id :
  id ∉ allow w -> deny_safe w (set_fs (fun fs => snd (addIds BLACKLIST_FILE [id] fs)) w).
Proof.
  intros Ha. split; [apply allow_set_fs_add|]. rewrite deny_set_fs_add.
  intros y Hy. apply elem_of_add_valid in Hy as [Hy|[Hy Hs]]; [by left|].
  apply list_elem_of_singleton in Hy as ->. by right.
Qed.

Lemma deny_safe_add_after w w1 id :
  deny_safe w w1 -> id ∉ allow w ->
  deny_safe w (set_fs (fun fs => snd (addIds BLACKLIST_FILE [id] fs)) w1).
Proof.
  intros H Ha. etrans; [exact H|]. apply deny_safe_add. by destruct H as [-> _].
Qed.

Lemma steps_addExecutorToBlacklist gd x : steps deny_safe (addExecutorToBlacklist gd x).
Proof.
  apply steps_of_wp. intros w. apply wp_addExecutorToBlacklist.
  - intros _ w' Hl _ _. by apply deny_safe_frame, Hl.
  - intros id _ w' _ _ Ha Hl _. etrans; [by apply deny_safe_add | by apply deny_safe_frame, Hl].
Qed.

Ltac deny_steps :=
  prim_steps deny_safe_frame
    ltac:(first [ apply steps_addExecutorToBlacklist | intros ?; apply deny_safe_fs; reflexivity ]).

Lemma steps_deny_onGuildBanAdd g uid : steps deny_safe (onGuildBanAdd g uid).
Proof. unfold onGuildBanAdd, tryUnban. deny_steps. Qed.

Lemma steps_deny_onChannelDelete g cid : steps deny_safe (onChannelDelete g cid).
Proof. unfold onChannelDelete, blacklistDeleter. deny_steps. Qed.

Lemma steps_deny_onRoleDelete g r : steps deny_safe (onRoleDelete g r).
Proof. unfold onRoleDelete, onRoleDeleteSnapshot, onRoleDeleteBlacklist, blacklistDeleter. deny_steps. Qed.

Lemma steps_deny_onRoleCreate g r : steps deny_safe (onRoleCreate g r).
Proof. unfold onRoleCreate. deny_steps. Qed.

Lemma steps_deny_onRoleUpdate g r : steps deny_safe (onRoleUpdate g r).
Proof. unfold onRoleUpdate, roleUpdateExecutor, revertRole. deny_steps. Qed.

Lemma steps_deny_onGuildMemberRemove g uid : steps deny_safe (onGuildMemberRemove g uid).
Proof. unfold onGuildMemberRemove. deny_steps. Qed.

Lemma steps_deny_onGuildMemberAdd g uid b : steps deny_safe (onGuildMemberAdd g uid b).
Proof.
  apply steps_of_wp. intros w. unfold onGuildMemberAdd. wp_go; try reflexivity.
  all: try (eapply (steps_wp deny_safe); [apply steps_addExecutorToBlacklist|]).
  all: match goal with
       | Hl : log_post _ ?w2 |- deny_safe _ ?w2 => etrans; [|apply deny_safe_frame, Hl]
       end.
  all: apply deny_safe_add_after; [first [reflexivity | apply deny_safe_frame, perform_proc]|].
  all: unfold allow; by eapply bool_decide_eq_false_1.
Qed.

Lemma steps_deny_enforce : steps deny_safe enforce.
Proof. unfold enforce, enforceGuild, enforceMember, lookupMember. deny_steps. Qed.

Lemma steps_deny_handle ev : steps deny_safe (handle ev).
Proof.
  destruct ev; simpl.
  - apply steps_deny_onGuildBanAdd.
  - apply steps_deny_onChannelDelete.
  - apply steps_deny_onRoleDelete.
  - apply steps_deny_onRoleCreate.
  - apply steps_deny_onRoleUpdate.
  - apply steps_deny_onGuildMemberRemove.
  - apply steps_deny_onGuildMemberAdd.
  - apply steps_deny_enforce.
Qed.

(** ** Properties *)

(** C1. Allow-list precedence over whole runs (spec §8, "an identifier on
    the allow-list is never added to the deny-list"): along any run of the
    process, whatever the platform answers and in whatever order events
    and ticks come, the allow-list never changes, and every id that ends
    up on the deny-list was already there or is a valid id that was not
    allow-listed. *)
Theorem deny_safe_runs w w' : rtc step w w' -> deny_safe w w'.
Proof.
  apply rtc_step_preorder; [apply _ | apply steps_deny_handle | |];
    intros; apply deny_safe_fs; reflexivity.
Qed.

Lemma deny_safe_runs_witness : deny_safe ban_world (drain 1 ban_world).
Proof. apply deny_safe_runs, drain_steps. Defined.

End AllowList.
