(* ===== verification/RoleGuard.v ===== *)
(** * RoleGuard: the role-update handler

    The outcome of [client.on('roleUpdate')] (lines 567-655), per branch
    of its 3-way decision: an authorized change is accepted, a change to a
    role without a baseline is adopted, and any other change is reverted
    with the executor deny-listed.  Also what happens when a compensating
    call fails, and the role of [REVERTING_ROLES]. *)

From S2P Require Import Prelude Text Store Features Baseline Platform AuditLog Engine.
From Stdlib Require Import ZArith.
Import Text Store Features Baseline Platform AuditLog Engine.

Module RoleGuard.

Local Open Scope string_scope.

(** ** A guild with one tracked role

    The role [700000001] has the baseline [{ position: 5, permissions: 6 }]
    and the newest role-update entry names executor [123456789], who is on
    no list. *)

Definition role_entry : AuditEntry :=
  mkEntry RoleUpdate (Some "700000001") (Some "123456789") 0 0.

Definition mods (pos perm : Z) : Role := mkRole "700000001" "mods" pos perm.

Definition role_world (fs : FS) (base : option Snap) : World :=
  set_roles (fun _ => match base with
                      | Some b => {["900000001" := {["700000001" := b]}]}
                      | None => ∅
                      end)
    (sample_world fs ∅ [role_entry]).

(** ** Properties *)


(** C27. First-observation exemption (spec §8): a role-update event for a
    role without a baseline makes no compensating call and adds no one to
    any list, whatever the platform answers; it only records the role's
    state as the baseline. *)
Theorem onRoleUpdate_first_observation g nr w gd :
  isEnabled (w_FEATURES w) FRoleUpdate = true -> guild_of w g = Some gd ->
  has_perm gd ViewAuditLog = true ->
  getOriginalRoleState (w_ORIGINAL_ROLE_STATE w) g (r_id nr) = None ->
  let w' := final (onRoleUpdate g nr) w in
  getOriginalRoleState (w_ORIGINAL_ROLE_STATE w') g (r_id nr) = Some (snap_of nr) /\
  actions w' = actions w /\ w_fs w' = w_fs w /\ w_REVERTING_ROLES w' = w_REVERTING_ROLES w.
Proof.
  intros Hon Hgd Hv Ho. apply wp_final. unfold onRoleUpdate.
  wp_run. all: world_simpl; simplify_eq; try (rewrite ?Hv, ?Ho in *; simpl in *; discriminate).
  all: repeat split; try reflexivity; apply get_set_eq.
Qed.

(** C28. Authorized change (spec §5, branch (1)): when the executor found
    in the audit log is allow-listed, the change is accepted: no
    compensating call, no list change, and the baseline becomes the new
    state, whatever the later calls answer. *)
Theorem onRoleUpdate_accepts_authorized g nr w gd x :
  isEnabled (w_FEATURES w) FRoleUpdate = true -> guild_of w g = Some gd ->
  has_perm gd ViewAuditLog = true -> w_fails w (w_now w) (CFetchAudit g) = false ->
  role_executor w g (r_id nr) = Some x -> x ∈ allow w ->
  let w' := final (onRoleUpdate g nr) w in
  getOriginalRoleState (w_ORIGINAL_ROLE_STATE w') g (r_id nr) = Some (snap_of nr) /\
  actions w' = actions w /\ w_fs w' = w_fs w /\ w_REVERTING_ROLES w' = w_REVERTING_ROLES w.
Proof.
  intros Hon Hgd Hv Ha Hx Hal. apply wp_final. unfold onRoleUpdate.
  wp_run. all: world_simpl; simplify_eq; try (rewrite ?Hv, ?Ha in *; simpl in *; discriminate).
  all: try (rewrite bool_decide_eq_true_2 in * by exact Hal; discriminate).
  all: repeat split; try reflexivity; apply get_set_eq.
Qed.

(** C29. A failed compensating write stops the whole revert.  When the
    permission write of step 4 is rejected, the position is not restored
    either, the executor is not deny-listed and the baseline is not
    reset: the exception reaches the handler's outer [catch].  Spec §7
    treats the sub-actions as independent.  The role still leaves
    [REVERTING_ROLES] through the [finally]. *)
Theorem onRoleUpdate_partial_failure g nr w gd o :
  isEnabled (w_FEATURES w) FRoleUpdate = true -> guild_of w g = Some gd ->
  has_perm gd ViewAuditLog = true ->
  (forall y, role_executor w g (r_id nr) = Some y -> y ∉ allow w) ->
  getOriginalRoleState (w_ORIGINAL_ROLE_STATE w) g (r_id nr) = Some o ->
  r_permissions nr ≠ permissions o ->
  w_fails w (w_now w) (CEffect (ESetPermissions (g_id gd) (r_id nr) (permissions o))) = true ->
  let w' := final (onRoleUpdate g nr) w in
  actions w' = actions w /\ deny w' = deny w /\
  getOriginalRoleState (w_ORIGINAL_ROLE_STATE w') g (r_id nr) = Some o /\
  w_REVERTING_ROLES w' = w_REVERTING_ROLES w ∖ {[r_id nr]}.
Proof.
  intros Hon Hgd Hv Hx Ho Hp Hf. apply wp_final. unfold onRoleUpdate, deny.
  assert (Hc : negb (r_permissions nr =? permissions o)%Z = true) by (apply negb_true_iff, Z.eqb_neq, Hp).
  wp_run. all: world_simpl; simplify_eq; try (rewrite ?Hv, ?Ho in *; simpl in *; discriminate).
  all: try (exfalso; eapply Hx; [eassumption | unfold allow; eapply bool_decide_eq_true_1; eassumption]).
  all: try (exfalso; rewrite Hc in *; simpl in *; discriminate).
  all: match goal with Rf : negb _ = true -> _ -> _ |- _ => destruct (Rf Hc Hf) as [? ->] end.
  all: simplify_eq; rewrite ?app_nil_r; repeat split; set_solver.
Qed.


Lemma onRoleUpdate_first_observation_witness :
  let w' := final (onRoleUpdate "900000001" (mods 5 14)) (role_world ∅ None) in
  getOriginalRoleState (w_ORIGINAL_ROLE_STATE w') "900000001" "700000001" = Some (snap_of (mods 5 14)) /\
  actions w' = actions (role_world ∅ None) /\ w_fs w' = w_fs (role_world ∅ None) /\
  w_REVERTING_ROLES w' = w_REVERTING_ROLES (role_world ∅ None).
Proof.
  apply (onRoleUpdate_first_observation "900000001" (mods 5 14) (role_world ∅ None)
           (sample_guild ∅ [role_entry])); reflexivity.
Defined.

Lemma onRoleUpdate_accepts_authorized_witness :
  let w0 := role_world {[WHITELIST_FILE := "123456789" +:+ String Text.LF ""]} (Some (mkSnap 5 6)) in
  let w' := final (onRoleUpdate "900000001" (mods 5 14)) w0 in
  getOriginalRoleState (w_ORIGINAL_ROLE_STATE w') "900000001" "700000001" = Some (snap_of (mods 5 14)) /\
  actions w' = actions w0 /\ w_fs w' = w_fs w0 /\ w_REVERTING_ROLES w' = w_REVERTING_ROLES w0.
Proof.
  apply (onRoleUpdate_accepts_authorized "900000001" (mods 5 14)
           (role_world {[WHITELIST_FILE := "123456789" +:+ String Text.LF ""]} (Some (mkSnap 5 6)))
           (sample_guild ∅ [role_entry]) "123456789");
    try reflexivity.
  vm_compute. left.
Defined.

Lemma onRoleUpdate_partial_failure_witness :
  let w0 := role_world ∅ (Some (mkSnap 5 6)) in
  let w1 := mkWorld (w_now w0) (w_bot w0) (w_lag w0) (w_guilds w0) (w_fs w0) (w_features_file w0)
              (w_FEATURES w0) (w_ORIGINAL_ROLE_STATE w0) (w_REVERTING_ROLES w0) (w_LOG_CHAN_OBJ w0)
              (w_trace w0) (w_pending w0)
              (fun _ c => match c with CEffect (ESetPermissions _ _ _) => true | _ => false end) in
  let w' := final (onRoleUpdate "900000001" (mods 9 14)) w1 in
  actions w' = actions w1 /\ deny w' = deny w1 /\
  getOriginalRoleState (w_ORIGINAL_ROLE_STATE w') "900000001" "700000001" = Some (mkSnap 5 6) /\
  w_REVERTING_ROLES w' = w_REVERTING_ROLES w1 ∖ {["700000001"]}.
Proof.
  intros w0 w1 w'.
  apply (onRoleUpdate_partial_failure "900000001" (mods 9 14) w1 (sample_guild ∅ [role_entry]) (mkSnap 5 6));
    try reflexivity.
  - intros y _. vm_compute. intros H. inversion H.
  - vm_compute. discriminate.
Defined.

End RoleGuard.
