(* ===== verification/Reverting.v ===== *)
(** * Reverting: [REVERTING_ROLES] is written and never read

    [REVERTING_ROLES] (line 148) is described as the set of roles being
    reverted, "prevents loops".  [roleUpdate] adds the role before its
    compensating writes and deletes it in a [finally] (lines 620 and 641),
    and no line of [src/index.js] reads it.  This file proves both facts
    about the model:
    - every listener and the sweep [respects] the relation "equal but
      for [REVERTING_ROLES]": the set's content never changes a result, a
      call, a file or the baseline;
    - every listener ends with a subset of the set it started with, so it
      is empty whenever no listener runs.
    The loop it was meant to prevent is in [EventLoop]. *)

From S2P Require Import Prelude Text Store Features Baseline Platform AuditLog Engine Enforcer EventLoop.
From Stdlib Require Import ZArith.
Import Text Store Features Baseline Platform AuditLog Engine Enforcer EventLoop.

Module Reverting.

(** The world without its [REVERTING_ROLES]. *)
Definition erase (w : World) : World := set_reverting (fun _ => ∅) w.

Definition same_but_reverting (w1 w2 : World) : Prop := erase w1 = erase w2.

#[export] Instance same_but_reverting_equiv : Equivalence same_but_reverting.
Proof. unfold same_but_reverting. split; [done | by intros ?? | intros ??? -> ?; done]. Qed.

(** ** The set is released *)

Definition reverting_shrinks (w w' : World) : Prop := w_REVERTING_ROLES w' ⊆ w_REVERTING_ROLES w.

(** ** Reads and writes that do not involve the set *)

Lemma erase_perform e w : erase (perform e w) = perform e (erase w).
Proof.
  destruct e; try reflexivity; unfold perform, perform_role_edit; simpl;
    change (role_in (erase w)) with (role_in w); destruct (role_in w _ _); reflexivity.
Qed.

Lemma respects_read {A} (f : World -> A) :
  (forall w, f (erase w) = f w) -> respects same_but_reverting (getsM f).
Proof. intros Hf. apply respects_getsM. intros s1 s2 H. by rewrite <- (Hf s1), <- (Hf s2), H. Qed.

Lemma respects_write (f : World -> World) :
  (forall w, erase (f w) = erase (f (erase w))) -> respects same_but_reverting (modifyM f).
Proof. intros Hf. apply respects_modifyM. intros s1 s2 H. unfold same_but_reverting. by rewrite Hf, H, <- Hf. Qed.

(** [sbr_same f H] turns [H : same_but_reverting s1 s2] into [f s1 = f s2]
    for a field [f] other than the set. *)
Ltac sbr_same f H := let E := fresh in pose proof (f_equal f H) as E; simpl in E.

Lemma respects_call e : respects same_but_reverting (call e).
Proof.
  intros s1 s2 H. unfold call. sbr_same w_fails H. sbr_same w_now H. rewrite H0, H1.
  destruct (w_fails s2 _ _); [done|]. split; [done|]. simpl. unfold same_but_reverting.
  by rewrite !erase_perform, H.
Qed.

Lemma respects_getLogChannel gd fb : respects same_but_reverting (getLogChannel gd fb).
Proof.
  intros s1 s2 H. unfold getLogChannel. sbr_same w_fails H. sbr_same w_now H. rewrite H0, H1.
  by destruct (_ && _).
Qed.

Lemma respects_sendLog gd t : respects same_but_reverting (sendLog gd t).
Proof.
  unfold sendLog. respects_auto; [by apply respects_read | apply respects_getLogChannel | apply respects_call].
Qed.

Lemma respects_addIdsM f ids : respects same_but_reverting (addIdsM f ids).
Proof.
  intros s1 s2 H. unfold addIdsM. sbr_same w_fs H. rewrite H0. split; [done|].
  exact (f_equal (set_fs (fun fs => snd (addIds f ids fs))) H).
Qed.

Lemma respects_withGuild g k :
  (forall gd, respects same_but_reverting (k gd)) -> respects same_but_reverting (withGuild g k).
Proof.
  intros Hk s1 s2 H. unfold withGuild. sbr_same w_guilds H. unfold guild_of. rewrite H0.
  destruct (List.find _ _); [by apply Hk | done].
Qed.

Lemma respects_fetchAuditLogs g t : respects same_but_reverting (fetchAuditLogs g t).
Proof.
  intros s1 s2 H. unfold fetchAuditLogs, visible_entries, guild_of.
  sbr_same w_fails H. sbr_same w_now H. sbr_same w_guilds H. rewrite H0, H1, H2.
  destruct (w_fails s2 _ _); split; done.
Qed.

Lemma respects_fetchMember g uid : respects same_but_reverting (fetchMember g uid).
Proof.
  intros s1 s2 H. unfold fetchMember, is_member, guild_of.
  sbr_same w_fails H. sbr_same w_now H. sbr_same w_guilds H. rewrite H0, H1, H2.
  destruct (_ && _); split; done.
Qed.

Ltac sbr_auto :=
  repeat first
    [ progress respects_auto
    | apply respects_call | apply respects_sendLog | apply respects_addIdsM
    | apply respects_fetchAuditLogs | apply respects_withGuild | apply respects_fetchMember
    | apply respects_read; reflexivity
    | apply respects_write; reflexivity ].

Lemma respects_findRecent g t id window : respects same_but_reverting (findRecent g t id window).
Proof. unfold findRecent. sbr_auto. Qed.

Lemma respects_resolveBanEntry g uid : respects same_but_reverting (resolveBanEntry g uid).
Proof. unfold resolveBanEntry, wait. sbr_auto; apply respects_findRecent. Qed.

Lemma respects_addExecutorToBlacklist gd x : respects same_but_reverting (addExecutorToBlacklist gd x).
Proof. unfold addExecutorToBlacklist, readSetM. sbr_auto. Qed.

Lemma respects_handle ev : respects same_but_reverting (handle ev).
Proof.
  destruct ev; simpl;
    unfold onGuildBanAdd, tryUnban, onChannelDelete, blacklistDeleter, onRoleDelete,
      onRoleDeleteSnapshot, onRoleDeleteBlacklist, onRoleCreate, onRoleUpdate,
      roleUpdateExecutor, revertRole, onGuildMemberRemove, onGuildMemberAdd,
      enforce, enforceGuild, enforceMember, lookupMember, readSetM, featureOn;
    repeat first [ progress sbr_auto | apply respects_addExecutorToBlacklist
                 | apply respects_findRecent | apply respects_resolveBanEntry ].
Qed.

#[export] Instance final_handle_proper ev :
  Proper (same_but_reverting ==> same_but_reverting) (final (handle ev)).
Proof. intros w1 w2 H. by apply respects_final; [apply respects_handle|]. Qed.

#[export] Instance reverting_shrinks_preorder : PreOrder reverting_shrinks.
Proof. unfold reverting_shrinks. split; [intros w; set_solver | intros w1 w2 w3 H1 H2; set_solver]. Qed.

Lemma reverting_shrinks_frame w w' : proc w' = proc w -> reverting_shrinks w w'.
Proof.
  intros P. unfold proc in P. unfold reverting_shrinks.
  assert (w_REVERTING_ROLES w' = w_REVERTING_ROLES w) as -> by congruence. set_solver.
Qed.

Lemma steps_shrinks_revertRole gd nr o :
  steps reverting_shrinks (revertRole gd nr o (negb (Z.eqb (r_permissions nr) (permissions o)))
                                          (negb (Z.eqb (r_position nr) (position o)))).
Proof.
  apply steps_of_wp. intros w. apply wp_revertRole.
  intros ?? _ Hv. intros. unfold reverting_shrinks. rewrite Hv. set_solver.
Qed.

Lemma steps_shrinks_addExecutorToBlacklist gd x : steps reverting_shrinks (addExecutorToBlacklist gd x).
Proof.
  unfold addExecutorToBlacklist, addIdsM.
  prim_steps reverting_shrinks_frame ltac:(intros ?; unfold reverting_shrinks; reflexivity).
Qed.

Lemma steps_shrinks_handle ev : steps reverting_shrinks (handle ev).
Proof.
  destruct ev; simpl;
    unfold onGuildBanAdd, tryUnban, onChannelDelete, blacklistDeleter, onRoleDelete,
      onRoleDeleteSnapshot, onRoleDeleteBlacklist, onRoleCreate, onRoleUpdate,
      roleUpdateExecutor, onGuildMemberRemove, onGuildMemberAdd,
      enforce, enforceGuild, enforceMember, lookupMember;
    prim_steps reverting_shrinks_frame
      ltac:(first [ apply steps_shrinks_revertRole
                  | apply steps_shrinks_addExecutorToBlacklist
                  | intros ?; unfold reverting_shrinks; reflexivity ]).
Qed.

(** ** Properties *)

(** C30. [REVERTING_ROLES] is never read.  Whatever the set holds when an
    event (or a sweep tick) is dispatched, the handling makes the same
    calls, sends the same embeds, writes the same files and leaves the
    same baseline: the two end worlds differ at most in the set.  So the
    loop guard the comment on line 148 promises does not exist. *)
Theorem reverting_never_read ev w R :
  same_but_reverting (final (handle ev) (set_reverting (fun _ => R) w)) (final (handle ev) w).
Proof. apply final_handle_proper. reflexivity. Qed.

(** C31. The [finally] of step 4 releases the role: along any run that
    starts with an empty [REVERTING_ROLES], the set is empty again
    whenever no handler is running. *)
Theorem reverting_released_runs w w' :
  w_REVERTING_ROLES w = ∅ -> rtc step w w' -> w_REVERTING_ROLES w' = ∅.
Proof.
  intros H0 Hr. assert (reverting_shrinks w w') as Hs.
  { revert Hr. apply rtc_step_preorder; [apply _ | apply steps_shrinks_handle | |]; intros; unfold reverting_shrinks; set_solver. }
  unfold reverting_shrinks in Hs. rewrite H0 in Hs. set_solver.
Qed.

Lemma reverting_released_runs_witness :
  w_REVERTING_ROLES (drain 3 (sample_world ∅ ∅ [])) = ∅.
Proof. apply (reverting_released_runs (sample_world ∅ ∅ [])); [reflexivity | apply drain_steps]. Defined.

End Reverting.
