(* ===== verification/Chat.v ===== *)
(** * Chat: what a staff command reads and how it answers

    The fields of the [Message] the command listener (lines 1343-1974)
    reads, the reply [(logChannel ?? msg.channel).send(...)], and the
    platform reads the role commands make: a member fetch, the fetch of
    all members, a user fetch, a member's roles and [user_ids.txt].  A
    reply is identified by its title: the counters and mentions of the
    texts are not modelled. *)

From S2P Require Import Prelude Text Store Features Baseline Platform AuditLog Engine.
From Stdlib Require Import ZArith Ascii.
Import Text Store Features Baseline Platform AuditLog Engine.

Module Chat.

Local Open Scope string_scope.

(** The fields of a discord.js [Message] the listener reads. *)
Record Message : Type := mkMessage {
  m_author : string;          (* msg.author.id *)
  m_author_bot : bool;        (* msg.author.bot *)
  m_guild : option string;    (* msg.guild?.id *)
  m_channel : string;         (* msg.channel.id *)
  m_content : string          (* msg.content *)
}.

(** [logChannel ?? msg.channel], [logChannel] being
    [guild.channels.cache.get(LOG_CHANNEL_ID)]. *)
Definition reply_channel (gd : Guild) (msg : Message) : string :=
  if g_has_log gd then LOG_CHANNEL_ID else m_channel msg.

(** [await (logChannel ?? msg.channel).send(...)] *)
Definition reply (gd : Guild) (msg : Message) (text : string) : M World unit :=
  call (ESend (reply_channel gd msg) text).

(** An embed as sent: its title, then its description. *)
Definition embed (title desc : string) : string := title +:+ String LF desc.

(** [SOURCE_ROLE_ID] and [TARGET_ROLE_ID] (lines 25-26). *)
Definition SOURCE_ROLE_ID : string := "1433193580809289915".
Definition TARGET_ROLE_ID : string := "1433205845814153298".

(** The file [+save] writes and [+recover] and [+invall] read. *)
Definition USER_IDS_FILE : string := "user_ids.txt".

(** [await guild.members.fetch()]: it fills the cache; it may reject. *)
Definition fetchMembers (g : string) : M World unit :=
  fun w => if w_fails w (w_now w) (CFetchMembers g) then (Exn, w) else (Ok tt, w).

(** [await client.users.fetch(id, { force: false })], which rejects for an
    unknown user, and [if (!user) throw]. *)
Definition fetchUser (uid : string) : M World unit :=
  fun w => if w_fails w (w_now w) (CFetchUser uid) then (Exn, w) else (Ok tt, w).

(** [member.roles.cache] of a member of guild [g]. *)
Definition member_roles (w : World) (g uid : string) : gset string :=
  match guild_of w g with
  | Some gd => default ∅ (g_member_roles gd !! uid)
  | None => ∅
  end.

(** [guild.bans] holds [uid]: [guild.bans.remove] rejects with
    [Unknown Ban] otherwise. *)
Definition is_banned (w : World) (g uid : string) : bool :=
  match guild_of w g with
  | Some gd => bool_decide (uid ∈ g_bans gd)
  | None => false
  end.

(** [fs.readFile('user_ids.txt')] and its lines: [None] when the file is
    missing (the read rejects). *)
Definition read_user_ids (w : World) : option (list string) :=
  match w_fs w !! USER_IDS_FILE with
  | Some raw => Some (nonblank_lines raw)
  | None => None
  end.

(** [[...new Set(ids)].filter(id => /^\d{5,}$/.test(id))] *)
Definition unique_valid (ids : list string) : list string :=
  filter (fun id => is_snowflake id = true) (js_set_of_list ids).

(** ** Steps of the reads *)

Section ChatSteps.
  Context (R : World -> World -> Prop) `{!PreOrder R}.

Lemma steps_fetchMembers g : steps R (fetchMembers g).
Proof. intros w. unfold fetchMembers. by case_match. Qed.

Lemma steps_fetchUser uid : steps R (fetchUser uid).
Proof. intros w. unfold fetchUser. by case_match. Qed.
End ChatSteps.

(** [chat_steps frame extra]: [prim_steps] that also steps over the
    reads of the commands and the replies. *)
Ltac chat_steps frame extra :=
  unfold reply;
  prim_steps frame
    ltac:(first [ apply steps_fetchMember | apply steps_fetchMembers | apply steps_fetchUser | extra ]).

End Chat.
