(* ===== verification/RoleCommands.v ===== *)
(** * RoleCommands: [+recover], [+invall], [+promo], [+demo], [+save]

    The role commands of the staff listener (lines 1495-1664 and
    1713-1973).  [+save] gives [TARGET_ROLE_ID] (or the role named in
    its argument) to every holder of [SOURCE_ROLE_ID] who can view
    [CHANNEL_TO_CHECK], then merges the holders into [user_ids.txt].
    [+recover] gives a role back to the members listed there, and
    [+invall] unbans them and DMs them an invite.  [+promo] gives a
    member every role of the positional band between [SOURCE_ROLE_ID]
    and a target role; [+demo] takes off the member's roles above
    [SOURCE_ROLE_ID].

    Each command only grants or removes roles that lie strictly below
    the bot's highest role ([me.roles.highest.comparePositionTo(r) > 0],
    [bot_above]).  Discord positions are unique in a guild, so the
    comparison by id that [comparePositionTo] makes for equal positions
    is not modelled.  The role caches are enumerated in key order, and
    the sorts are the stable [merge_sort] of stdpp, as
    [Array.prototype.sort] is stable. *)

From stdpp Require Import sorting.
From S2P Require Import Prelude Text Store Features Baseline Platform Chat.
From Stdlib Require Import ZArith Ascii.
Import Text Store Features Baseline Platform Chat.

Module RoleCommands.

Local Open Scope string_scope.

(** ** Roles *)

(** [guild.roles.cache] *)
Definition guild_roles (w : World) (g : string) : list Role :=
  match guild_of w g with Some gd => map snd (map_to_list (g_roles gd)) | None => [] end.

(** [me.roles.highest.comparePositionTo(r) > 0] *)
Definition bot_above (gd : Guild) (r : Role) : bool := bool_decide (r_position r < g_me_top gd)%Z.

(** The orders of the two sorts. *)
Definition pos_le (r1 r2 : Role) : Prop := (r_position r1 <= r_position r2)%Z.
Definition pos_ge (r1 r2 : Role) : Prop := (r_position r2 <= r_position r1)%Z.

#[export] Instance pos_le_dec : RelDecision pos_le := fun r1 r2 => Z.le_dec (r_position r1) (r_position r2).
#[export] Instance pos_ge_dec : RelDecision pos_ge := fun r1 r2 => Z.le_dec (r_position r2) (r_position r1).

(** ** [+recover] (lines 1496-1583) *)

(** One id of the loop: fetch the member, skip a holder of the role,
    else add it. *)
Definition recover_one (gd : Guild) (msg : Message) (rid id : string) : M World unit :=
  let g := g_id gd in
  let* fetched := tryCatch (fetchMember g id ;; retM true)
                           (reply gd msg "Cannot fetch member" ;; wait 150 ;; retM false) in
  if negb fetched then retM tt else
  let* has := getsM (fun w => bool_decide (rid ∈ member_roles w g id)) in
  if has then reply gd msg "Already has" ;; wait 120 else
  tryCatch (call (EAddRole g id rid) ;; reply gd msg "Gave" ;; wait 150)
           (reply gd msg "Failed for" ;; wait 150).

Definition recoverCmd (gd : Guild) (msg : Message) (content : string) : M World unit :=
  match nth_error (split_on is_ws content) 1 with
  | None | Some EmptyString => reply gd msg "Usage: `+recover <role_id_or_mention>`"
  | Some arg =>
    let rid := strip_role arg in
    if negb (has_perm gd ManageRoles) then reply gd msg "I need Manage Roles." else
    let* role := getsM (fun w => role_in w (g_id gd) rid) in
    match role with
    | None => reply gd msg "That role ID/mention is invalid in this server."
    | Some r =>
      if negb (bot_above gd r) then reply gd msg "My highest role must be above the target role." else
      let* file := getsM read_user_ids in
      match file with
      | None => reply gd msg "`user_ids.txt` not found or unreadable."
      | Some ids =>
        match unique_valid ids with
        | [] => reply gd msg "`user_ids.txt` contains no valid user IDs."
        | uids =>
          reply gd msg "Recovering" ;;
          forM_ uids (recover_one gd msg rid) ;;
          reply gd msg "Recover complete"
        end
      end
    end
  end.

(** ** [+invall] (lines 1587-1663) *)

(** One id: unban it (an id that is not banned makes the platform reject
    with [Unknown Ban], the [notBanned] branch), then DM it. *)
Definition invall_one (gd : Guild) (msg : Message) (id : string) : M World unit :=
  let g := g_id gd in
  let* banned := getsM (fun w => is_banned w g id) in
  (if banned then
     tryCatch (call (EUnban g id) ;; reply gd msg "Unbanned" ;; wait 200)
              (reply gd msg "Unban failed" ;; wait 200)
   else reply gd msg "Not banned" ;; wait 200) ;;
  tryCatch (fetchUser id ;; call (EDM id) ;; wait 250)
           (reply gd msg "Could not DM" ;; wait 150).

Definition invallCmd (gd : Guild) (msg : Message) : M World unit :=
  if negb (has_perm gd BanMembers) then reply gd msg "I need Ban Members to unban users." else
  let* file := getsM read_user_ids in
  match file with
  | None => reply gd msg "`user_ids.txt` not found or unreadable."
  | Some ids =>
    match unique_valid ids with
    | [] => reply gd msg "`user_ids.txt` contains no valid user IDs."
    | uids =>
      reply gd msg "Starting unban" ;;
      forM_ uids (invall_one gd msg) ;;
      reply gd msg "+invall complete"
    end
  end.

(** ** [+promo] (lines 1714-1790) *)

(** [candidateRoles]: the roles of the band [lower, upper] but
    [@everyone] and the managed roles that the bot can manage, by
    position. *)
Definition promo_band (gd : Guild) (lower upper : Z) (rs : list Role) : list Role :=
  merge_sort pos_le
    (filter (fun r => ((lower <=? r_position r) && (r_position r <=? upper) &&
                       negb (bool_decide (r_id r = g_id gd)) &&
                       negb (bool_decide (r_id r ∈ g_managed gd)) && bot_above gd r)%Z = true) rs).

Definition promo_one (gd : Guild) (uid : string) (r : Role) : M World unit :=
  let* has := getsM (fun w => bool_decide (r_id r ∈ member_roles w (g_id gd) uid)) in
  if has then retM tt else
  tryCatch (call (EAddRole (g_id gd) uid (r_id r)) ;; wait 120) (retM tt).

Definition promoCmd (gd : Guild) (msg : Message) (content : string) : M World unit :=
  let parts := split_on is_ws content in
  let rid := match nth_error parts 2 with Some m => strip_role m | None => "" end in
  match parseUserId (nth_error parts 1) with
  | None => reply gd msg "Usage: `+promo @user @role`"
  | Some uid =>
    if bool_decide (rid = "") then reply gd msg "Usage: `+promo @user @role`" else
    if negb (has_perm gd ManageRoles) then reply gd msg "I need Manage Roles." else
    let g := g_id gd in
    let* fetched := tryCatch (fetchMember g uid ;; retM true)
                             (reply gd msg "Could not fetch that member." ;; retM false) in
    if negb fetched then retM tt else
    let* src := getsM (fun w => role_in w g SOURCE_ROLE_ID) in
    let* tgt := getsM (fun w => role_in w g rid) in
    match src, tgt with
    | Some s, Some t =>
      if negb (bot_above gd t) then reply gd msg "My highest role must be above the target role." else
      let lower := Z.min (r_position s) (r_position t) in
      let upper := Z.max (r_position s) (r_position t) in
      let* rs := getsM (fun w => guild_roles w g) in
      forM_ (promo_band gd lower upper rs) (promo_one gd uid) ;;
      reply gd msg (embed "Promo Complete" "")
    | _, _ => reply gd msg "Invalid SOURCE_ROLE_ID or target role."
    end
  end.

(** ** [+demo] (lines 1792-1864) *)

(** [member.roles.cache], the member's roles of the guild's cache. *)
Definition member_role_list (w : World) (g uid : string) : list Role :=
  filter (fun r => r_id r ∈ member_roles w g uid) (guild_roles w g).

(** [member.roles.highest]: [@everyone] (the role whose id is the guild's)
    counts, as every member has it. *)
Definition member_highest (w : World) (g uid : string) : option Z :=
  foldr (fun r acc => Some (match acc with Some p => Z.max p (r_position r) | None => r_position r end))
    None (filter (fun r => r_id r ∈ member_roles w g uid \/ r_id r = g) (guild_roles w g)).

(** [removable]: the member's roles strictly above [SOURCE_ROLE_ID] and at
    most its highest, but the source role, [@everyone] and the managed
    roles, that the bot can manage; top down. *)
Definition demo_removable (gd : Guild) (srcpos hi : Z) (rs : list Role) : list Role :=
  merge_sort pos_ge
    (filter (fun r => ((srcpos <? r_position r) && (r_position r <=? hi) &&
                       negb (bool_decide (r_id r = SOURCE_ROLE_ID)) &&
                       negb (bool_decide (r_id r = g_id gd)) &&
                       negb (bool_decide (r_id r ∈ g_managed gd)) && bot_above gd r)%Z = true) rs).

Definition demoCmd (gd : Guild) (msg : Message) (content : string) : M World unit :=
  match parseUserId (nth_error (split_on is_ws content) 1) with
  | None => reply gd msg "Usage: `+demo @user`"
  | Some uid =>
    if negb (has_perm gd ManageRoles) then reply gd msg "I need Manage Roles." else
    let g := g_id gd in
    let* fetched := tryCatch (fetchMember g uid ;; retM true)
                             (reply gd msg "Could not fetch that member." ;; retM false) in
    if negb fetched then retM tt else
    let* src := getsM (fun w => role_in w g SOURCE_ROLE_ID) in
    match src with
    | None => reply gd msg "Invalid SOURCE_ROLE_ID."
    | Some s =>
      let* hi := getsM (fun w => member_highest w g uid) in
      match hi with
      | Some h =>
        if (h <=? r_position s)%Z then reply gd msg "Nothing to remove - user is not above the source role." else
        let* rs := getsM (fun w => member_role_list w g uid) in
        match demo_removable gd (r_position s) h rs with
        | [] => reply gd msg "No removable roles found in the band."
        | rem =>
          forM_ rem (fun r => tryCatch (call (ERemoveRole g uid (r_id r)) ;; wait 120) (retM tt)) ;;
          reply gd msg (embed "Demo Complete" "")
        end
      | None => reply gd msg "Nothing to remove - user is not above the source role."
      end
    end
  end.

(** ** [+save] (lines 1868-1973) *)

(** [sourceRole.members]: the members of the cache holding the role. *)
Definition source_holders (w : World) (g : string) : list string :=
  filter (fun m => SOURCE_ROLE_ID ∈ member_roles w g m) (elements (members_of w g)).

(** One holder: skip it if it has the target or cannot view
    [CHANNEL_TO_CHECK]; else add the target. *)
Definition save_one (gd : Guild) (msg : Message) (tgt : string) (m : string) : M World unit :=
  let g := g_id gd in
  let* has := getsM (fun w => bool_decide (tgt ∈ member_roles w g m)) in
  if has then retM tt else
  if (match g_viewers gd with Some V => bool_decide (m ∉ V) | None => false end) then retM tt else
  tryCatch (call (EAddRole g m tgt) ;; reply gd msg "Gave" ;; wait 200)
           (reply gd msg "Failed for" ;; wait 200).

(** [[...newIds].join('\n') + '\n'] *)
Definition print_user_ids (ids : list string) : string :=
  String.concat (String LF "") ids +:+ String LF "".

(** The de-duplicated write: the holders first, then the ids already in
    the file ([existingIds] is empty when the file is missing). *)
Definition save_file (gd : Guild) (msg : Message) : M World unit :=
  tryCatch (let* holders := getsM (fun w => source_holders w (g_id gd)) in
            let* existing := getsM (fun w => default [] (read_user_ids w)) in
            let ids := foldl (fun s x => js_set_add x s) (js_set_of_list holders) existing in
            modifyM (set_fs (insert USER_IDS_FILE (print_user_ids ids))) ;;
            reply gd msg "Updated `user_ids.txt`")
           (reply gd msg "Could not update `user_ids.txt`.").

Definition saveCmd (gd : Guild) (msg : Message) (content : string) : M World unit :=
  let parsed := match nth_error (split_on is_ws content) 1 with Some a => strip_role a | None => "" end in
  let tgt := if bool_decide (parsed = "") then TARGET_ROLE_ID else parsed in
  if negb (has_perm gd ManageRoles) then reply gd msg "I need Manage Roles." else
  let g := g_id gd in
  let* src := getsM (fun w => role_in w g SOURCE_ROLE_ID) in
  let* t := getsM (fun w => role_in w g tgt) in
  match src, t with
  | Some _, Some tr =>
    if negb (bot_above gd tr) then reply gd msg "My highest role must be above the target role." else
    (match g_viewers gd with
     | None => reply gd msg "CHANNEL_TO_CHECK not found. Ignoring that filter."
     | Some _ => retM tt
     end) ;;
    reply gd msg "Starting" ;;
    tryCatch (fetchMembers g ;;
              let* holders := getsM (fun w => source_holders w g) in
              forM_ holders (save_one gd msg tgt) ;;
              reply gd msg "Done" ;;
              save_file gd msg)
             (reply gd msg "Error while fetching/processing members.")
  | _, _ => reply gd msg "Source or target role ID is invalid."
  end.

(** The ids the de-duplicated write of [+save] prints. *)
Definition saved_ids (w : World) (g : string) : list string :=
  foldl (fun s x => js_set_add x s) (js_set_of_list (source_holders w g)) (default [] (read_user_ids w)).

(** A sample: member [222222] holds [SOURCE_ROLE_ID], and [user_ids.txt]
    lists [333333]. *)
Definition save_guild : Guild :=
  mkGuild "900000001" "100000001" "sab-mm" {["123456789"; "222222"]} ∅ ∅ [ManageRoles] [] false
    {["222222" := {[SOURCE_ROLE_ID]}]} ∅ 5 None.

Definition save_world : World :=
  mkWorld 0 "555555555" 0 [save_guild] {[USER_IDS_FILE := "333333" +:+ String LF ""]} None
    DEFAULT_FEATURES ∅ ∅ None [] [] (fun _ _ => false).

(** ** Lemmas *)

Lemma nonblank_print_user_ids ids : Forall clean ids -> nonblank_lines (print_user_ids ids) = ids.
Proof. destruct ids as [|x xs]; [reflexivity|]. intros H. exact (nonblank_print (x :: xs) H). Qed.

Lemma elem_of_source_holders w g x : x ∈ source_holders w g -> x ∈ members_of w g.
Proof. unfold source_holders. rewrite list_elem_of_filter, elem_of_elements. tauto. Qed.

(** [+save] writes [user_ids.txt] and touches no other file, whether the
    answer after the write fails or not. *)
Lemma save_file_fs gd msg w :
  w_fs (final (save_file gd msg) w) = <[USER_IDS_FILE := print_user_ids (saved_ids w (g_id gd))]> (w_fs w).
Proof.
  unfold final, save_file, tryCatch, bindM, getsM, modifyM, reply. cbn [fst snd].
  repeat first [rewrite call_run | case_match]; simplify_eq/=; rewrite ?w_fs_perform; reflexivity.
Qed.

Lemma elem_of_saved_ids w g x :
  x ∈ saved_ids w g <-> x ∈ source_holders w g \/ x ∈ default [] (read_user_ids w).
Proof. unfold saved_ids. by rewrite js_set_foldl_elem, elem_of_js_set_of_list. Qed.

Lemma saved_ids_clean w g :
  (forall m, m ∈ members_of w g -> is_snowflake m = true) -> Forall clean (saved_ids w g).
Proof.
  intros Hm. apply Forall_forall. intros x Hx. rewrite elem_of_saved_ids in Hx.
  destruct Hx as [Hx|Hx].
  - by apply snowflake_clean, Hm, elem_of_source_holders.
  - unfold read_user_ids in Hx. destruct (w_fs w !! USER_IDS_FILE); cbn in Hx; [|set_solver].
    pose proof (nonblank_lines_clean s) as Hc. rewrite Forall_forall in Hc. by apply Hc.
Qed.

(** ** Properties *)

(** C15. [+save] then [+recover] (the round trip through [user_ids.txt]).
    Say the members of the guild have Discord ids.  After the
    de-duplicated write of [+save], [user_ids.txt] reads back as a list
    without repeats.  Its ids are the holders of [SOURCE_ROLE_ID] and the
    ids the file had before.  Every holder is among the ids [+recover] and
    [+invall] act on. *)
Theorem save_recover_roundtrip gd msg w :
  (forall m, m ∈ members_of w (g_id gd) -> is_snowflake m = true) ->
  let w' := final (save_file gd msg) w in
  exists ids, read_user_ids w' = Some ids /\ NoDup ids /\
    (forall x, x ∈ ids <-> x ∈ source_holders w (g_id gd) \/ x ∈ default [] (read_user_ids w)) /\
    (forall x, x ∈ source_holders w (g_id gd) -> x ∈ unique_valid ids).
Proof.
  intros Hm w'. exists (saved_ids w (g_id gd)). unfold w'. split_and!.
  - unfold read_user_ids. rewrite save_file_fs, lookup_insert_eq.
    by rewrite nonblank_print_user_ids by (by apply saved_ids_clean).
  - apply js_set_foldl_NoDup, NoDup_js_set_of_list.
  - apply elem_of_saved_ids.
  - intros x Hx. unfold unique_valid. rewrite list_elem_of_filter, elem_of_js_set_of_list, elem_of_saved_ids.
    split; [by apply Hm, elem_of_source_holders | by left].
Qed.

Lemma save_recover_roundtrip_witness :
  let w' := final (save_file save_guild (mkMessage "123456789" false (Some "900000001") "555000111" "+save")) save_world in
  exists ids, read_user_ids w' = Some ids /\ NoDup ids /\
    (forall x, x ∈ ids <-> x ∈ source_holders save_world "900000001" \/ x ∈ default [] (read_user_ids save_world)) /\
    (forall x, x ∈ source_holders save_world "900000001" -> x ∈ unique_valid ids).
Proof.
  apply (save_recover_roundtrip save_guild). intros m Hm.
  change (members_of save_world (g_id save_guild)) with ({["123456789"; "222222"]} : gset string) in Hm.
  rewrite elem_of_union, !elem_of_singleton in Hm. destruct Hm as [->| ->]; reflexivity.
Defined.

End RoleCommands.
