(* ===== verification/Commands.v ===== *)
(** * Commands: the staff command listener (lines 1343-1974)

    The second [client.on('messageCreate')] listener.  A message from a
    bot or outside a guild is ignored; so is one whose author is not in
    [allowedUsers.txt].  The trimmed content then selects a command by its
    lower-cased prefix, in the order of the code:
    - [+help], [+settings]: one embed;
    - [+view whitelist|blacklist]: the set, 50 ids per embed;
    - [+enable ...] / [+disable...]: feature flags, saved to [features.json];
    - [+recover], [+invall] (file [RoleCommands]);
    - [+whitelist], [+unwhitelist], [+blacklist], [+unblacklist] with a
      user id or mention;
    - [+promo], [+demo], [+save] (file [RoleCommands]).
    Every branch ends with [return]; a list command with an unknown
    command word falls through to the last three tests.

    Replies go to [logChannel ?? msg.channel].  An embed is its title and
    its description.  The listener has no [try]: a rejected call ends the
    listener with an exception ([Exn]). *)

From S2P Require Import Prelude Text Store Features Baseline Platform AuditLog Engine Enforcer Chat RoleCommands.
From Stdlib Require Import ZArith Ascii.
Import Text Store Features Baseline Platform AuditLog Engine Enforcer Chat RoleCommands.

Module Commands.

Local Open Scope string_scope.

(** ** [+view] (lines 1411-1454) *)

(** [for (let i = 0; i < ids.length; i += chunkSize) chunks.push(ids.slice(i, i + chunkSize))]
    with [chunkSize = 50].  The loop runs at most [length ids] times: that
    is the fuel. *)
Fixpoint chunks_go (fuel : nat) (l : list string) : list (list string) :=
  match fuel, l with
  | O, _ => []
  | S _, [] => []
  | S f, _ :: _ => take 50 l :: chunks_go f (drop 50 l)
  end.

Definition chunks (l : list string) : list (list string) := chunks_go (length l) l.

(** [chunk.map(id => `• <@${id}> (\`${id}\`)`).join('\n')], bullet in ASCII. *)
Definition chunk_lines (c : list string) : string :=
  String.concat (String LF "") (map (fun id => "* <@" +:+ id +:+ "> (`" +:+ id +:+ "`)") c).

Definition view_title (which : string) : string :=
  if bool_decide (which = "whitelist") then "Whitelist" else "Blacklist".

Definition viewCmd (gd : Guild) (msg : Message) (which : string) : M World unit :=
  if negb (bool_decide (which ∈ ["whitelist"; "blacklist"]))
  then reply gd msg "Usage: `+view whitelist` or `+view blacklist`" else
  let file := if bool_decide (which = "whitelist") then WHITELIST_FILE else BLACKLIST_FILE in
  let* ids := readSetM file in
  match ids with
  | [] => reply gd msg ("The " +:+ which +:+ " is currently empty.")
  | _ :: _ =>
      let cs := chunks ids in
      reply gd msg (embed (view_title which +:+ " (" +:+ pretty (length ids) +:+ ")")
                          (chunk_lines (hd [] cs))) ;;
      forM_ (tail cs) (fun c =>
        reply gd msg (embed (view_title which +:+ " (cont.)") (chunk_lines c)) ;;
        wait 200)
  end.

(** ** [+enable] / [+disable] (lines 1458-1492) *)

(** [content.replace(/^\+(enable|disable)\s*/i, '')] *)
Definition strip_toggle (content : string) : string :=
  let lc := string_lower content in
  if String.prefix "+enable" lc then trim_start (str_drop 7 content)
  else if String.prefix "+disable" lc then trim_start (str_drop 8 content)
  else content.

Definition toggleCmd (gd : Guild) (msg : Message) (content lc : string) : M World unit :=
  let enabling := String.prefix "+enable " lc in
  let tokens := toggle_tokens (strip_toggle content) in
  match tokens with
  | [] => reply gd msg "Usage: `+enable ban,kick,botadd,channel,roleUpdate,roleDelete` or `+disable ...`"
  | _ :: _ =>
      let* F := getsM w_FEATURES in
      let '(F', _, _) := apply_toggles enabling tokens F in
      (* [FEATURES[key] = enabling] for each known token, then [await saveFeatures()] *)
      modifyM (set_features F' (Some (JObj F'))) ;;
      reply gd msg (if enabling then "Enabled" else "Disabled")
  end.

(** ** The list commands (lines 1666-1710) *)

Definition list_prefix (lc : string) : bool :=
  String.prefix "+whitelist" lc || String.prefix "+unwhitelist" lc ||
  String.prefix "+blacklist" lc || String.prefix "+unblacklist" lc.

(** Lines 1713-1868: what the listener tests after the list commands.
    The last test is [if (!content.toLowerCase().startsWith('+save')) return;]. *)
Definition tail_cmds (gd : Guild) (msg : Message) (content lc : string) : M World unit :=
  if String.prefix "+promo" lc then promoCmd gd msg content else
  if String.prefix "+demo" lc then demoCmd gd msg content else
  if String.prefix "+save" lc then saveCmd gd msg content else
  retM tt.

(** Lines 1680-1710, once the id is parsed: the permission check, then
    the command word selects the file and the operation.  An unknown word
    falls through to the rest of the listener. *)
Definition list_action (gd : Guild) (msg : Message) (content lc cmd id : string) : M World unit :=
  if negb (has_perm gd BanMembers && has_perm gd ViewAuditLog)
  then reply gd msg "I need Ban Members and View Audit Log." else
  if bool_decide (cmd = "+whitelist") then
    addIdsM WHITELIST_FILE [id] ;; reply gd msg "Whitelisted"
  else if bool_decide (cmd = "+unwhitelist") then
    removeIdsM WHITELIST_FILE [id] ;; reply gd msg "Removed from Whitelist"
  else if bool_decide (cmd = "+blacklist") then
    addIdsM BLACKLIST_FILE [id] ;; reply gd msg "Blacklisted"
  else if bool_decide (cmd = "+unblacklist") then
    removeIdsM BLACKLIST_FILE [id] ;; reply gd msg "Removed from Blacklist"
  else tail_cmds gd msg content lc.

(** Lines 1672-1678: the words, the command word, the id. *)
Definition listCmd (gd : Guild) (msg : Message) (content lc : string) : M World unit :=
  let parts := split_on is_ws content in
  let cmd := string_lower (hd "" parts) in
  match parseUserId (nth_error parts 1) with
  | None => reply gd msg "Usage: `+whitelist @user`, `+unwhitelist @user`, `+blacklist @user`, `+unblacklist @user`"
  | Some id => list_action gd msg content lc cmd id
  end.

(** ** The listener *)

(** Lines 1350-1412 and the dispatch below them: the trimmed content
    selects a command by its lower-cased text, in the order of the code. *)
Definition dispatch (gd : Guild) (msg : Message) : M World unit :=
  let content := trim (m_content msg) in
  let lc := string_lower content in
  if bool_decide (lc = "+help") then reply gd msg (embed "Help" "") else
  if bool_decide (lc = "+settings") then
    let* F := getsM w_FEATURES in reply gd msg (embed "Current Settings" (listFeaturesPretty F)) else
  if String.prefix "+view " lc then viewCmd gd msg (string_lower (trim (str_drop 6 content))) else
  if String.prefix "+enable " lc || String.prefix "+disable" lc then toggleCmd gd msg content lc else
  if String.prefix "+recover" lc then recoverCmd gd msg content else
  if String.prefix "+invall" lc then invallCmd gd msg else
  if list_prefix lc then listCmd gd msg content lc else
  tail_cmds gd msg content lc.

(** Lines 1343-1348: bots, direct messages and non-staff are ignored. *)
Definition onMessage (msg : Message) : M World unit :=
  if m_author_bot msg then retM tt else
  match m_guild msg with
  | None => retM tt
  | Some g =>
    withGuild g (fun gd =>
      let* allowed := getsM (fun w => isAllowedUser (w_fs w) (m_author msg)) in
      if negb allowed then retM tt else
      dispatch gd msg)
  end.


(** A staff message in guild [gd]: from a human allowed user, in a
    guild of the cache. *)
Definition staff_msg (w : World) (gd : Guild) (msg : Message) : Prop :=
  m_author_bot msg = false /\ m_guild msg = Some (g_id gd) /\ guild_of w (g_id gd) = Some gd /\
  isAllowedUser (w_fs w) (m_author msg) = true.

(** The bot may manage the lists in [gd]: Ban Members and View Audit Log. *)
Definition can_manage (gd : Guild) : Prop :=
  has_perm gd BanMembers = true /\ has_perm gd ViewAuditLog = true.

(** A sample: one staff member, [123456789], in the guild of
    [sample_guild]. *)
Definition cmd_world : World :=
  sample_world {[ALLOWED_FILE := "123456789" +:+ String Text.LF ""]} ∅ [].

Definition cmd_msg (author content : string) : Message :=
  mkMessage author false (Some "900000001") "800000001" content.

(** ** The chunks of [+view] *)

Lemma chunks_go_spec fuel l :
  (length l <= 50 * fuel)%nat ->
  concat (chunks_go fuel l) = l /\ Forall (fun c => 1 <= length c <= 50)%nat (chunks_go fuel l) /\
  length (chunks_go fuel l) = ((length l + 49) / 50)%nat.
Proof.
  revert l. induction fuel as [|f IH]; intros l Hl.
  - assert (l = []) as -> by (destruct l; simpl in *; [done | lia]). done.
  - destruct l as [|x l']; [done|]. remember (x :: l') as l eqn:El.
    assert (Hlen : (1 <= length l)%nat) by (subst; simpl; lia).
    assert (Hc : chunks_go (S f) l = take 50 l :: chunks_go f (drop 50 l)) by (subst; done).
    rewrite Hc. clear Hc El.
    destruct (IH (drop 50 l)) as (Hc & Hb & Hn); [rewrite length_drop; lia|].
    rewrite concat_cons, Hc, take_drop. split; [done|]. split.
    + constructor; [|done]. rewrite length_take. lia.
    + rewrite length_cons, Hn, length_drop.
      destruct (decide (length l < 50)%nat) as [Hs|Hs].
      * rewrite (Nat.div_small (length l - 50 + 49)) by lia.
        apply (Nat.div_unique _ _ _ (length l + 49 - 50)); lia.
      * replace (length l + 49)%nat with (1 * 50 + (length l - 50 + 49))%nat by lia.
        rewrite Nat.div_add_l by lia. done.
Qed.

Lemma onMessage_staff w gd msg :
  staff_msg w gd msg -> onMessage msg w = dispatch gd msg w.
Proof.
  intros (Hb & Hg & Hgd & Ha). unfold onMessage. rewrite Hb, Hg. unfold withGuild.
  rewrite Hgd. unfold bindM, getsM. simpl. by rewrite ?Ha.
Qed.

(** The listener on [cw id], for a command word [cw] of the list block:
    the trimmed, lower-cased text, its words, and the parsed id. *)
(** [cmd_eval] computes the tests of the listener on a command word
    given as a literal. *)
Ltac cmd_eval :=
  rewrite ?string_append_cons, ?string_append_nil;
  repeat (case_bool_decide; [simplify_eq; fail|]);
  simpl.

Lemma list_command_text w gd msg cw id :
  staff_msg w gd msg -> m_content msg = cw +:+ String " " id ->
  cw ∈ ["+whitelist"; "+unwhitelist"; "+blacklist"; "+unblacklist"] -> is_snowflake id = true ->
  onMessage msg w = list_action gd msg (cw +:+ String " " id) (cw +:+ String " " id) cw id w.
Proof.
  intros Hs Hc Hcw Hid.
  assert (Hw : string_forall (fun c => negb (is_ws c)) cw = true /\ string_lower cw = cw /\ cw ≠ "")
    by (set_unfold in Hcw; by destruct Hcw as [->|[->|[->|[->|[]]]]]).
  destruct Hw as (Hw & Hl & Hne). destruct (command_line cw id Hw Hl Hne Hid) as (Ht & Hlo & Hsp).
  rewrite (onMessage_staff w gd msg Hs). unfold dispatch. rewrite Hc, Ht. cbv zeta. rewrite Hlo.
  unfold listCmd. rewrite Hsp. cbn [hd nth_error]. rewrite Hl, parseUserId_id by done.
  set_unfold in Hcw. destruct Hcw as [->|[->|[->|[->|[]]]]]; cmd_eval; reflexivity.
Qed.


(** [list_cmd H] runs the listener on a list command for the hypotheses
    [H] of a staff message, the permissions, the text and the id. *)
Ltac list_cmd Hs Hm Hc Hid :=
  rewrite (list_command_text _ _ _ _ _ Hs Hc) by (done || set_solver);
  unfold list_action; destruct Hm as [-> ->]; cmd_eval;
  match goal with |- ?a = ?a => reflexivity end.

Lemma whitelist_cmd w gd msg id :
  staff_msg w gd msg -> can_manage gd -> m_content msg = "+whitelist" +:+ String " " id ->
  is_snowflake id = true ->
  onMessage msg w = (addIdsM WHITELIST_FILE [id] ;; reply gd msg "Whitelisted") w.
Proof. intros Hs Hm Hc Hid. list_cmd Hs Hm Hc Hid. Qed.

Lemma unwhitelist_cmd w gd msg id :
  staff_msg w gd msg -> can_manage gd -> m_content msg = "+unwhitelist" +:+ String " " id ->
  is_snowflake id = true ->
  onMessage msg w = (removeIdsM WHITELIST_FILE [id] ;; reply gd msg "Removed from Whitelist") w.
Proof. intros Hs Hm Hc Hid. list_cmd Hs Hm Hc Hid. Qed.

Lemma blacklist_cmd w gd msg id :
  staff_msg w gd msg -> can_manage gd -> m_content msg = "+blacklist" +:+ String " " id ->
  is_snowflake id = true ->
  onMessage msg w = (addIdsM BLACKLIST_FILE [id] ;; reply gd msg "Blacklisted") w.
Proof. intros Hs Hm Hc Hid. list_cmd Hs Hm Hc Hid. Qed.

Lemma unblacklist_cmd w gd msg id :
  staff_msg w gd msg -> can_manage gd -> m_content msg = "+unblacklist" +:+ String " " id ->
  is_snowflake id = true ->
  onMessage msg w = (removeIdsM BLACKLIST_FILE [id] ;; reply gd msg "Removed from Blacklist") w.
Proof. intros Hs Hm Hc Hid. list_cmd Hs Hm Hc Hid. Qed.

(** ** What a reply changes *)

Lemma reply_fields gd msg t w :
  let w' := final (reply gd msg t) w in
  w_fs w' = w_fs w /\ w_guilds w' = w_guilds w /\ w_FEATURES w' = w_FEATURES w /\
  w_features_file w' = w_features_file w.
Proof. unfold final, reply, call. by destruct (w_fails _ _ _). Qed.

(** A list command leaves the allow-user file and the guilds alone, so
    the next message of a staff member is still a staff message. *)
Lemma staff_msg_after w w' gd msg :
  staff_msg w gd msg -> w_guilds w' = w_guilds w ->
  readSet (w_fs w') ALLOWED_FILE = readSet (w_fs w) ALLOWED_FILE -> staff_msg w' gd msg.
Proof.
  intros (Hb & Hg & Hgd & Ha) HG HA. repeat split; try done.
  - unfold guild_of. by rewrite HG.
  - unfold isAllowedUser in *. by rewrite HA.
Qed.

Lemma final_addIds_cmd w gd msg file id t :
  onMessage msg w = (addIdsM file [id] ;; reply gd msg t) w ->
  final (onMessage msg) w = final (reply gd msg t) (set_fs (fun fs => snd (addIds file [id] fs)) w).
Proof. intros H. unfold final. by rewrite H. Qed.

Lemma final_removeIds_cmd w gd msg file id t :
  onMessage msg w = (removeIdsM file [id] ;; reply gd msg t) w ->
  final (onMessage msg) w = final (reply gd msg t) (set_fs (fun fs => snd (removeIds file [id] fs)) w).
Proof. intros H. unfold final. by rewrite H. Qed.

(** [+disable ban] by staff: [FEATURES.ban = false], saved, then the reply. *)
Lemma disable_ban_cmd w gd msg :
  staff_msg w gd msg -> m_content msg = "+disable ban" ->
  onMessage msg w =
    (modifyM (set_features (obj_set "ban" (JBool false) (w_FEATURES w))
                           (Some (JObj (obj_set "ban" (JBool false) (w_FEATURES w))))) ;;
     reply gd msg "Disabled") w.
Proof.
  intros Hs Hc. rewrite (onMessage_staff w gd msg Hs). unfold dispatch. rewrite Hc.
  cbv zeta. vm_compute (trim _). vm_compute (string_lower _).
  rewrite !bool_decide_false by done. vm_compute (String.prefix _ _).
  cbv iota. unfold toggleCmd. vm_compute (String.prefix _ _). vm_compute (toggle_tokens _).
  cbv iota. unfold bindM, getsM. reflexivity.
Qed.

(** One known token sets its capability's flag. *)
Lemma apply_toggles_one en t F f :
  normalizeFeatureKey (Some t) = Some f ->
  apply_toggles en [t] F = (obj_set (feature_key f) (JBool en) F, 1%nat, []).
Proof. intros H. unfold apply_toggles. cbn [foldl]. by rewrite H. Qed.

(** ** Properties *)

(** C3. Access control of the command listener: a message whose author
    is not in [allowedUsers.txt] changes nothing at all, whatever it
    says: no file, no flag, no platform call, no reply. *)
Theorem onMessage_gate msg w :
  isAllowedUser (w_fs w) (m_author msg) = false -> final (onMessage msg) w = w.
Proof.
  intros Ha. unfold final, onMessage. destruct (m_author_bot msg); [done|].
  destruct (m_guild msg) as [g|]; [|done]. unfold withGuild. destruct (guild_of w g); [|done].
  unfold bindM, getsM. simpl. by rewrite Ha.
Qed.

Lemma onMessage_gate_witness :
  final (onMessage (cmd_msg "42424242" "+blacklist 123456789")) cmd_world = cmd_world.
Proof. apply onMessage_gate. vm_compute. reflexivity. Defined.

(** C14. [+blacklist X] then [+unblacklist X], for a valid [X] not on the
    deny-list, by staff with the bot allowed to manage the lists, give
    back the deny-list, in order, whatever the replies do. *)
Theorem blacklist_unblacklist_roundtrip w gd m1 m2 id :
  staff_msg w gd m1 -> staff_msg w gd m2 -> can_manage gd ->
  m_content m1 = "+blacklist" +:+ String " " id -> m_content m2 = "+unblacklist" +:+ String " " id ->
  is_snowflake id = true -> id ∉ deny w ->
  deny (final (onMessage m2) (final (onMessage m1) w)) = deny w.
Proof.
  intros Hs1 Hs2 Hm Hc1 Hc2 Hid Habs.
  rewrite (final_addIds_cmd w gd m1 BLACKLIST_FILE id "Blacklisted") by (by apply blacklist_cmd).
  destruct (reply_fields gd m1 "Blacklisted" (set_fs (fun fs => snd (addIds BLACKLIST_FILE [id] fs)) w))
    as (F1 & G1 & _).
  set (w1 := final (reply gd m1 "Blacklisted") _) in *.
  assert (Hs2' : staff_msg w1 gd m2).
  { apply (staff_msg_after w); [done | exact G1 |]. rewrite F1. cbn [w_fs set_fs].
    by rewrite readSet_addIds_other. }
  rewrite (final_removeIds_cmd w1 gd m2 BLACKLIST_FILE id "Removed from Blacklist")
    by (by apply unblacklist_cmd).
  destruct (reply_fields gd m2 "Removed from Blacklist" (set_fs (fun fs => snd (removeIds BLACKLIST_FILE [id] fs)) w1))
    as (F2 & _).
  unfold deny. rewrite F2. cbn [w_fs set_fs]. rewrite readSet_removeIds, F1. cbn [w_fs set_fs].
  unfold removeIds, remove_all. cbn [fst foldl]. rewrite readSet_addIds.
  unfold addIds, add_valid. cbn [fst foldl]. rewrite Hid. by apply js_set_delete_add.
Qed.

Lemma blacklist_unblacklist_roundtrip_witness :
  deny (final (onMessage (cmd_msg "123456789" "+unblacklist 222222"))
          (final (onMessage (cmd_msg "123456789" "+blacklist 222222")) cmd_world)) = deny cmd_world.
Proof.
  apply (blacklist_unblacklist_roundtrip _ (sample_guild ∅ []) _ _ "222222"); try reflexivity.
  all: try (repeat split; vm_compute; reflexivity).
  vm_compute. set_solver.
Defined.

(** C9. [+whitelist X] makes [X] immune to the sweep (spec §8, allow-list
    precedence across components): after the command, [X] is on the
    allow-list, and the next tick of [enforce] bans [X] nowhere, whatever
    the deny-list says and whatever fails. *)
Theorem whitelist_protects_from_sweep w gd msg id :
  staff_msg w gd msg -> can_manage gd -> m_content msg = "+whitelist" +:+ String " " id ->
  is_snowflake id = true ->
  let w1 := final (onMessage msg) w in
  id ∈ allow w1 /\ trace_ext (fun e => forall g, e ≠ EBan g id) w1 (final enforce w1).
Proof.
  intros Hs Hm Hc Hid w1.
  assert (Ha : id ∈ allow w1).
  { subst w1. rewrite (final_addIds_cmd w gd msg WHITELIST_FILE id "Whitelisted") by (by apply whitelist_cmd).
    destruct (reply_fields gd msg "Whitelisted" (set_fs (fun fs => snd (addIds WHITELIST_FILE [id] fs)) w))
      as (F & _). unfold allow. rewrite F. cbn [w_fs set_fs]. rewrite readSet_addIds.
    apply elem_of_add_valid. right. split; [by left | done]. }
  split; [done|]. rewrite enforce_final. eapply trace_ext_mono, forM_guilds_trace.
  intros e [(gd' & id' & _ & _ & -> & Hw & _)|Hsend] g Heq.
  - injection Heq as _ <-. by apply Hw.
  - by rewrite Heq in Hsend.
Qed.

Lemma whitelist_protects_from_sweep_witness :
  let w1 := final (onMessage (cmd_msg "123456789" "+whitelist 222222")) cmd_world in
  "222222" ∈ allow w1 /\ trace_ext (fun e => forall g, e ≠ EBan g "222222") w1 (final enforce w1).
Proof.
  apply (whitelist_protects_from_sweep _ (sample_guild ∅ []) _ "222222"); try reflexivity.
  all: repeat split; vm_compute; reflexivity.
Defined.

(** C18. Turning a guardian off: after a staff member's [+disable ban],
    [FEATURES.ban] is false, the new flags are what [features.json] holds,
    and every later [guildBanAdd] event is ignored, whatever the reply
    does. *)
Theorem disable_ban_stops_ban_guard w gd msg :
  staff_msg w gd msg -> m_content msg = "+disable ban" ->
  let w1 := final (onMessage msg) w in
  isEnabled (w_FEATURES w1) FBan = false /\ w_features_file w1 = Some (JObj (w_FEATURES w1)) /\
  forall g uid, onGuildBanAdd g uid w1 = (Ok tt, w1).
Proof.
  intros Hs Hc w1.
  assert (HF : isEnabled (w_FEATURES w1) FBan = false /\ w_features_file w1 = Some (JObj (w_FEATURES w1))).
  { subst w1. unfold final. rewrite (disable_ban_cmd w gd msg Hs Hc).
    fold (final (modifyM (set_features (obj_set "ban" (JBool false) (w_FEATURES w))
           (Some (JObj (obj_set "ban" (JBool false) (w_FEATURES w))))) ;; reply gd msg "Disabled") w).
    rewrite final_modifyM_bind.
    set (F := obj_set "ban" (JBool false) (w_FEATURES w)).
    destruct (reply_fields gd msg "Disabled" (set_features F (Some (JObj F)) w)) as (_ & _ & -> & ->).
    split; [|done]. unfold isEnabled. simpl. subst F. by rewrite obj_get_set_eq. }
  destruct HF as [HF HJ]. split; [done|]. split; [done|].
  intros g uid. unfold onGuildBanAdd, featureOn, bindM, getsM. simpl. by rewrite HF.
Qed.

Lemma disable_ban_stops_ban_guard_witness :
  let w1 := final (onMessage (cmd_msg "123456789" "+disable ban")) cmd_world in
  isEnabled (w_FEATURES w1) FBan = false /\ w_features_file w1 = Some (JObj (w_FEATURES w1)) /\
  forall g uid, onGuildBanAdd g uid w1 = (Ok tt, w1).
Proof.
  apply (disable_ban_stops_ban_guard _ (sample_guild ∅ [])); [|reflexivity].
  repeat split; vm_compute; reflexivity.
Defined.

(** C32. Bounds of the [+view] pages: the chunks of a list cut it into
    pieces of 1 to 50 ids, in order and with nothing lost or repeated, and
    there are exactly [ceil(n / 50)] of them. *)
Theorem chunks_spec l :
  concat (chunks l) = l /\ Forall (fun c => 1 <= length c <= 50)%nat (chunks l) /\
  length (chunks l) = ((length l + 49) / 50)%nat.
Proof. apply chunks_go_spec. lia. Qed.

(** C35. The two toggle commands are matched differently (line 1458):
    [+enable] needs a space after it, [+disable] does not.  For every
    capability and in every world, a staff member's ["+disable" ++ key]
    (such as ["+disableban"]) switches the capability off, while
    ["+enable" ++ key] is no command at all and changes nothing. *)
Theorem toggle_prefix_asymmetry w gd msg f :
  staff_msg w gd msg ->
  (m_content msg = "+disable" +:+ feature_key f ->
     isEnabled (w_FEATURES (final (onMessage msg) w)) f = false) /\
  (m_content msg = "+enable" +:+ feature_key f -> final (onMessage msg) w = w).
Proof.
  intros Hs. split; intros Hc.
  - set (F := obj_set (feature_key f) (JBool false) (w_FEATURES w)).
    assert (Hrun : onMessage msg w = (modifyM (set_features F (Some (JObj F))) ;; reply gd msg "Disabled") w).
    { rewrite (onMessage_staff w gd msg Hs). unfold dispatch. rewrite Hc. subst F.
      destruct f; cbv zeta; vm_compute (trim _); vm_compute (string_lower _);
        rewrite ?bool_decide_false by done; vm_compute (String.prefix _ _); cbv iota;
        unfold toggleCmd; cbv zeta; vm_compute (String.prefix _ _); vm_compute (toggle_tokens _); cbv iota;
        unfold bindM at 1, getsM; cbn [orb fst snd]; erewrite apply_toggles_one by reflexivity; reflexivity. }
    unfold final. rewrite Hrun.
    fold (final (modifyM (set_features F (Some (JObj F))) ;; reply gd msg "Disabled") w).
    rewrite final_modifyM_bind.
    destruct (reply_fields gd msg "Disabled" (set_features F (Some (JObj F)) w)) as (_ & _ & -> & _).
    unfold isEnabled. cbn. subst F. by rewrite obj_get_set_eq.
  - unfold final. rewrite (onMessage_staff w gd msg Hs). unfold dispatch. rewrite Hc.
    destruct f; cbv zeta; vm_compute (trim _); vm_compute (string_lower _);
      rewrite ?bool_decide_false by done; repeat (vm_compute (String.prefix _ _); cbv iota);
      unfold list_prefix, tail_cmds; repeat (vm_compute (String.prefix _ _); cbv iota); reflexivity.
Qed.

Lemma toggle_prefix_asymmetry_witness :
  staff_msg cmd_world (sample_guild ∅ []) (cmd_msg "123456789" "+disableban") /\
  isEnabled (w_FEATURES (final (onMessage (cmd_msg "123456789" "+disableban")) cmd_world)) FBan = false.
Proof.
  assert (Hs : staff_msg cmd_world (sample_guild ∅ []) (cmd_msg "123456789" "+disableban")).
  { split_and!; vm_compute; reflexivity. }
  split; [exact Hs|]. apply (toggle_prefix_asymmetry _ _ _ FBan Hs). reflexivity.
Defined.

End Commands.
