(* ===== verification/RoleSafety.v ===== *)
(** * RoleSafety: what a staff command may do to the guild

    A staff message makes the bot send replies, DM users, unban users,
    and grant or remove member roles.  It never bans, kicks or edits a
    role.  Every role it grants or removes is a role of the message's
    guild that lies strictly below the bot's highest role.  This holds
    whatever the message says and whatever the platform answers.

    The proof fixes the world [w0] the message arrives in and carries the
    invariant [J]: the guilds' roles and the bot's highest position are
    those of [w0], and the trace has only grown by effects that
    [bound_ok w0] allows.  [RJ s s' := J s -> J s'] is a preorder, and
    [bound_go] decomposes a command into its steps.  Each read
    ([getsM], [withGuild]) brings the state it reads in and its [J] into
    the context, so the guards of a command speak about [w0]. *)

From S2P Require Import Prelude Text Store Features Baseline Platform AuditLog Engine Enforcer Chat RoleCommands Commands.
From stdpp Require Import sorting.
From Stdlib Require Import ZArith.
Import Text Store Features Baseline Platform AuditLog Engine Enforcer Chat RoleCommands Commands.

Module RoleSafety.

Local Open Scope string_scope.

(** The part of a guild the role commands' guards read. *)
Definition gview (gd : Guild) := (g_id gd, g_roles gd, g_me_top gd).

Definition roles_view (w : World) := map gview (w_guilds w).

(** The role caches are keyed by role id, as discord.js keeps them. *)
Definition roles_keyed (w : World) : Prop :=
  forall gd k r, gd ∈ w_guilds w -> g_roles gd !! k = Some r -> r_id r = k.

(** The effects a staff command may have, relative to the world [w0] it
    started in. *)
Definition bound_ok (w0 : World) (e : Effect) : Prop :=
  match e with
  | EAddRole g _ rid | ERemoveRole g _ rid =>
      exists gd r, guild_of w0 g = Some gd /\ role_in w0 g rid = Some r /\ (r_position r < g_me_top gd)%Z
  | ESend _ _ | EDM _ | EUnban _ _ => True
  | _ => False
  end.

(** A sample guild with roles: [SOURCE_ROLE_ID] at position 2, a vip role
    at 4, the bot at 5 and an admin role at 9; member [222222] holds the
    source role. *)
Definition role_guild : Guild :=
  mkGuild "900000001" "100000001" "sab-mm" {["123456789"; "222222"]} ∅
    {[SOURCE_ROLE_ID := mkRole SOURCE_ROLE_ID "traders" 2 0;
      "700000002" := mkRole "700000002" "vip" 4 0;
      "700000003" := mkRole "700000003" "admin" 9 8]}
    [ViewAuditLog; BanMembers; ManageRoles] [] true {["222222" := {[SOURCE_ROLE_ID]}]} ∅ 5 None.

Definition role_world : World :=
  mkWorld 0 "555555555" 0 [role_guild] {[ALLOWED_FILE := "123456789" +:+ String Text.LF ""]} None
    DEFAULT_FEATURES ∅ ∅ None [] [] (fun _ _ => false).

(** ** Lemmas *)

Lemma guild_of_view w g :
  option_map gview (guild_of w g) = List.find (fun t => bool_decide (t.1.1 = g)) (roles_view w).
Proof.
  unfold guild_of, roles_view. induction (w_guilds w) as [|gd gs IH]; [done|]. simpl.
  by case_bool_decide.
Qed.

Lemma role_in_view w g rid :
  role_in w g rid =
  match List.find (fun t => bool_decide (t.1.1 = g)) (roles_view w) with Some t => t.1.2 !! rid | None => None end.
Proof. rewrite <- guild_of_view. unfold role_in. by destruct (guild_of w g). Qed.

Lemma guild_roles_view w g :
  guild_roles w g =
  match List.find (fun t => bool_decide (t.1.1 = g)) (roles_view w) with
  | Some t => map snd (map_to_list t.1.2) | None => [] end.
Proof. rewrite <- guild_of_view. unfold guild_roles. by destruct (guild_of w g). Qed.

Lemma roles_view_map_guild g f gs :
  (forall gd, gview (f gd) = gview gd) -> map gview (map_guild g f gs) = map gview gs.
Proof. intros Hf. unfold map_guild. rewrite map_map. apply map_ext. intros gd. by case_decide. Qed.

Lemma roles_view_perform w0 e s : bound_ok w0 e -> roles_view (perform e s) = roles_view s.
Proof. destruct e; simpl; try contradiction; intros _; unfold roles_view; simpl; try done; by apply roles_view_map_guild. Qed.

Lemma perform_trace_snoc e s : w_trace (perform e s) = (w_trace s ++ [e])%list.
Proof. by destruct (perform_trace e s) as [? [H _]]. Qed.

Lemma elem_of_filter_sort {A} (R : relation A) `{!RelDecision R} (P : A -> Prop) `{!forall x, Decision (P x)} l x :
  x ∈ merge_sort R (filter P l) -> x ∈ l /\ P x.
Proof. rewrite (merge_sort_Permutation R _), list_elem_of_filter. tauto. Qed.

Lemma promo_band_elem gd lo hi rs x : x ∈ promo_band gd lo hi rs -> x ∈ rs /\ bot_above gd x = true.
Proof. unfold promo_band. intros [Hx HP]%elem_of_filter_sort. rewrite !andb_true_iff in HP. tauto. Qed.

Lemma demo_removable_elem gd sp h rs x : x ∈ demo_removable gd sp h rs -> x ∈ rs /\ bot_above gd x = true.
Proof. unfold demo_removable. intros [Hx HP]%elem_of_filter_sort. rewrite !andb_true_iff in HP. tauto. Qed.

Lemma member_role_list_sub w g uid x : x ∈ member_role_list w g uid -> x ∈ guild_roles w g.
Proof. unfold member_role_list. rewrite list_elem_of_filter. tauto. Qed.

Lemma keyed_role_in w g x : roles_keyed w -> x ∈ guild_roles w g -> role_in w g (r_id x) = Some x.
Proof.
  intros Hk. unfold guild_roles, role_in. destruct (guild_of w g) as [gd|] eqn:E; [|set_solver].
  intros ([k y] & -> & Hky)%list_elem_of_fmap. apply elem_of_map_to_list in Hky. simpl.
  unfold guild_of in E. apply List.find_some in E as [Hin _].
  rewrite (Hk gd k y) by (by apply list_elem_of_In || done). exact Hky.
Qed.

Section Bound.
  Context (w0 : World).

Definition J (s : World) : Prop := roles_view s = roles_view w0 /\ trace_ext (bound_ok w0) w0 s.

Definition RJ (s s' : World) : Prop := J s -> J s'.

#[export] Instance RJ_preorder : PreOrder RJ.
Proof. split; unfold RJ; [intros ??; done | intros ??? H1 H2 ?; auto]. Qed.

Lemma RJ_frame s s' : w_guilds s' = w_guilds s -> w_trace s' = w_trace s -> RJ s s'.
Proof. intros HG HT [Hv [sfx [Ht Hf]]]. split; [by rewrite <- Hv; unfold roles_view; rewrite HG|]. exists sfx. by rewrite HT. Qed.

Lemma J_role_in s g rid : J s -> role_in s g rid = role_in w0 g rid.
Proof. intros [Hv _]. by rewrite !role_in_view, Hv. Qed.

Lemma J_guild_roles s g : J s -> guild_roles s g = guild_roles w0 g.
Proof. intros [Hv _]. by rewrite !guild_roles_view, Hv. Qed.

Lemma J_guild s g gd : J s -> guild_of s g = Some gd -> exists gd0, guild_of w0 g = Some gd0 /\ gview gd0 = gview gd.
Proof.
  intros [Hv _] E. pose proof (guild_of_view s g) as H1. pose proof (guild_of_view w0 g) as H2.
  rewrite Hv, <- H2, E in H1. destruct (guild_of w0 g) as [gd0|]; simpl in H1; [|discriminate].
  exists gd0. split; [done|]. unfold gview in *. congruence.
Qed.

Lemma steps_call_J e : bound_ok w0 e -> steps RJ (call e).
Proof.
  intros He s [Hv [sfx [Ht Hf]]]. rewrite call_run. unfold J. destruct (w_fails _ _ _); cbn [snd]; [split; [done | by exists sfx]|].
  split; [by rewrite (roles_view_perform w0) |]. exists (sfx ++ [e])%list.
  rewrite perform_trace_snoc, Ht, app_assoc. split; [done|]. apply Forall_app. by split; [|constructor].
Qed.

Lemma steps_getsM_J {A B} (f : World -> A) (k : A -> M World B) :
  (forall s, J s -> steps RJ (k (f s))) -> steps RJ (bindM (getsM f) k).
Proof. intros H s Js. exact (H s Js s Js). Qed.

Lemma steps_withGuild_J g k :
  (forall s gd, J s -> guild_of s g = Some gd -> steps RJ (k gd)) -> steps RJ (withGuild g k).
Proof. intros H s Js. unfold withGuild. destruct (guild_of s g) as [gd|] eqn:E; [exact (H s gd Js E s Js) | done]. Qed.

Lemma steps_addIdsM_J file ids : steps RJ (addIdsM file ids).
Proof. intros s. by apply RJ_frame. Qed.

Lemma steps_removeIdsM_J file ids : steps RJ (removeIdsM file ids).
Proof. intros s. by apply RJ_frame. Qed.

(** The grant or removal of a role of [w0] that a guard found below the bot. *)
Lemma grant_ok s1 g gd rid r :
  J s1 -> guild_of s1 g = Some gd -> role_in w0 (g_id gd) rid = Some r -> negb (bot_above gd r) = false ->
  exists gd0 r0, guild_of w0 (g_id gd) = Some gd0 /\ role_in w0 (g_id gd) rid = Some r0 /\
                 (r_position r0 < g_me_top gd0)%Z.
Proof.
  intros J1 Hgd Hr Hb. destruct (J_guild s1 g gd J1 Hgd) as (gd0 & H0 & Hv).
  rewrite (guild_of_id _ _ _ Hgd) in Hr |- *. apply negb_false_iff in Hb.
  unfold bot_above in Hb. apply bool_decide_eq_true in Hb. injection Hv as _ _ Htop.
  exists gd0, r. rewrite Htop. auto.
Qed.

End Bound.

Ltac bound_go :=
  repeat match goal with
  | |- PreOrder _ => typeclasses eauto
  | |- steps _ (bindM (getsM _) _) => apply steps_getsM_J; intros ?s ?Js
  | |- steps _ (withGuild _ _) => apply steps_withGuild_J; intros ?s ?gd ?Js ?Hgd
  | |- steps _ (if _ then _ else _) => case_match
  | |- steps _ (match _ with _ => _ end) => case_match
  | |- steps _ (bindM _ _) => apply steps_bindM
  | |- steps _ (tryCatch _ _) => apply steps_tryCatch
  | |- steps ?R (forM_ _ _) => apply (steps_forM_in R); intros ?x ?Hx
  | |- steps _ (retM _) => apply steps_retM
  | |- steps _ (getsM _) => apply steps_getsM
  | |- context [readSetM] => unfold readSetM
  | |- steps _ (modifyM _) => apply steps_modifyM; intros ?; apply RJ_frame; reflexivity
  | |- steps _ (wait _) => apply steps_modifyM; intros ?; apply RJ_frame; reflexivity
  | |- steps _ (call _) => apply steps_call_J; try exact I
  | |- steps _ (fetchMember _ _) => apply steps_fetchMember
  | |- steps _ (fetchMembers _) => apply steps_fetchMembers
  | |- steps _ (fetchUser _) => apply steps_fetchUser
  | |- steps _ (addIdsM _ _) => apply steps_addIdsM_J
  | |- steps _ (removeIdsM _ _) => apply steps_removeIdsM_J
  | |- forall _, _ => intros
  end.

(** [bound_solve] closes the [bound_ok] side goal of a role grant or
    removal from the guard that allowed it. *)
Ltac bound_solve :=
  cbn [bound_ok];
  match goal with Hgd : guild_of ?s1 _ = Some ?gd, J1 : J _ ?s1 |- _ =>
  first
  [ match goal with E : role_in ?s2 (g_id gd) ?rid = Some ?r, Hb : negb (bot_above gd ?r) = false,
                    J2 : J _ ?s2 |- context [?rid] =>
      rewrite (J_role_in _ s2) in E by exact J2; exact (grant_ok _ s1 _ gd rid r J1 Hgd E Hb) end
  | match goal with Hx : ?x ∈ promo_band gd _ _ (guild_roles ?s2 _), J2 : J _ ?s2 |- _ =>
      apply promo_band_elem in Hx as [Hx Hb]; rewrite (J_guild_roles _ s2) in Hx by exact J2;
      apply (grant_ok _ s1 _ gd _ x J1 Hgd); [by apply keyed_role_in | by rewrite Hb] end
  | match goal with Hx : ?x ∈ ?l, H : demo_removable gd _ _ (member_role_list ?s2 _ _) = ?l,
                    J2 : J _ ?s2 |- _ =>
      rewrite <- H in Hx; apply demo_removable_elem in Hx as [Hx Hb]; apply member_role_list_sub in Hx;
      rewrite (J_guild_roles _ s2) in Hx by exact J2;
      apply (grant_ok _ s1 _ gd _ x J1 Hgd); [by apply keyed_role_in | by rewrite Hb] end ]
  end.

Lemma steps_bound_onMessage w0 msg : roles_keyed w0 -> steps (RJ w0) (onMessage msg).
Proof.
  intros Hk.
  unfold onMessage, dispatch, viewCmd, toggleCmd, listCmd, list_action, tail_cmds, recoverCmd, recover_one,
    invallCmd, invall_one, promoCmd, promo_one, demoCmd, saveCmd, save_one, save_file, reply.
  cbv zeta. bound_go; try exact I; bound_solve.
Qed.

(** ** Properties *)

(** C6. Privilege bound of the staff commands: whatever a staff message
    says and whatever the platform answers, the bot only sends, DMs,
    unbans, and grants or removes member roles.  It never bans, kicks or
    edits a role.  Every role it grants or removes is a role of the guild
    that lies strictly below the bot's highest role.  This is what
    [+recover], [+promo], [+demo] and [+save] check with
    [comparePositionTo]. *)
Theorem onMessage_role_bound msg w :
  roles_keyed w -> trace_ext (bound_ok w) w (final (onMessage msg) w).
Proof. intros Hk. apply (steps_bound_onMessage w msg Hk w). split; [done | apply trace_ext_refl]. Qed.

Lemma onMessage_role_bound_witness :
  trace_ext (bound_ok role_world) role_world
    (final (onMessage (cmd_msg "123456789" "+promo <@222222> <@&700000002>")) role_world).
Proof.
  apply onMessage_role_bound. intros gd k r Hin Hr. apply list_elem_of_singleton in Hin as ->.
  unfold role_guild in Hr; cbn [g_roles] in Hr.
  rewrite !lookup_insert_Some, lookup_singleton_Some in Hr. naive_solver.
Defined.

End RoleSafety.
