(* ===== verification/Gate.v ===== *)
(** * Gate: the feature flags, read by the listeners and written by staff

    Each listener of lines 435-757 opens with [if (!FEATURES.<f>) return;].
    [FEATURES] itself is set by [loadFeatures] in [ready] and by the
    [+enable]/[+disable] commands.  This file shows two things.
    - A disabled capability makes its listener a no-op (spec §9, the
      feature-gate acceptance test).  This holds for any number of
      events in a row.  The only thing left is the second [roleDelete]
      listener (lines 555-559), which has no guard: it still drops the
      deleted role's baseline.
    - [FEATURES] stays well formed along any interleaving of gateway
      events, sweep ticks, [ready] and staff commands ([features_wf]:
      each of the six keys has a value).  The bot's process is
      [bot_step]: a step of [EventLoop.step], one staff message, or the
      [ready] event. *)

From S2P Require Import Prelude Text Store Features Baseline Platform AuditLog Engine Enforcer EventLoop Chat RoleCommands Commands.
From Stdlib Require Import ZArith.
Import Text Store Features Baseline Platform AuditLog Engine Enforcer EventLoop Chat RoleCommands Commands.

Module Gate.

Local Open Scope string_scope.

(** ** The guards *)

(** The flag each listener tests first; [roleCreate] and the sweep have
    none. *)
Definition event_feature (ev : Event) : option Feature :=
  match ev with
  | EvBanAdd _ _ => Some FBan
  | EvChannelDelete _ _ _ => Some FChannel
  | EvRoleDelete _ _ => Some FRoleDelete
  | EvRoleUpdate _ _ _ => Some FRoleUpdate
  | EvMemberRemove _ _ => Some FKick
  | EvMemberAdd _ _ _ => Some FBotadd
  | EvRoleCreate _ _ | EvTick => None
  end.

(** What an event does when its flag is off: only the unguarded second
    [roleDelete] listener runs. *)
Definition gate_residue (w : World) (ev : Event) : World :=
  match ev with
  | EvRoleDelete g r => set_roles (fun m => removeOriginalRoleState m g (r_id r)) w
  | _ => w
  end.

(** What an observer of the bot sees or what later events read: the
    platform calls, the files, the guilds, the flags, the revert set, the
    log channel and the event queue.  Only the baselines are left out. *)
Definition observable (w : World) :=
  (w_trace w, w_fs w, w_guilds w, w_FEATURES w, w_features_file w,
   w_REVERTING_ROLES w, w_LOG_CHAN_OBJ w, w_pending w).

(** ** The process: gateway, sweep, [ready] and staff messages *)

Inductive bot_step : World -> World -> Prop :=
| bs_loop w w' : step w w' -> bot_step w w'
| bs_message w msg : bot_step w (final (onMessage msg) w)
| bs_ready w : bot_step w (final onReady w).

(** [FEATURES] stays well formed from [w] to [w']. *)
Definition wf_kept (w w' : World) : Prop :=
  features_wf (w_FEATURES w) = true -> features_wf (w_FEATURES w') = true.

(** A sample with the ban guardian switched off. *)
Definition ban_off_world : World :=
  set_features (obj_set "ban" (JBool false) DEFAULT_FEATURES) None (sample_world ∅ ∅ []).

(** ** Lemmas *)

#[export] Instance wf_kept_preorder : PreOrder wf_kept.
Proof. split; unfold wf_kept; [intros ??; done | intros ??? H1 H2 ?; auto]. Qed.

Lemma wf_kept_frame w w' : proc w' = proc w -> wf_kept w w'.
Proof. intros P. unfold proc in P. simplify_eq. unfold wf_kept. congruence. Qed.

Lemma wf_kept_features w w' : w_FEATURES w' = w_FEATURES w -> wf_kept w w'.
Proof. unfold wf_kept. congruence. Qed.

Ltac wf_steps :=
  prim_steps wf_kept_frame
    ltac:(first [ intros ?; apply wf_kept_features; reflexivity
                | intros ?; unfold fetchRoles; case_match; apply wf_kept_features; reflexivity ]).

Lemma steps_wf_addIdsM file ids : steps wf_kept (addIdsM file ids).
Proof. intros w. by apply wf_kept_features. Qed.

Lemma steps_wf_removeIdsM file ids : steps wf_kept (removeIdsM file ids).
Proof. intros w. by apply wf_kept_features. Qed.

#[export] Hint Resolve steps_wf_addIdsM steps_wf_removeIdsM : bot.

Lemma steps_wf_addExecutorToBlacklist gd x : steps wf_kept (addExecutorToBlacklist gd x).
Proof. unfold addExecutorToBlacklist. wf_steps; auto with bot. Qed.

Lemma steps_wf_handle ev : steps wf_kept (handle ev).
Proof.
  destruct ev; simpl;
    unfold onGuildBanAdd, tryUnban, onChannelDelete, blacklistDeleter, onRoleDelete,
      onRoleDeleteSnapshot, onRoleDeleteBlacklist, onRoleCreate, onRoleUpdate, roleUpdateExecutor,
      revertRole, onGuildMemberRemove, onGuildMemberAdd, enforce, enforceGuild, enforceMember, lookupMember;
    wf_steps; auto using steps_wf_addExecutorToBlacklist with bot.
Qed.

Lemma steps_wf_step w w' : step w w' -> wf_kept w w'.
Proof.
  intros Hs. apply (rtc_step_preorder wf_kept); [apply steps_wf_handle | | | by apply rtc_once];
    intros; by apply wf_kept_features.
Qed.

Lemma steps_wf_pickLogChannel gs : steps wf_kept (pickLogChannel gs).
Proof. induction gs as [|gd gs IH]; simpl; wf_steps. Qed.

Lemma steps_wf_onReady : steps wf_kept onReady.
Proof.
  unfold onReady, snapshotGuildRolesM. wf_steps; [apply steps_wf_pickLogChannel|].
  intros w _. unfold loadFeaturesM, modifyM. cbn [snd].
  pose proof (loadFeatures_wf (w_features_file w)) as Hw.
  destruct (loadFeatures _) as [F file]. exact Hw.
Qed.

Lemma steps_wf_toggleCmd gd msg content lc : steps wf_kept (toggleCmd gd msg content lc).
Proof.
  intros w. unfold toggleCmd. destruct (toggle_tokens _) as [|t ts]; [by apply (steps_call _ wf_kept_frame)|].
  unfold bindM at 1, getsM. cbn [fst snd].
  destruct (apply_toggles _ _ _) as [[F' c] u] eqn:E. unfold bindM, modifyM. cbn [fst snd].
  etrans; [|apply (steps_call _ wf_kept_frame)]. unfold wf_kept. cbn. intros H.
  pose proof (apply_toggles_wf (String.prefix "+enable " lc) (t :: ts) _ H) as Hw. by rewrite E in Hw.
Qed.

Lemma steps_wf_onMessage msg : steps wf_kept (onMessage msg).
Proof.
  unfold onMessage, dispatch, viewCmd, listCmd, list_action, tail_cmds, recoverCmd, recover_one,
    invallCmd, invall_one, promoCmd, promo_one, demoCmd, saveCmd, save_one, save_file.
  chat_steps wf_kept_frame
    ltac:(first [ intros ?; apply wf_kept_features; reflexivity | apply steps_wf_toggleCmd ]);
    auto with bot.
Qed.

Lemma wf_kept_bot_step w w' : bot_step w w' -> wf_kept w w'.
Proof.
  destruct 1 as [w w' Hs|w msg|w]; [by apply steps_wf_step | apply steps_wf_onMessage | apply steps_wf_onReady].
Qed.

Lemma gate_residue_observable w ev :
  observable (gate_residue w ev) = observable w /\ w_FEATURES (gate_residue w ev) = w_FEATURES w.
Proof. by destruct ev. Qed.

(** ** Properties *)

(** C19. Feature gate (spec §9): when a capability is off, any sequence of
    the events it guards (ten bans in a row, say) succeeds, makes no
    platform call, writes no file and changes nothing a later event
    reads.  The one thing left is the unguarded second [roleDelete]
    listener: it drops the deleted role's baseline. *)
Theorem feature_gate_runs f evs w :
  isEnabled (w_FEATURES w) f = false -> Forall (fun ev => event_feature ev = Some f) evs ->
  forM_ evs handle w = (Ok tt, foldl gate_residue w evs) /\
  observable (foldl gate_residue w evs) = observable w.
Proof.
  intros Hoff Hevs. revert w Hoff. induction Hevs as [|ev evs Hev _ IH]; intros w Hoff; [done|].
  assert (Hh : handle ev w = (Ok tt, gate_residue w ev)).
  { destruct ev; simplify_eq/=;
      unfold onGuildBanAdd, onChannelDelete, onRoleDelete, onRoleDeleteSnapshot, onRoleDeleteBlacklist,
        onRoleUpdate, onGuildMemberRemove, onGuildMemberAdd, featureOn, swallow, tryCatch, modifyM, bindM, getsM;
      simpl; by rewrite Hoff. }
  cbn [forM_ foldl]. unfold bindM at 1. rewrite Hh. cbn.
  destruct (gate_residue_observable w ev) as [Ho HF].
  rewrite <- HF in Hoff. destruct (IH _ Hoff) as [-> Ho']. split; [done|]. by rewrite Ho', Ho.
Qed.

Lemma feature_gate_runs_witness :
  forM_ (replicate 10 (EvBanAdd "900000001" "222222")) handle ban_off_world =
    (Ok tt, foldl gate_residue ban_off_world (replicate 10 (EvBanAdd "900000001" "222222"))) /\
  observable (foldl gate_residue ban_off_world (replicate 10 (EvBanAdd "900000001" "222222"))) =
    observable ban_off_world.
Proof. apply (feature_gate_runs FBan); [reflexivity | apply Forall_replicate; reflexivity]. Defined.

(** C20. Type of [FEATURES]: along any interleaving of gateway events,
    sweep ticks, [ready] and staff commands, [FEATURES] keeps a value
    for each of the six capabilities once it has one (as the defaults
    and [loadFeatures] give it), so every guard reads a defined
    property. *)
Theorem features_wf_runs w w' :
  rtc bot_step w w' -> features_wf (w_FEATURES w) = true -> features_wf (w_FEATURES w') = true.
Proof.
  intros Hr. induction Hr as [w|w1 w2 w3 Hs _ IH]; [done|].
  intros H. apply IH. exact (wf_kept_bot_step w1 w2 Hs H).
Qed.

Lemma features_wf_runs_witness :
  features_wf (w_FEATURES (final (onMessage (cmd_msg "123456789" "+disable ban"))
                                (final onReady cmd_world))) = true.
Proof.
  apply (features_wf_runs cmd_world); [| reflexivity].
  eapply rtc_l; [apply bs_ready|]. apply rtc_once, bs_message.
Defined.

End Gate.
