(* ===== verification/MMState.v ===== *)
(** * MMState: the state of the middleman block (lines 759-1342)

    The listener of lines 853-1159 and the [interactionCreate] handler of
    lines 1161-1342 act on more of the platform than the moderation
    handlers do.  They edit the permission overwrites of a guild text
    channel, create channels, delete them after a [setTimeout], answer
    interactions, keep a profit ledger in [profit.txt] and drive the vouch
    ticker of lines 241-310.  [MMWorld] is the moderation [World] with
    this state beside it.  A [World] computation runs inside it through
    [liftW], so a send, a kick, a role grant or a file of [Store] is the
    same step as in the moderation handlers.

    JavaScript numbers are the doubles of [JsNum]. *)

From Stdlib Require Import ZArith QArith Ascii.
From S2P Require Import Prelude Text JsNum Store Features Baseline Platform Chat.
Import Text Store Features Baseline Platform Chat JsNum.

Module MMState.

Local Open Scope string_scope.

(** ** The ids of the block (lines 767-781 and 232-239) *)

Definition MM_ALLOWED_ROLE : string := "1433264703345393786".
Definition MM_STAFF_ROLE : string := "1433264703345393786".
Definition MM_TEAM_ROLE_TO_GIVE : string := "1433193580809289915".
Definition MM_CATEGORY_ID : string := "1431477423245103194".
Definition PROFIT_CONTROLLER_ID : string := "1431477370019254353".
Definition HELPER_ROLE_ID : string := "1431477370019254353".
Definition TICKET_CLAIM : string := "ticket_claim".
Definition TICKET_CLOSE : string := "ticket_close".
Definition VOUCH_CHANNEL_ID : string := "1433208019952341154".

(** ** Channels and their permission overwrites *)

(** The three flags the block sets on an overwrite: allow ([Some true]),
    deny ([Some false]) or inherit ([None]). *)
Record Overwrite : Type := mkOverwrite {
  ow_view : option bool;      (* ViewChannel *)
  ow_send : option bool;      (* SendMessages *)
  ow_history : option bool    (* ReadMessageHistory *)
}.

Definition opt_or {A} (x y : option A) : option A := match x with Some _ => x | None => y end.

(** [permissionOverwrites.edit(id, patch)]: the flags the patch names
    replace the overwrite's, the others stay. *)
Definition ow_merge (patch o : Overwrite) : Overwrite :=
  mkOverwrite (opt_or (ow_view patch) (ow_view o)) (opt_or (ow_send patch) (ow_send o))
    (opt_or (ow_history patch) (ow_history o)).

Definition no_overwrite : Overwrite := mkOverwrite None None None.

(** [{ ViewChannel: true, SendMessages: true, ReadMessageHistory: true }] *)
Definition ow_open : Overwrite := mkOverwrite (Some true) (Some true) (Some true).

(** [{ ViewChannel: false, SendMessages: false }] *)
Definition ow_shut : Overwrite := mkOverwrite (Some false) (Some false) None.

Record Channel : Type := mkChannel {
  ch_guild : string;
  ch_name : string;
  ch_text : bool;                          (* type === ChannelType.GuildText *)
  ch_parent : option string;
  ch_overwrites : gmap string Overwrite    (* by role or member id *)
}.

Definition with_overwrite (id : string) (patch : Overwrite) (c : Channel) : Channel :=
  mkChannel (ch_guild c) (ch_name c) (ch_text c) (ch_parent c)
    (<[id := ow_merge patch (default no_overwrite (ch_overwrites c !! id))]> (ch_overwrites c)).

(** ** The profit ledger (lines 779-824) *)

(** The text of a log line is [fmtUSD] of an amount or a fixed phrase. *)
Inductive LogMsg : Type :=
| LSet (a : JNum)           (* Profit set to ... *)
| LTotal (a : JNum)         (* Total profit set to ... *)
| LReset.                   (* Profile reset *)

Record LogEntry : Type := mkLog { le_ts : Z; le_msg : LogMsg }.

Record ProfitRec : Type := mkRec {
  pr_current : JNum;
  pr_total : JNum;
  pr_logs : list LogEntry
}.

Abbreviation ProfitDB := (gmap string ProfitRec).

(** The content of [profit.txt]: the JSON the bot writes, or any other
    text, which [readProfitDB] reads in the legacy line format. *)
Inductive ProfitFile : Type :=
| PJson (db : ProfitDB)
| PText (raw : string).

(** ** The vouch ticker (lines 241-310) *)

Record Vouch : Type := mkVouch {
  v_timer : option nat;       (* VOUCH_TIMER, an interval handle *)
  v_active : list nat;        (* the intervals the runtime still fires *)
  v_handles : nat;            (* the handles [setInterval] has issued *)
  v_running : bool;           (* VOUCH_RUNNING *)
  v_ms : JNum;                (* VOUCH_MS *)
  v_guild : option string;    (* VOUCH_CHANNEL_OBJ, by the guild of the channel *)
  v_last_fetch : Z            (* lastFullFetch of the running interval's closure *)
}.

(** ** Effects and the state *)

Inductive MMEffect : Type :=
| MEdit (ch id : string) (patch : Overwrite)   (* ch.permissionOverwrites.edit *)
| MCreate (ch : string) (c : Channel)          (* guild.channels.create *)
| MDelete (ch : string)                        (* ch.delete *)
| MReply (ephemeral : bool) (text : string)    (* interaction.reply *)
| MUpdate (text : string)                      (* interaction.update *)
| MModal.                                      (* interaction.showModal *)

Inductive MMCall : Type :=
| MCEffect (e : MMEffect)
| MCFetchChannel (ch : string).

Record MMWorld : Type := mkMM {
  mw : World;
  mw_channels : gmap string Channel;
  mw_created : nat;                    (* channels created so far *)
  mw_timers : list (Z * string);       (* [setTimeout] deletions: due time, channel *)
  mw_vouch : Vouch;
  mw_profit : option ProfitFile;       (* [profit.txt] *)
  mw_trace : list MMEffect;
  mw_fails : Z -> MMCall -> bool;
  mw_new_id : nat -> string;           (* the id the platform gives the n-th new channel *)
  mw_pick : Z -> bool -> nat -> nat    (* [Math.floor(Math.random() * n)] at a time, per call site *)
}.

(** ** Field updates *)

Definition set_mw (w : World) (s : MMWorld) : MMWorld :=
  mkMM w (mw_channels s) (mw_created s) (mw_timers s) (mw_vouch s) (mw_profit s)
    (mw_trace s) (mw_fails s) (mw_new_id s) (mw_pick s).

Definition set_channels (f : gmap string Channel -> gmap string Channel) (s : MMWorld) : MMWorld :=
  mkMM (mw s) (f (mw_channels s)) (mw_created s) (mw_timers s) (mw_vouch s) (mw_profit s)
    (mw_trace s) (mw_fails s) (mw_new_id s) (mw_pick s).

Definition set_timers (t : list (Z * string)) (s : MMWorld) : MMWorld :=
  mkMM (mw s) (mw_channels s) (mw_created s) t (mw_vouch s) (mw_profit s)
    (mw_trace s) (mw_fails s) (mw_new_id s) (mw_pick s).

Definition set_vouch (v : Vouch) (s : MMWorld) : MMWorld :=
  mkMM (mw s) (mw_channels s) (mw_created s) (mw_timers s) v (mw_profit s)
    (mw_trace s) (mw_fails s) (mw_new_id s) (mw_pick s).

Definition set_profit (p : option ProfitFile) (s : MMWorld) : MMWorld :=
  mkMM (mw s) (mw_channels s) (mw_created s) (mw_timers s) (mw_vouch s) p
    (mw_trace s) (mw_fails s) (mw_new_id s) (mw_pick s).

(** A performed effect of the block: the channel map changes as the
    platform changes it, and the effect is traced. *)
Definition perform_mm (e : MMEffect) (s : MMWorld) : MMWorld :=
  let chans := match e with
               | MEdit ch id patch => alter (with_overwrite id patch) ch (mw_channels s)
               | MCreate ch c => <[ch := c]> (mw_channels s)
               | MDelete ch => delete ch (mw_channels s)
               | _ => mw_channels s
               end in
  let created := match e with MCreate _ _ => S (mw_created s) | _ => mw_created s end in
  mkMM (mw s) chans created (mw_timers s) (mw_vouch s) (mw_profit s)
    (mw_trace s ++ [e]) (mw_fails s) (mw_new_id s) (mw_pick s).

(** ** Steps *)

(** A computation of the moderation world, run on the [World] part. *)
Definition liftW {A} (m : M World A) : M MMWorld A :=
  fun s => let (r, w') := m (mw s) in (r, set_mw w' s).

Definition now (s : MMWorld) : Z := w_now (mw s).

(** An outbound call of the block: it fails or is performed. *)
Definition mm_call (e : MMEffect) : M MMWorld unit :=
  fun s => if mw_fails s (now s) (MCEffect e) then (Exn, s) else (Ok tt, perform_mm e s).

(** [await channel.send(text)] and [await msg.reply(text)] *)
Definition send (ch text : string) : M MMWorld unit := liftW (call (ESend ch text)).

(** [await channel.permissionOverwrites.edit(id, patch)] *)
Definition edit (ch id : string) (patch : Overwrite) : M MMWorld unit := mm_call (MEdit ch id patch).

(** [member.roles.cache.has(roleId)] for the author of a message or an
    interaction: [msg.member ?? await guild.members.fetch(id).catch(() => null)]
    is the cached member, and [null] for one who is not a member. *)
Definition hasRole (s : MMWorld) (g uid rid : string) : bool :=
  is_member (mw s) g uid && bool_decide (rid ∈ member_roles (mw s) g uid).

(** [await isTicketChannelId(id)] *)
Definition isTicketM (ch : string) : M MMWorld bool :=
  getsM (fun s => isTicketChannelId (w_fs (mw s)) ch).

(** [await addTicketChannelId(id)] *)
Definition addTicketM (ch : string) : M MMWorld unit :=
  liftW (modifyM (set_fs (addTicketChannelId ch))).

(** [setTimeout(() => ch.delete(...), ms)] *)
Definition scheduleDelete (ms : Z) (ch : string) : M MMWorld unit :=
  modifyM (fun s => set_timers (mw_timers s ++ [((now s + ms)%Z, ch)]) s).

(** Two worlds with the same process state: the relation of a platform
    call, a send or a read. *)
Definition same_proc (w w' : World) : Prop := proc w' = proc w.

#[export] Instance same_proc_preorder : PreOrder same_proc.
Proof. split; [by intros w | intros w1 w2 w3 H1 H2; unfold same_proc in *; congruence]. Qed.

(** ** Lemmas *)

Lemma liftW_run {A} (m : M World A) s : liftW m s = (fst (m (mw s)), set_mw (snd (m (mw s))) s).
Proof. unfold liftW. by destruct (m (mw s)). Qed.

Lemma mw_set_mw w s : mw (set_mw w s) = w.
Proof. reflexivity. Qed.

Lemma mw_channels_set_mw w s : mw_channels (set_mw w s) = mw_channels s.
Proof. reflexivity. Qed.

Section MMSteps.
  Context (R : MMWorld -> MMWorld -> Prop) `{!PreOrder R}.

(** A [World] computation steps by [R] when [R] holds of the lifted ends
    of its relation [Rw]. *)
Lemma steps_liftW {A} (Rw : World -> World -> Prop) (m : M World A) :
  steps Rw m -> (forall s w', Rw (mw s) w' -> R s (set_mw w' s)) -> steps R (liftW m).
Proof. intros Hm HR s. rewrite liftW_run. apply HR, Hm. Qed.

  Hypothesis R_proc : forall s w', same_proc (mw s) w' -> R s (set_mw w' s).

Lemma steps_liftW_proc {A} (m : M World A) : steps same_proc m -> steps R (liftW m).
Proof. intros Hm. by apply (steps_liftW same_proc). Qed.

Lemma steps_send ch t : steps R (send ch t).
Proof. apply steps_liftW_proc, (steps_call _ (fun w w' H => H)). Qed.
End MMSteps.

(** A relation that holds whatever happens to the [World] part, or to the
    channels and the trace of the block. *)
Lemma steps_liftW_any (R : MMWorld -> MMWorld -> Prop) {A} (m : M World A) :
  (forall s w, R s (set_mw w s)) -> steps R (liftW m).
Proof. intros HR s. rewrite liftW_run. apply HR. Qed.

Lemma steps_mm_call_any (R : MMWorld -> MMWorld -> Prop) `{!PreOrder R} e :
  (forall s, R s (perform_mm e s)) -> steps R (mm_call e).
Proof. intros HR s. unfold mm_call. case_match; [reflexivity | apply HR]. Qed.

End MMState.
