(* ===== verification/Tickets.v ===== *)
(** * Tickets: the ticket commands and buttons

    A ticket is a text channel under [MM_CATEGORY_ID] whose id is in
    [tickets.txt].  The staff commands [+claim], [+unclaim], [+transfer]
    and [+close] of the listener of lines 853-1159 (lines 933-1039) and
    the [ticket_claim] and [ticket_close] buttons of [interactionCreate]
    (lines 1211-1249) act on the channel they are used in.  Each of them
    first checks that the channel is a ticket ([ensureTicketHere],
    [isTicketChannelId]).  Claiming opens the channel to the claimer and
    shuts out the staff role; unclaiming opens it to the staff again;
    transferring opens it to a mentioned id; closing deletes it three
    seconds later.

    A ticket is private when the overwrite of [@everyone] denies
    [ViewChannel]; [@everyone] is the role whose id is the guild's. *)

From Stdlib Require Import ZArith QArith Ascii.
From S2P Require Import Prelude Text JsNum Store Features Baseline Platform Chat MMState.
Import Text Store Features Baseline Platform Chat MMState JsNum.

Module Tickets.

Local Open Scope string_scope.

(** ** Channels *)

(** [channel.type === ChannelType.GuildText]; a channel the map does not
    hold is not one. *)
Definition is_text (s : MMWorld) (ch : string) : bool :=
  match mw_channels s !! ch with Some c => ch_text c | None => false end.

(** [ensureTicketHere(channel)] (lines 933-941) *)
Definition ensureTicketHere (ch : string) : M MMWorld bool :=
  let* ok := isTicketM ch in
  if ok then retM true
  else send ch "This command can only be used inside a ticket channel." ;; retM false.

(** The guard the four commands share: a text channel that is a ticket. *)
Definition in_ticket (msg : Message) (k : M MMWorld unit) : M MMWorld unit :=
  let ch := m_channel msg in
  let* text := getsM (fun s => is_text s ch) in
  if negb text then send ch "This can only be used in text channels." else
  let* ok := ensureTicketHere ch in
  if ok then k else retM tt.

(** ** The commands (lines 943-1039) *)

Definition claimCmd (msg : Message) : M MMWorld unit :=
  let ch := m_channel msg in
  in_ticket msg
    (tryCatch (edit ch (m_author msg) ow_open ;;
               edit ch MM_ALLOWED_ROLE ow_shut ;;
               edit ch MM_STAFF_ROLE ow_shut ;;
               send ch "This ticket has been claimed")
              (send ch "Could not update permissions for claim.")).

Definition unclaimCmd (msg : Message) : M MMWorld unit :=
  let ch := m_channel msg in
  in_ticket msg
    (tryCatch (edit ch MM_ALLOWED_ROLE ow_open ;;
               edit ch MM_STAFF_ROLE ow_open ;;
               send ch "Ticket unclaimed")
              (send ch "Failed to restore permissions.")).

Definition transferCmd (msg : Message) : M MMWorld unit :=
  let ch := m_channel msg in
  match parseUserId (nth_error (split_on is_ws (trim (m_content msg))) 1) with
  | None => send ch "Usage: `+transfer @user`"
  | Some uid =>
    in_ticket msg
      (tryCatch (edit ch uid ow_open ;; send ch "Ticket transferred")
                (send ch "Failed to transfer claim."))
  end.

Definition closeCmd (msg : Message) : M MMWorld unit :=
  let ch := m_channel msg in
  in_ticket msg
    (tryCatch (send ch "Ticket closing in 3 seconds" ;; scheduleDelete 3000 ch)
              (send ch "Failed to close this ticket.")).

(** The timer of [+close] and of the close button firing:
    [try { await ch.delete(...) } catch {}]. *)
Definition fireDelete (ch : string) : M MMWorld unit := swallow (mm_call (MDelete ch)).

(** ** The ticket buttons (lines 1211-1249) *)

(** [interaction.reply({ content, ephemeral })] *)
Definition ireply (ephemeral : bool) (text : string) : M MMWorld unit := mm_call (MReply ephemeral text).

(** A button in channel [ch] of guild [g], pressed by [uid]. *)
Definition ticketButton (g ch uid customId : string) : M MMWorld unit :=
  let* here := isTicketM ch in
  if negb here then ireply true "This button can only be used inside a ticket channel." else
  let* helper := getsM (fun s => hasRole s g uid MM_ALLOWED_ROLE || hasRole s g uid MM_STAFF_ROLE) in
  if negb helper then ireply true "You do not have permission to use this button." else
  if bool_decide (customId = TICKET_CLAIM) then
    tryCatch (edit ch uid ow_open ;;
              edit ch MM_ALLOWED_ROLE ow_shut ;;
              edit ch MM_STAFF_ROLE ow_shut ;;
              ireply false "Claimed")
             (ireply true "Could not update permissions for claim.")
  else if bool_decide (customId = TICKET_CLOSE) then
    tryCatch (ireply false "Ticket closing in 3 seconds" ;; scheduleDelete 3000 ch)
             (ireply true "Failed to close ticket.")
  else retM tt.

(** ** Privacy *)

(** The overwrite of [@everyone] denies [ViewChannel]. *)
Definition private_ch (c : Channel) : Prop :=
  exists o, ch_overwrites c !! ch_guild c = Some o /\ ow_view o = Some false.

(** Every ticket of the registry that exists is private. *)
Definition tickets_private (s : MMWorld) : Prop :=
  forall ch c, mw_channels s !! ch = Some c -> isTicketChannelId (w_fs (mw s)) ch = true -> private_ch c.

End Tickets.
