(* ===== verification/Profit.v ===== *)
(** * Profit: the profit ledger in [profit.txt]

    [readProfitDB] and [writeProfitDB] (lines 784-811) and the commands
    [+tprofit], [+addprofit], [+search] and [+reset] of the listener of
    lines 853-1159 (lines 1041-1126).  The ledger maps a user id to its
    profit, its total profit (a limit) and a log.

    [Number(s)] is modelled by the grammar of a StringNumericLiteral: a
    signed decimal with an optional exponent, [0x], [0o] and [0b]
    integers, [Infinity], and the empty string for [0]; anything else is
    [NaN] ([JsNum.js_number]).  The values are doubles: each parse and
    each sum is rounded to the nearest double and may overflow to
    [Infinity] ([JsNum.round_double]).  [JSON.stringify] writes a non-finite
    number as [null].  [null] and [NaN] behave alike at every read of the
    ledger ([x || 0], [Number(x || 0)], and the [typeof] test of
    [+tprofit], whose result is overwritten), so a written non-finite
    number is modelled as [NaN]. *)

From Stdlib Require Import ZArith QArith Ascii.
From S2P Require Import Prelude Text JsNum Store Features Baseline Platform Chat MMState.
Import Text Store Features Baseline Platform Chat MMState JsNum.

Module Profit.

Local Open Scope string_scope.

(** ** Amounts *)

(** [parseMoney(s) = Number(String(s || '0').replace(/[$,]/g, ''))] (line 1046) *)
Definition parseMoney (s : option string) : JNum :=
  let str := match s with Some t => if bool_decide (t = "") then "0" else t | None => "0" end in
  js_number (string_filter (fun c => negb (bool_decide (c = "$"%char \/ c = ","%char))) str).

(** ** The file *)

(** [parts[0]] of [t.split('|')] *)
Fixpoint before_bar (s : string) : string :=
  match s with
  | EmptyString => EmptyString
  | String c s' => if bool_decide (c = "|"%char) then EmptyString else String c (before_bar s')
  end.

(** One line of the legacy format [id current total | log...]. *)
Definition legacy_line (db : ProfitDB) (line : string) : ProfitDB :=
  let t := trim line in
  if bool_decide (t = "") then db else
  let head := split_on is_ws (trim (before_bar t)) in
  <[default "" (head !! 0) :=
      mkRec (js_number (default "" (head !! 1))) (js_number (default "" (head !! 2))) []]> db.

(** [readProfitDB()]: a missing file is [{}]; a JSON file is its object;
    any other text is read in the legacy format. *)
Definition read_db (f : option ProfitFile) : ProfitDB :=
  match f with
  | None => ∅
  | Some (PJson db) => db
  | Some (PText raw) => foldl legacy_line ∅ (split_lines raw)
  end.

(** A number as [JSON.stringify] writes it and [JSON.parse] reads it back. *)
Definition json_num (n : JNum) : JNum := match n with Fin q => Fin q | _ => NaN end.

Definition json_rec (r : ProfitRec) : ProfitRec :=
  mkRec (json_num (pr_current r)) (json_num (pr_total r)) (pr_logs r).

Definition readProfitDB : M MMWorld ProfitDB := getsM (fun s => read_db (mw_profit s)).

(** [writeProfitDB(db)] *)
Definition writeProfitDB (db : ProfitDB) : M MMWorld unit :=
  modifyM (set_profit (Some (PJson (json_rec <$> db)))).

(** ** The commands (lines 1041-1126) *)

(** [db[uid] || { current: 0, total: 0, logs: [] }] *)
Definition record_of (db : ProfitDB) (uid : string) : ProfitRec :=
  default (mkRec (Fin 0) (Fin 0) []) (db !! uid).

(** The arguments [const [, mention, amountStr] = msg.content.trim().split(/\s+/)]. *)
Definition arg (msg : Message) (i : nat) : option string :=
  nth_error (split_on is_ws (trim (m_content msg))) i.

(** [+tprofit @user amount]: the amount becomes the total; the profit set
    on the way is put back to its previous value. *)
Definition tprofit_rec (t : Z) (amt : JNum) (r : ProfitRec) : ProfitRec :=
  mkRec (or0 (pr_current r)) amt
    (pr_logs r ++ [mkLog t (LSet (or0 amt)); mkLog t (LTotal (or0 amt))]).

Definition tprofitCmd (msg : Message) : M MMWorld unit :=
  let amt := parseMoney (arg msg 2) in
  match parseUserId (arg msg 1) with
  | Some uid =>
    if negb (is_finite amt) then send (m_channel msg) "Usage: `+tprofit @user amount`" else
    let* db := readProfitDB in
    let* t := getsM now in
    let r := tprofit_rec t amt (record_of db uid) in
    writeProfitDB (<[uid := r]> db) ;;
    send (m_channel msg) "Profit Report"
  | None => send (m_channel msg) "Usage: `+tprofit @user amount`"
  end.

(** [+addprofit @user amount] *)
Definition addprofit_rec (t : Z) (delta : JNum) (r : ProfitRec) : ProfitRec :=
  let cur := js_add (or0 (pr_current r)) delta in
  mkRec cur (pr_total r) (pr_logs r ++ [mkLog t (LSet (or0 cur))]).

Definition addprofitCmd (msg : Message) : M MMWorld unit :=
  let delta := parseMoney (arg msg 2) in
  match parseUserId (arg msg 1) with
  | Some uid =>
    if negb (is_finite delta) then send (m_channel msg) "Usage: `+addprofit @user amount`" else
    let* db := readProfitDB in
    let* t := getsM now in
    writeProfitDB (<[uid := addprofit_rec t delta (record_of db uid)]> db) ;;
    send (m_channel msg) "Profit Report"
  | None => send (m_channel msg) "Usage: `+addprofit @user amount`"
  end.

(** [+search @user]: the record is shown, a missing one as zeros, and
    nothing is written. *)
Definition searchCmd (msg : Message) : M MMWorld unit :=
  match parseUserId (arg msg 1) with
  | Some uid => let* _ := readProfitDB in send (m_channel msg) "Profit Report"
  | None => send (m_channel msg) "Usage: `+search @user`"
  end.

(** [+reset @user] *)
Definition resetCmd (msg : Message) : M MMWorld unit :=
  match parseUserId (arg msg 1) with
  | Some uid =>
    let* db := readProfitDB in
    let* t := getsM now in
    writeProfitDB (<[uid := mkRec (Fin 0) (Fin 0) [mkLog t LReset]]> db) ;;
    send (m_channel msg) "Reset profit profile"
  | None => send (m_channel msg) "Usage: `+reset @user`"
  end.

(** A sample: [profit.txt] in the legacy format, [222222] with a profit of
    40 and a total of 100. *)
Definition ledger_world : MMWorld :=
  mkMM (mkWorld 0 "555555555" 0 [] ∅ None DEFAULT_FEATURES ∅ ∅ None [] [] (fun _ _ => false))
    ∅ 0 [] (mkVouch None [] 0 false (Fin 20000) None 0)
    (Some (PText ("222222 40 100 | old" +:+ String Text.LF ""))) [] (fun _ _ => false) (fun _ => "555000200")
    (fun _ _ _ => 0%nat).

(** ** Lemmas *)

Lemma mw_profit_send ch t s : mw_profit (snd (send ch t s)) = mw_profit s.
Proof. unfold send. by rewrite liftW_run. Qed.

Lemma read_db_write db : read_db (Some (PJson (json_rec <$> db))) = json_rec <$> db.
Proof. reflexivity. Qed.

(** ** Properties *)

(** C10. [+tprofit @user amount] with a user id and a finite amount sets
    the user's total profit to the amount.  The profit set on the way is
    put back to its previous value: the stored one, or 0 if it was unset,
    0 or [NaN].  The record's log gains the two lines "Profit set to" and
    "Total profit set to".  No other record changes, but for the
    normalisation every write applies. *)
Theorem tprofit_spec msg s uid q :
  parseUserId (arg msg 1) = Some uid -> parseMoney (arg msg 2) = Fin q ->
  let db := read_db (mw_profit s) in
  let db' := read_db (mw_profit (final (tprofitCmd msg) s)) in
  (exists r, db' !! uid = Some r /\ pr_total r = Fin q /\
     pr_current r = json_num (or0 (pr_current (record_of db uid))) /\
     pr_logs r = (pr_logs (record_of db uid) ++ [mkLog (now s) (LSet (or0 (Fin q))); mkLog (now s) (LTotal (or0 (Fin q)))])%list) /\
  (forall u, u ≠ uid -> db' !! u = json_rec <$> db !! u).
Proof.
  intros Hu Hq db db'. subst db db'. unfold tprofitCmd. rewrite Hu, Hq. cbn [is_finite negb].
  unfold final, bindM, readProfitDB, getsM, writeProfitDB, modifyM. cbn [fst snd].
  rewrite mw_profit_send. cbn [mw_profit set_profit]. rewrite read_db_write. split.
  - eexists. rewrite lookup_fmap, lookup_insert_eq. by split_and!.
  - intros u Hne. by rewrite lookup_fmap, lookup_insert_ne by done.
Qed.

Lemma tprofit_spec_witness :
  let msg := mkMessage "123456789" false (Some "900000001") "555000111" "+tprofit <@222222> $1,500" in
  let db := read_db (mw_profit ledger_world) in
  let db' := read_db (mw_profit (final (tprofitCmd msg) ledger_world)) in
  (exists r, db' !! "222222" = Some r /\ pr_total r = Fin 1500 /\
     pr_current r = json_num (or0 (pr_current (record_of db "222222"))) /\
     pr_logs r = (pr_logs (record_of db "222222") ++
       [mkLog (now ledger_world) (LSet (or0 (Fin 1500))); mkLog (now ledger_world) (LTotal (or0 (Fin 1500)))])%list) /\
  (forall u, u ≠ "222222" -> db' !! u = json_rec <$> db !! u).
Proof. apply tprofit_spec; vm_compute; reflexivity. Defined.

(** C23. An amount that is not a finite number ([abc], [Infinity], [1e],
    [--5]) makes [+tprofit] and [+addprofit] answer with their usage and
    leave [profit.txt] as it was. *)
Theorem profit_bad_amount_writes_nothing msg s :
  is_finite (parseMoney (arg msg 2)) = false ->
  mw_profit (final (tprofitCmd msg) s) = mw_profit s /\ mw_profit (final (addprofitCmd msg) s) = mw_profit s.
Proof.
  intros Hf. unfold final, tprofitCmd, addprofitCmd. rewrite Hf.
  split; case_match; cbn [negb]; apply mw_profit_send.
Qed.

Lemma profit_bad_amount_writes_nothing_witness :
  let msg := mkMessage "123456789" false (Some "900000001") "555000111" "+addprofit <@222222> ten" in
  mw_profit (final (tprofitCmd msg) ledger_world) = mw_profit ledger_world /\
  mw_profit (final (addprofitCmd msg) ledger_world) = mw_profit ledger_world.
Proof. apply profit_bad_amount_writes_nothing. vm_compute. reflexivity. Defined.

End Profit.
