(* ===== verification/Vouch.v ===== *)
(** * Vouch: the vouch ticker (lines 241-310)

    [startVouchTicker] clears the interval it stored before, fetches the
    vouch channel, posts once and arms a new [setInterval] of [VOUCH_MS].
    [stopVouchTicker] clears it.  Each firing runs [postOnce].  That call
    fetches all members when the cache is small or the last full fetch is
    older than 30 minutes, picks a random member and a random id of
    [user_ids.txt], and posts to the vouch channel.  Every error is
    swallowed.

    The runtime's intervals are the list [v_active]; [VOUCH_TIMER] is the
    handle the code keeps.  [VOUCH_MS] is a double ([JsNum]); the delay
    Node actually waits is [node_delay]: Node's [setInterval] turns a
    delay that is not in [1, 2^31-1] ms into 1 ms.  The text of the post is not modelled: a post
    is a send of its title to the channel. *)

From Stdlib Require Import ZArith QArith Qround Qabs Lqa Lia Ascii.
From S2P Require Import Prelude Text JsNum Store Features Baseline Platform Chat MMState Profit.
Import Text Store Features Baseline Platform Chat MMState Profit JsNum.

Module Vouch.

Local Open Scope string_scope.

(** [VOUCH_INTERVAL_MS] (line 32) and the initial [VOUCH_MS] (lines
    244-246): a value below 1000 counts as seconds. *)
Definition VOUCH_INTERVAL_MS : Z := 20.

Definition init_vouch_ms (x : Z) : JNum :=
  if (1000 <=? x)%Z then Fin (inject_Z x) else js_round (js_mul (Fin (inject_Z x)) (Fin 1000)).

Definition FULL_FETCH_COOLDOWN_MS : Z := 1800000.

(** The state of the ticker when the process starts. *)
Definition vouch0 : Vouch := mkVouch None [] 0 false (init_vouch_ms VOUCH_INTERVAL_MS) None 0.

(** ** Updates of the ticker's variables *)

(** [if (VOUCH_TIMER) { clearInterval(VOUCH_TIMER); VOUCH_TIMER = null; } VOUCH_RUNNING = false;] *)
Definition stop_vouch (v : Vouch) : Vouch :=
  let active := match v_timer v with
                | Some h => filter (fun x => x ≠ h) (v_active v)
                | None => v_active v
                end in
  mkVouch None active (v_handles v) false (v_ms v) (v_guild v) (v_last_fetch v).

(** [VOUCH_CHANNEL_OBJ = ...] and a fresh closure, [lastFullFetch = 0]. *)
Definition resolve_vouch (g : string) (v : Vouch) : Vouch :=
  mkVouch (v_timer v) (v_active v) (v_handles v) (v_running v) (v_ms v) (Some g) 0.

Definition fetched_at (t : Z) (v : Vouch) : Vouch :=
  mkVouch (v_timer v) (v_active v) (v_handles v) (v_running v) (v_ms v) (v_guild v) t.

(** [VOUCH_TIMER = setInterval(postOnce, VOUCH_MS); VOUCH_RUNNING = true;] *)
Definition arm_vouch (v : Vouch) : Vouch :=
  mkVouch (Some (v_handles v)) (v_active v ++ [v_handles v]) (S (v_handles v)) true
    (v_ms v) (v_guild v) (v_last_fetch v).

Definition with_ms (ms : JNum) (v : Vouch) : Vouch :=
  mkVouch (v_timer v) (v_active v) (v_handles v) (v_running v) ms (v_guild v) (v_last_fetch v).

Definition modifyVouch (f : Vouch -> Vouch) : M MMWorld unit :=
  modifyM (fun s => set_vouch (f (mw_vouch s)) s).

(** ** The ticker *)

(** [await clientInst.channels.fetch(id)]: the guild of the channel; it
    rejects for an unknown channel. *)
Definition fetchChannel (ch : string) : M MMWorld string :=
  fun s => match mw_channels s !! ch with
           | Some c => if mw_fails s (now s) (MCFetchChannel ch) then (Exn, s) else (Ok (ch_guild c), s)
           | None => (Exn, s)
           end.

(** [arr[Math.floor(Math.random() * arr.length)]], [null] for an empty
    array. *)
Definition pick {A} (s : MMWorld) (site : bool) (l : list A) : option A :=
  match l with
  | [] => None
  | _ => nth_error l (mw_pick s (now s) site (length l) mod length l)
  end.

(** [postOnce] of the closure made for guild [g]. *)
Definition postOnce (g : string) : M MMWorld unit :=
  swallow (
    let* t := getsM now in
    let* due := getsM (fun s => bool_decide (size (members_of (mw s) g) < 100)%nat
                                || bool_decide (FULL_FETCH_COOLDOWN_MS < t - v_last_fetch (mw_vouch s))%Z) in
    whenM due (liftW (fetchMembers g) ;; modifyVouch (fetched_at t)) ;;
    let* m := getsM (fun s => pick s true (elements (members_of (mw s) g))) in
    match m with
    | None => retM tt
    | Some _ =>
      let* f := getsM (fun s => pick s false (default [] (read_user_ids (mw s)))) in
      match f with
      | None => retM tt
      | Some _ => send VOUCH_CHANNEL_ID "Recovered Vouch"
      end
    end).

Definition startVouchTicker : M MMWorld unit :=
  modifyVouch stop_vouch ;;
  let* r := tryCatch (let* g := fetchChannel VOUCH_CHANNEL_ID in retM (Some g)) (retM None) in
  match r with
  | None => retM tt
  | Some g => modifyVouch (resolve_vouch g) ;; postOnce g ;; modifyVouch arm_vouch
  end.

Definition stopVouchTicker : M MMWorld unit := modifyVouch stop_vouch.

(** The runtime fires interval [h]. *)
Definition vouchFire (h : nat) : M MMWorld unit :=
  let* v := getsM mw_vouch in
  if bool_decide (h ∈ v_active v) then
    match v_guild v with Some g => postOnce g | None => retM tt end
  else retM tt.

(** ** The commands (lines 1129-1158) *)

Definition vouchStartCmd (msg : Message) : M MMWorld unit :=
  startVouchTicker ;; send (m_channel msg) "Vouch ticker started".

Definition vouchStopCmd (msg : Message) : M MMWorld unit :=
  stopVouchTicker ;; send (m_channel msg) "Vouch ticker stopped".

(** [+vouchinterval <seconds>]: [Number(secStr)] is [NaN] without an
    argument. *)
Definition vouchIntervalCmd (msg : Message) : M MMWorld unit :=
  match (match arg msg 1 with Some t => js_number t | None => NaN end) with
  | Fin q =>
    if Qle_bool q 0 then send (m_channel msg) "Usage: `+vouchinterval <seconds>`" else
    modifyVouch (with_ms (js_round (js_mul (Fin q) (Fin 1000)))) ;;
    let* running := getsM (fun s => v_running (mw_vouch s)) in
    (if running then stopVouchTicker ;; startVouchTicker else retM tt) ;;
    send (m_channel msg) "Vouch interval set"
  | _ => send (m_channel msg) "Usage: `+vouchinterval <seconds>`"
  end.

(** ** The period of the interval

    [setInterval(postOnce, VOUCH_MS)] (line 300): Node.js runs a timer
    whose delay is not a number from 1 to [TIMEOUT_MAX] every 1 ms. *)
Definition TIMEOUT_MAX : Z := 2147483647.

Definition node_delay (ms : JNum) : Q :=
  match ms with
  | Fin q => if Qle_bool 1 q && Qle_bool q (inject_Z TIMEOUT_MAX) then q else 1
  | _ => 1
  end.

(** A step that leaves [VOUCH_MS] alone. *)
Definition ms_kept (s s' : MMWorld) : Prop := v_ms (mw_vouch s') = v_ms (mw_vouch s).

#[export] Instance ms_kept_preorder : PreOrder ms_kept.
Proof. split; [by intros s | intros s1 s2 s3 H1 H2; unfold ms_kept in *; congruence]. Qed.


(** ** Lemmas *)

Lemma steps_fetchChannel (R : MMWorld -> MMWorld -> Prop) `{!PreOrder R} ch : steps R (fetchChannel ch).
Proof. intros s. unfold fetchChannel. repeat case_match; simpl; reflexivity. Qed.

(** Restarting the ticker and answering keep [VOUCH_MS]. *)
Lemma steps_restart_ms (msg : Message) :
  steps ms_kept (let* running := getsM (fun s => v_running (mw_vouch s)) in
                 (if running then stopVouchTicker ;; startVouchTicker else retM tt) ;;
                 send (m_channel msg) "Vouch interval set").
Proof.
  unfold startVouchTicker, stopVouchTicker, modifyVouch, postOnce, send.
  repeat first [ progress steps_auto | apply steps_liftW_any; intros; reflexivity
               | apply (steps_fetchChannel _) | intros ?; reflexivity ].
Qed.

(** ** Properties *)

(** C24. [+vouchinterval <seconds>] with a positive number of seconds sets
    [VOUCH_MS] to [Math.round(seconds * 1000)], the product rounded to a
    double, and restarting a running ticker keeps it.  Node then runs the
    interval every 1 ms both below 0.0004 s, where [VOUCH_MS] is 0, and
    above 2147484 s (about 24.9 days), beyond Node's largest delay.  From
    0.001 s to 2147483 s the period is [VOUCH_MS], an integer within 1 ms
    of the period asked for. *)
Theorem vouchinterval_ms msg s t q :
  arg msg 1 = Some t -> js_number t = Fin q -> (0 < q)%Q ->
  let ms := v_ms (mw_vouch (final (vouchIntervalCmd msg) s)) in
  ms = js_round (js_mul (Fin q) (Fin 1000)) /\
  ((q < 1 # 2500)%Q -> ms = Fin 0 /\ node_delay ms == 1)%Q /\
  ((1 # 1000 <= q <= 2147483)%Q ->
     exists z, ms = Fin (inject_Z z) /\ node_delay ms == inject_Z z /\ Qabs (inject_Z z - q * 1000) <= 1)%Q /\
  ((2147484 < q)%Q -> node_delay ms == 1)%Q.
Proof.
  intros Ha Ht Hq. cbv zeta.
  assert (Hms : v_ms (mw_vouch (final (vouchIntervalCmd msg) s)) = js_round (js_mul (Fin q) (Fin 1000))).
  { unfold vouchIntervalCmd. rewrite Ha, Ht.
    destruct (Qle_bool q 0) eqn:E; [apply Qle_bool_iff in E; lra|].
    unfold final, bindM at 1, modifyVouch, modifyM. cbn [fst snd].
    exact (steps_restart_ms msg (set_vouch (with_ms (js_round (js_mul (Fin q) (Fin 1000))) (mw_vouch s)) s)). }
  rewrite Hms. split; [reflexivity|]. unfold js_mul.
  destruct (js_round_double (q * 1000) ltac:(lra)) as (r & z & Herr & Hr0 & [Hz1 Hz2] & Hcase).
  apply Qabs_Qle_condition in Herr. pose proof two_pow_m1075. pose proof two_pow_1024.
  unfold node_delay, TIMEOUT_MAX.
  split; [|split].
  - intros Hs. destruct Hcase as [-> | [_ Hb]]; [|exfalso; lra].
    assert (Hz : z = 0%Z).
    { assert (z < 1)%Z by (rewrite Zlt_Qlt; change (inject_Z 1) with 1%Q; lra).
      assert (-1 < z)%Z by (rewrite Zlt_Qlt; change (inject_Z (-1)) with (-1)%Q; lra). lia. }
    subst z. split; reflexivity.
  - intros [H1 H2]. destruct Hcase as [-> | [_ Hb]]; [|exfalso; lra].
    assert (Hlo : (1 <= z)%Z).
    { enough (0 < z)%Z by lia. rewrite Zlt_Qlt. change (inject_Z 0) with 0%Q. lra. }
    assert (Hhi : (z <= 2147483647)%Z) by (rewrite Zle_Qle; change (inject_Z 2147483647) with 2147483647%Q; lra).
    exists z. split; [reflexivity|]. split.
    + rewrite Zle_Qle in Hlo, Hhi. change (inject_Z 1) with 1%Q in Hlo.
      apply Qle_bool_iff in Hlo, Hhi. rewrite Hlo, Hhi. reflexivity.
    + apply Qabs_Qle_condition. lra.
  - intros Hbq. destruct Hcase as [-> | [-> _]]; [|reflexivity].
    assert (Hbig : (2147483647 < z)%Z) by (rewrite Zlt_Qlt; change (inject_Z 2147483647) with 2147483647%Q; lra).
    rewrite Zlt_Qlt in Hbig. destruct (Qle_bool (inject_Z z) (inject_Z 2147483647)) eqn:E.
    + apply Qle_bool_iff in E. lra.
    + rewrite andb_false_r. reflexivity.
Qed.

Lemma vouchinterval_ms_witness :
  let msg := mkMessage "123456789" false (Some "900000001") "555000111" "+vouchinterval 0.0003" in
  let ms := v_ms (mw_vouch (final (vouchIntervalCmd msg) ledger_world)) in
  ms = js_round (js_mul (Fin (round_pos (3 # 10000))) (Fin 1000)) /\
  ((round_pos (3 # 10000) < 1 # 2500)%Q -> ms = Fin 0 /\ node_delay ms == 1)%Q /\
  ((1 # 1000 <= round_pos (3 # 10000) <= 2147483)%Q ->
     exists z, ms = Fin (inject_Z z) /\ node_delay ms == inject_Z z /\
       Qabs (inject_Z z - round_pos (3 # 10000) * 1000) <= 1)%Q /\
  ((2147484 < round_pos (3 # 10000))%Q -> node_delay ms == 1)%Q.
Proof.
  apply (vouchinterval_ms _ _ "0.0003"); [reflexivity | vm_compute; reflexivity | vm_compute; reflexivity].
Defined.

End Vouch.
