(* ===== verification/MMListener.v ===== *)
(** * MMListener: the listener of lines 853-1159

    The first [messageCreate] listener.  It ignores bots and direct
    messages, reads the author's roles, and tests the lower-cased trimmed
    content against each command in the order of the code.  Each command
    is gated by a role: [MM_ALLOWED_ROLE] for the panels and the ticket
    commands, [HELPER_ROLE_ID] for the ledger, and either for the vouch
    controls.  The first match runs and the listener returns.  The listener
    has no [try]: a rejected send rejects the listener's promise.

    [isProfitController] (line 861) is computed and never read, so the
    ledger commands are open to the helper role only. *)

From Stdlib Require Import ZArith QArith Ascii.
From S2P Require Import Prelude Text JsNum Store Features Baseline Platform Chat MMState Tickets Profit Vouch.
Import Text Store Features Baseline Platform Chat MMState Tickets Profit Vouch JsNum.

Module MMListener.

Local Open Scope string_scope.

(** The author's roles the listener tests. *)
Record Gates : Type := mkGates { is_mm : bool; is_staff : bool; is_helper : bool }.

Definition gates (s : MMWorld) (g uid : string) : Gates :=
  mkGates (hasRole s g uid MM_ALLOWED_ROLE) (hasRole s g uid MM_STAFF_ROLE) (hasRole s g uid HELPER_ROLE_ID).

(** The commands, once the author's roles are known (lines 865-1158). *)
Definition mm_dispatch (gt : Gates) (msg : Message) (lower : string) : M MMWorld unit :=
  let ch := m_channel msg in
  let mm := is_mm gt in
  let helper := is_helper gt in
  if bool_decide (lower = "+help") && (mm || is_staff gt || helper) then send ch "Staff Help" else
  if bool_decide (lower = "+panel") && mm then send ch "Welcome to Sammy's MM Service" else
  if bool_decide (lower = "+mminfo") && mm then send ch "Middleman Info & Explanation" else
  if bool_decide (lower = "+hit") && mm then send ch "Join our team" else
  if bool_decide (lower = "+claim") && mm then claimCmd msg else
  if bool_decide (lower = "+unclaim") && mm then unclaimCmd msg else
  if String.prefix "+transfer" lower && mm then transferCmd msg else
  if bool_decide (lower = "+close") && mm then closeCmd msg else
  if helper && String.prefix "+tprofit" lower then tprofitCmd msg else
  if helper && String.prefix "+addprofit" lower then addprofitCmd msg else
  if (helper || is_staff gt) && String.prefix "+search" lower then searchCmd msg else
  if helper && String.prefix "+reset" lower then resetCmd msg else
  if (mm || helper) && bool_decide (lower = "+vouch start") then vouchStartCmd msg else
  if (mm || helper) && bool_decide (lower = "+vouch stop") then vouchStopCmd msg else
  if (mm || helper) && String.prefix "+vouchinterval" lower then vouchIntervalCmd msg else
  retM tt.

Definition mmListener (msg : Message) : M MMWorld unit :=
  if m_author_bot msg then retM tt else
  match m_guild msg with
  | None => retM tt
  | Some g =>
    let* gt := getsM (fun s => gates s g (m_author msg)) in
    mm_dispatch gt msg (string_lower (trim (m_content msg)))
  end.

End MMListener.
