(* ===== verification/Interactions.v ===== *)
(** * Interactions: the [interactionCreate] handler (lines 1161-1337)

    Buttons and the modal of the middleman block.
    - [mm_request_open] shows the request modal.
    - [hit_accept] gives [MM_TEAM_ROLE_TO_GIVE] to whoever presses it.
    - [hit_reject] answers, then kicks whoever pressed it.
    - The ticket buttons run [Tickets.ticketButton].
    - The submitted modal creates the ticket: a text channel under
      [MM_CATEGORY_ID] that [@everyone] cannot view and the requester, the
      staff role and a valid other party can.  The handler records the
      channel in [tickets.txt], posts the request and the controls in it,
      tries to DM the other party, and answers the requester.

    The overwrites a channel is created with are applied in the order the
    code lists them, so a later entry for the same id wins.  The handler
    has no outer [try]. *)

From Stdlib Require Import ZArith QArith Ascii.
From S2P Require Import Prelude Text JsNum Store Features Baseline Platform Chat MMState Tickets.
Import Text Store Features Baseline Platform Chat MMState Tickets JsNum.

Module Interactions.

Local Open Scope string_scope.

Inductive IKind : Type :=
| IButton (customId : string)
| IModal (customId trade other : string)   (* the fields mm_trade and mm_other *)
| IOther.

Record Interaction : Type := mkInteraction {
  i_in_guild : bool;        (* interaction.inGuild() *)
  i_guild : string;
  i_channel : string;
  i_user : string;          (* interaction.user.id, also interaction.member.id *)
  i_username : string;
  i_kind : IKind
}.

(** [parseUserId(otherRaw) || otherRaw.replace(/\D/g, '')] *)
Definition other_id (raw : string) : string :=
  match parseUserId (Some raw) with
  | Some id => id
  | None => string_filter is_digit raw
  end.

(** [{ id: ..., deny: [ViewChannel] }] *)
Definition ow_hidden : Overwrite := mkOverwrite (Some false) None None.

(** The [permissionOverwrites] of the new channel, in the code's order. *)
Definition ticket_overwrites (g requester other : string) : list (string * Overwrite) :=
  [(g, ow_hidden); (requester, ow_open); (MM_ALLOWED_ROLE, ow_open); (MM_STAFF_ROLE, ow_open)]
  ++ (if is_snowflake other then [(other, ow_open)] else []).

Definition overwrite_map (l : list (string * Overwrite)) : gmap string Overwrite :=
  foldl (fun m '(id, o) => <[id := o]> m) ∅ l.

(** [`mm-${interaction.user.username.toLowerCase()}`.slice(0, 95)] *)
Definition ticket_name (username : string) : string :=
  String.substring 0 95 ("mm-" +:+ string_lower username).

Definition ticket_channel (g requester username other : string) : Channel :=
  mkChannel g (ticket_name username) true (Some MM_CATEGORY_ID)
    (overwrite_map (ticket_overwrites g requester other)).

(** The submitted request (lines 1252-1335). *)
Definition modalSubmit (it : Interaction) (trade otherRaw : string) : M MMWorld unit :=
  let other := other_id otherRaw in
  tryCatch
    (let* ch := getsM (fun s => mw_new_id s (mw_created s)) in
     mm_call (MCreate ch (ticket_channel (i_guild it) (i_user it) (i_username it) other)) ;;
     addTicketM ch ;;
     send ch "Middleman Request Created" ;;
     send ch "Ticket Controls" ;;
     (if is_snowflake other then liftW (swallow (fetchUser other ;; call (EDM other))) else retM tt) ;;
     ireply true "Created ticket")
    (ireply true "Failed to create ticket channel.").

Definition onInteraction (it : Interaction) : M MMWorld unit :=
  if negb (i_in_guild it) then retM tt else
  let g := i_guild it in
  let uid := i_user it in
  match i_kind it with
  | IButton id =>
    if bool_decide (id = "mm_request_open") then mm_call MModal else
    if bool_decide (id = "hit_accept") then
      tryCatch (liftW (call (EAddRole g uid MM_TEAM_ROLE_TO_GIVE)) ;; mm_call (MUpdate "Invite accepted. Role granted."))
               (ireply true "Could not grant role.")
    else if bool_decide (id = "hit_reject") then
      swallow (mm_call (MUpdate "Invite rejected. You will be removed.") ;; liftW (call (EKick g uid)))
    else if bool_decide (id ∈ [TICKET_CLAIM; TICKET_CLOSE]) then ticketButton g (i_channel it) uid id
    else retM tt
  | IModal id trade other =>
    if bool_decide (id = "mm_request_modal") then modalSubmit it trade other else retM tt
  | IOther => retM tt
  end.

(** A step after the ticket exists: the channels and the files stay, and
    the trace grows. *)
Definition kept (s s' : MMWorld) : Prop :=
  mw_channels s' = mw_channels s /\ w_fs (mw s') = w_fs (mw s) /\ mw_trace s `prefix_of` mw_trace s'.

(** A sample interaction of the member [123456789] in guild [900000001]. *)
Definition sample_it (kind : IKind) : Interaction :=
  mkInteraction true "900000001" "555000111" "123456789" "Trader" kind.

(** A guild [900000001] with the member [123456789], and no channel yet;
    the next channel the platform creates is [555000200]. *)
Definition inter_world : MMWorld :=
  mkMM (mkWorld 0 "555555555" 0
          [mkGuild "900000001" "100000001" "sab-mm" {["123456789"]} ∅ ∅ [] [] false ∅ ∅ 0 None]
          ∅ None DEFAULT_FEATURES ∅ ∅ None [] [] (fun _ _ => false))
    ∅ 0 [] (mkVouch None [] 0 false (Fin 20000) None 0) None [] (fun _ _ => false) (fun _ => "555000200")
    (fun _ _ _ => 0%nat).

(** ** Lemmas *)

#[export] Instance kept_preorder : PreOrder kept.
Proof.
  split; [by intros s | intros s1 s2 s3 (H1 & H2 & H3) (H4 & H5 & H6)].
  split_and!; [congruence | congruence | by etrans].
Qed.

Lemma kept_proc s w' : same_proc (mw s) w' -> kept s (set_mw w' s).
Proof. intros H. split_and!; [done | cbn; by injection H as -> | done]. Qed.

Lemma steps_mm_call_kept e :
  (match e with MEdit _ _ _ | MCreate _ _ | MDelete _ => False | _ => True end) -> steps kept (mm_call e).
Proof.
  intros He. apply steps_mm_call_any; [apply _|]. intros s. unfold perform_mm.
  split_and!; [by destruct e | done | cbn; by eexists].
Qed.

(** [member.roles.add(rid)] adds the role to the member's roles. *)
Lemma member_roles_add w g uid rid gd :
  guild_of w g = Some gd ->
  member_roles (perform (EAddRole g uid rid) w) g uid = {[rid]} ∪ member_roles w g uid.
Proof.
  intros Hg. pose proof (guild_of_id _ _ _ Hg) as Hid.
  unfold member_roles. rewrite Hg. unfold guild_of in *. cbn.
  rewrite find_map_guild by done. rewrite Hg. cbn. rewrite decide_True by done.
  unfold with_member_roles; cbn. by rewrite lookup_insert_eq.
Qed.

(** ** Properties *)

(** C11. The request modal opens a ticket.  Submitting it creates a text
    channel under [MM_CATEGORY_ID] with the id the platform assigns, and
    records that id in [tickets.txt], so [+claim], [+close] and the ticket
    buttons accept the channel.  The channel and the record stay, whatever
    the posts, the DM and the answer that follow do.  The hypotheses are
    that the creation succeeds and that the id is a snowflake, as
    Discord's are. *)
Theorem modal_registers_ticket it trade other s :
  i_in_guild it = true -> i_kind it = IModal "mm_request_modal" trade other ->
  let ch := mw_new_id s (mw_created s) in
  let c := ticket_channel (i_guild it) (i_user it) (i_username it) (other_id other) in
  is_snowflake ch = true -> mw_fails s (now s) (MCEffect (MCreate ch c)) = false ->
  let s' := final (onInteraction it) s in
  mw_channels s' !! ch = Some c /\ isTicketChannelId (w_fs (mw s')) ch = true /\ MCreate ch c ∈ mw_trace s'.
Proof.
  intros Hg Hk ch c Hsf Hok s'.
  set (s1 := perform_mm (MCreate ch c) s).
  set (s2 := set_mw (set_fs (addTicketChannelId ch) (mw s1)) s1).
  assert (H2 : mw_channels s2 !! ch = Some c /\ isTicketChannelId (w_fs (mw s2)) ch = true /\ MCreate ch c ∈ mw_trace s2).
  { subst s2 s1; cbn. split_and!; [by rewrite lookup_insert_eq | apply isTicketChannelId_add; by right |].
    apply elem_of_app; right; by left. }
  enough (Hkept : kept s2 s') by (destruct Hkept as (-> & -> & Ht); destruct H2 as (? & ? & ?);
                                  split_and!; try done; by eapply elem_of_prefix).
  subst s'. unfold onInteraction. rewrite Hg, Hk. cbn [negb].
  rewrite bool_decide_true by done. unfold modalSubmit, final, tryCatch, bindM at 1, getsM.
  fold ch c. unfold bindM at 1, mm_call. rewrite Hok. fold s1. unfold bindM at 1, addTicketM. rewrite liftW_run.
  cbn [fst snd modifyM]. fold s2.
  assert (Hrest : steps kept (ireply true "Failed to create ticket channel.")) by (apply steps_mm_call_kept; exact I).
  match goal with |- context [bindM ?m ?k s2] => assert (Hm : steps kept (bindM m k)) end.
  { unfold send, ireply.
    repeat first [ progress steps_auto | apply steps_mm_call_kept; exact I
                 | apply (steps_liftW_proc _ kept_proc); chat_steps (fun w w' (H : same_proc w w') => H) fail ]. }
  specialize (Hm s2). destruct (bindM _ _ s2) as [[] s3]; cbn [snd] in Hm |- *; [done|].
  by etrans; [exact Hm | apply Hrest].
Qed.

Lemma modal_registers_ticket_witness :
  let it := sample_it (IModal "mm_request_modal" "Garama for 20 dollars" "<@222222>") in
  let ch := mw_new_id inter_world (mw_created inter_world) in
  let c := ticket_channel (i_guild it) (i_user it) (i_username it) (other_id "<@222222>") in
  let s' := final (onInteraction it) inter_world in
  mw_channels s' !! ch = Some c /\ isTicketChannelId (w_fs (mw s')) ch = true /\ MCreate ch c ∈ mw_trace s'.
Proof.
  apply (modal_registers_ticket _ "Garama for 20 dollars" "<@222222>");
    [reflexivity | reflexivity | vm_compute; reflexivity | reflexivity].
Defined.

(** C22. [hit_accept] gives [MM_TEAM_ROLE_TO_GIVE] to whoever presses the
    button.  The handler does not check that the presser is the member
    the [+hit] panel was posted for, so any member who sees the panel can
    take the role.  The role stays even when the update of the message
    fails. *)
Theorem hit_accept_grants it s gd :
  i_in_guild it = true -> i_kind it = IButton "hit_accept" ->
  guild_of (mw s) (i_guild it) = Some gd ->
  w_fails (mw s) (now s) (CEffect (EAddRole (i_guild it) (i_user it) MM_TEAM_ROLE_TO_GIVE)) = false ->
  member_roles (mw (final (onInteraction it) s)) (i_guild it) (i_user it) =
    {[MM_TEAM_ROLE_TO_GIVE]} ∪ member_roles (mw s) (i_guild it) (i_user it).
Proof.
  intros Hi Hk Hg Hf. unfold onInteraction. rewrite Hi, Hk. cbn [negb].
  rewrite bool_decide_false by done. rewrite bool_decide_true by done.
  unfold final, tryCatch, bindM at 1. rewrite liftW_run, !call_run. unfold now in Hf. rewrite Hf.
  cbn [fst snd]. unfold ireply, mm_call.
  repeat case_match; simplify_eq/=; by eapply member_roles_add.
Qed.

Lemma hit_accept_grants_witness :
  member_roles (mw (final (onInteraction (sample_it (IButton "hit_accept"))) inter_world)) "900000001" "123456789" =
    {[MM_TEAM_ROLE_TO_GIVE]} ∪ member_roles (mw inter_world) "900000001" "123456789".
Proof. eapply (hit_accept_grants (sample_it (IButton "hit_accept"))); reflexivity. Defined.

End Interactions.
