(* ===== verification/TicketSafety.v ===== *)
(** * TicketSafety: the tickets stay private

    A ticket is private when [@everyone] may not view it ([private_ch]).
    The modal creates every ticket private, and [+claim], [+unclaim],
    [+close] and the ticket buttons keep it so.  Their edits open a channel
    only to the author or presser and the staff role, and shut the staff
    role.  [+transfer @id] opens it to any snowflake it is given.  For the
    guild's own id, that is the [@everyone] role, so the ticket becomes
    public.

    The proofs follow [RoleSafety]: the invariant [J] is a preorder
    [fun s s' => J s -> J s'] proved step by step.  [J] also says that
    no channel's guild id is among the ids the run opens ([guilds_apart]):
    Discord ids of guilds, users and roles are distinct, and the claims
    name the user-chosen ids this excludes. *)

From Stdlib Require Import ZArith QArith Ascii.
From S2P Require Import Prelude Text JsNum Store Features Baseline Platform Chat MMState Tickets Profit Vouch MMListener Interactions.
Import Text Store Features Baseline Platform Chat MMState Tickets Profit Vouch MMListener Interactions JsNum.

Module TicketSafety.

Local Open Scope string_scope.

(** Every channel belongs to a guild whose id satisfies [P]. *)
Definition guilds_sat (P : string -> Prop) (s : MMWorld) : Prop :=
  forall ch c, mw_channels s !! ch = Some c -> P (ch_guild c).

(** The id [+transfer] opens a channel to. *)
Definition transfer_target (msg : Message) : option string :=
  if String.prefix "+transfer" (string_lower (trim (m_content msg))) then parseUserId (arg msg 1) else None.

(** The ids a message may open a channel to. *)
Definition msg_opened (msg : Message) : list string :=
  m_author msg :: MM_ALLOWED_ROLE :: MM_STAFF_ROLE :: option_list (transfer_target msg).

(** The ids an interaction may open an existing channel to. *)
Definition it_opened (it : Interaction) : list string :=
  [i_user it; MM_ALLOWED_ROLE; MM_STAFF_ROLE].

(** A guild whose member [123456789] holds the staff role, and one private
    ticket [555000111] in it. *)
Definition mm_guild : Guild :=
  mkGuild "900000001" "100000001" "sab-mm" {["123456789"]} ∅ ∅ [] [] false
    {["123456789" := {[MM_ALLOWED_ROLE]}]} ∅ 0 None.

Definition ticket0 : Channel :=
  mkChannel "900000001" "mm-trader" true (Some MM_CATEGORY_ID)
    {["900000001" := mkOverwrite (Some false) None None; MM_ALLOWED_ROLE := ow_open]}.

Definition mm_world : MMWorld :=
  mkMM (mkWorld 0 "555555555" 0 [mm_guild] {[TICKETS_FILE := "555000111" +:+ String Text.LF ""]} None
          DEFAULT_FEATURES ∅ ∅ None [] [] (fun _ _ => false))
    {["555000111" := ticket0]} 0 [] vouch0 None [] (fun _ _ => false) (fun _ => "555000200") (fun _ _ _ => 0%nat).

Definition ticket_msg (text : string) : Message :=
  mkMessage "123456789" false (Some "900000001") "555000111" text.

(** ** Lemmas *)

Section Private.
  Context (P : string -> Prop).

Definition J (s : MMWorld) : Prop := tickets_private s /\ guilds_sat P s.

Definition RJ (s s' : MMWorld) : Prop := J s -> J s'.

#[export] Instance RJ_preorder : PreOrder RJ.
Proof. split; [intros s H; exact H | intros s1 s2 s3 H1 H2 H; auto]. Qed.

(** The channel the modal creates is private unless a later overwrite of
    the list is for the guild's id. *)
Lemma ticket_channel_private g req name other :
  g ∉ [req; MM_ALLOWED_ROLE; MM_STAFF_ROLE; other] -> private_ch (ticket_channel g req name other).
Proof.
  intros Hg. unfold private_ch, ticket_channel, overwrite_map, ticket_overwrites. cbn [ch_overwrites ch_guild].
  destruct (is_snowflake other); cbn [foldl app];
    rewrite ?(lookup_insert_ne _ other g), !lookup_insert_ne, lookup_insert_eq by set_solver; eauto.
Qed.

(** A step that keeps the channels and the ticket file. *)
Lemma private_frame s s' :
  mw_channels s' = mw_channels s -> w_fs (mw s') = w_fs (mw s) -> RJ s s'.
Proof.
  intros Hc Hf [Hp Ha]. split; intros ch c; rewrite Hc; [rewrite Hf|]; [apply Hp | apply Ha].
Qed.

Lemma RJ_proc s w' : same_proc (mw s) w' -> RJ s (set_mw w' s).
Proof. intros H. apply private_frame; [done|]. cbn. by injection H as ->. Qed.

Lemma steps_modifyM_J (f : MMWorld -> MMWorld) :
  (forall s, mw_channels (f s) = mw_channels s /\ w_fs (mw (f s)) = w_fs (mw s)) -> steps RJ (modifyM f).
Proof. intros Hf. apply steps_modifyM. intros s. apply private_frame; apply Hf. Qed.

(** An edit keeps a channel private unless it opens [ViewChannel] to the
    guild's own id. *)
Lemma private_with_overwrite c id patch :
  private_ch c -> (id = ch_guild c -> ow_view patch ≠ Some true) -> private_ch (with_overwrite id patch c).
Proof.
  intros (o & Ho & Hv) Hid. unfold private_ch, with_overwrite; cbn.
  destruct (decide (id = ch_guild c)) as [->|Hne].
  - rewrite lookup_insert_eq, Ho. eexists; split; [done|]. cbn. rewrite Hv.
    specialize (Hid eq_refl). by destruct (ow_view patch) as [[]|].
  - rewrite lookup_insert_ne by done. eauto.
Qed.

Lemma steps_edit_J (opened : list string) ch id patch :
  (forall g, P g -> g ∉ opened) -> (id ∈ opened \/ ow_view patch ≠ Some true) -> steps RJ (edit ch id patch).
Proof.
  intros HP.
  intros Hid s. unfold edit, mm_call. case_match; [done|]. intros [Hp Ha]. unfold perform_mm.
  split; intros ch' c' Hc'; cbn in Hc' |- *; rewrite lookup_alter in Hc';
    (case_decide; [subst ch'; destruct (mw_channels s !! ch) as [c|] eqn:E; simplify_eq/= |]).
  - intros Ht. apply private_with_overwrite; [by eapply Hp|]. intros ->.
    pose proof (HP _ (Ha _ _ E)). destruct Hid; [contradiction | done].
  - intros; by eapply Hp.
  - by eapply Ha.
  - by eapply Ha.
Qed.

(** An effect that does not touch the channels. *)
Lemma steps_mm_call_J e :
  (match e with MEdit _ _ _ | MCreate _ _ | MDelete _ => False | _ => True end) -> steps RJ (mm_call e).
Proof.
  intros He s. unfold mm_call. destruct (mw_fails s (now s) (MCEffect e)); [done|].
  apply private_frame; unfold perform_mm; by destruct e.
Qed.

Lemma steps_delete_J ch : steps RJ (mm_call (MDelete ch)).
Proof.
  intros s. unfold mm_call. case_match; [done|]. intros [Hp Ha]. unfold perform_mm.
  split; intros ch' c' Hc'; cbn in Hc' |- *; apply lookup_delete_Some in Hc' as [_ Hc'].
  - intros; by eapply Hp.
  - by eapply Ha.
Qed.
(** Creating a private channel outside the opened guilds and recording it
    as a ticket. *)
Lemma steps_create_J ch c (k : M MMWorld unit) :
  private_ch c -> P (ch_guild c) -> steps RJ k ->
  steps RJ (mm_call (MCreate ch c) ;; addTicketM ch ;; k).
Proof.
  intros Hc Hg Hk s. unfold bindM at 1, mm_call.
  destruct (mw_fails s (now s) (MCEffect (MCreate ch c))); [done|].
  unfold bindM, addTicketM. rewrite liftW_run. cbn [fst snd modifyM]. etrans; [|apply Hk].
  intros [Hp Ha].
  split; intros ch' c' Hc'; cbn [set_mw mw mw_channels perform_mm set_fs w_fs] in Hc' |- *;
    (destruct (decide (ch' = ch)) as [->|Hne]; [rewrite lookup_insert_eq in Hc'; simplify_eq/= |
     rewrite lookup_insert_ne in Hc' by done]).
  - done.
  - rewrite isTicketChannelId_add. intros [Ht|[-> _]]; [by eapply Hp | done].
  - done.
  - by eapply Ha.
Qed.
End Private.

(** [ticket_steps]: the primitive steps of the block, with an edit's
    side condition when it is immediate. *)
Ltac ticket_steps :=
  repeat first
    [ progress steps_auto
    | apply (steps_send _ (RJ_proc _))
    | apply steps_delete_J
    | apply steps_mm_call_J; exact I
    | match goal with HP : forall g, _ -> g ∉ _ |- steps _ (edit _ _ _) =>
        apply (steps_edit_J _ _ _ _ _ HP); first [right; discriminate | left; solve [repeat constructor]] end
    | apply steps_modifyM_J; intros; split; reflexivity
    | apply (steps_fetchChannel _)
    | apply (steps_liftW_proc _ (RJ_proc _)); chat_steps (fun w w' (H : same_proc w w') => H) fail ].

Lemma steps_mmListener_J P msg : (forall g, P g -> g ∉ msg_opened msg) -> steps (RJ P) (mmListener msg).
Proof.
  intros HP.
  unfold mmListener, mm_dispatch, claimCmd, unclaimCmd, transferCmd, closeCmd, in_ticket,
    ensureTicketHere, isTicketM, scheduleDelete, tprofitCmd, addprofitCmd, searchCmd, resetCmd,
    readProfitDB, writeProfitDB, vouchStartCmd, vouchStopCmd, vouchIntervalCmd, startVouchTicker,
    stopVouchTicker, modifyVouch, postOnce.
  ticket_steps.
  apply (steps_edit_J _ _ _ _ _ HP); left. unfold msg_opened, transfer_target, arg.
  repeat match goal with H : andb _ _ = true |- _ => apply andb_true_iff in H as [? ?] end.
  match goal with H : String.prefix _ _ = true |- _ => rewrite H end.
  match goal with H : parseUserId _ = Some _ |- _ => rewrite H end.
  set_solver.
Qed.

Lemma steps_modalSubmit_J P it trade other :
  P (i_guild it) -> i_guild it ∉ [i_user it; MM_ALLOWED_ROLE; MM_STAFF_ROLE; other_id other] ->
  steps (RJ P) (modalSubmit it trade other).
Proof.
  intros Hg Hp. unfold modalSubmit, ireply. apply (steps_tryCatch (RJ P)); [|ticket_steps].
  apply (steps_bindM (RJ P)); [apply (steps_getsM (RJ P)) | intros ch].
  apply steps_create_J; [by apply ticket_channel_private | done | ticket_steps].
Qed.

Lemma steps_onInteraction_J P it :
  (forall g, P g -> g ∉ it_opened it) -> P (i_guild it) ->
  (forall id t o, i_kind it = IModal id t o -> other_id o ≠ i_guild it) ->
  steps (RJ P) (onInteraction it).
Proof.
  intros HP Hg Hmod. unfold onInteraction, ticketButton, ireply, isTicketM, scheduleDelete.
  ticket_steps. apply steps_modalSubmit_J; [done|].
  specialize (Hmod _ _ _ eq_refl). specialize (HP _ Hg). unfold it_opened in HP. set_solver.
Qed.

Lemma mm_world_private : tickets_private mm_world.
Proof.
  intros ch c Hc _. cbn in Hc. apply lookup_singleton_Some in Hc as [<- <-].
  eexists; split; vm_compute; reflexivity.
Qed.

(** ** Properties *)

(** C5. [+transfer] opens a ticket to any snowflake, the guild's own id
    included.  That id is the [@everyone] role.  So whenever a member with
    [MM_ALLOWED_ROLE] sends [+transfer <@guildId>] in a text ticket of the
    guild and the overwrite edit succeeds, [@everyone] may view the
    ticket: the tickets are no longer private, whatever the answer does. *)
Theorem transfer_guild_id_public msg s g c :
  m_author_bot msg = false -> m_guild msg = Some g ->
  String.prefix "+transfer" (string_lower (trim (m_content msg))) = true ->
  transfer_target msg = Some g -> hasRole s g (m_author msg) MM_ALLOWED_ROLE = true ->
  mw_channels s !! m_channel msg = Some c -> ch_guild c = g -> ch_text c = true ->
  isTicketChannelId (w_fs (mw s)) (m_channel msg) = true ->
  mw_fails s (now s) (MCEffect (MEdit (m_channel msg) g ow_open)) = false ->
  ~ tickets_private (final (mmListener msg) s).
Proof.
  intros Hbot Hg Hpre Htgt Hrole Hc Hcg Htext Htk Hok Hpriv.
  unfold transfer_target in Htgt. rewrite Hpre in Htgt.
  unfold final, mmListener in Hpriv. rewrite Hbot, Hg in Hpriv.
  unfold bindM at 1, getsM in Hpriv. cbn [fst snd] in Hpriv.
  unfold mm_dispatch, gates in Hpriv. cbn [is_mm is_staff is_helper] in Hpriv. rewrite Hrole in Hpriv.
  set (lower := string_lower (trim (m_content msg))) in *.
  rewrite !bool_decide_false in Hpriv by (intros E; rewrite E in Hpre; discriminate).
  rewrite Hpre in Hpriv. cbn [andb] in Hpriv.
  unfold transferCmd in Hpriv. unfold arg in Htgt. rewrite Htgt in Hpriv.
  unfold in_ticket, bindM at 1, getsM, is_text in Hpriv. cbn [fst snd] in Hpriv. rewrite Hc, Htext in Hpriv.
  cbn [negb] in Hpriv. unfold ensureTicketHere, isTicketM, bindM at 1, getsM in Hpriv. cbn [fst snd] in Hpriv.
  cbn [bindM retM getsM fst snd] in Hpriv. rewrite Htk in Hpriv.
  unfold tryCatch, bindM, edit, mm_call in Hpriv. cbn [retM fst snd] in Hpriv. rewrite Hok in Hpriv.
  set (s1 := perform_mm (MEdit (m_channel msg) g ow_open) s) in Hpriv.
  assert (Hk : forall s', kept s1 s' -> ~ tickets_private s').
  { intros s' (Hch & Hfs & _) Hp.
    destruct (Hp (m_channel msg) (with_overwrite g ow_open c)) as (o & Ho & Hv).
    - rewrite Hch. cbn. by rewrite lookup_alter_eq, Hc.
    - rewrite Hfs. exact Htk.
    - cbn in Ho. rewrite Hcg, lookup_insert_eq in Ho. injection Ho as <-. discriminate. }
  destruct (send (m_channel msg) "Ticket transferred" s1) as [[[]|] s2] eqn:E; cbn in Hpriv.
  - eapply Hk; [|exact Hpriv]. pose proof (steps_send kept kept_proc (m_channel msg) "Ticket transferred" s1) as H.
    rewrite E in H. exact H.
  - eapply Hk; [|exact Hpriv]. pose proof (steps_send kept kept_proc (m_channel msg) "Ticket transferred" s1) as H.
    rewrite E in H. etrans; [exact H | apply steps_send, kept_proc].
Qed.

(** A private ticket of [mm_world] made public by [+transfer <@900000001>]. *)
Lemma transfer_guild_id_public_witness :
  tickets_private mm_world /\
  ~ tickets_private (final (mmListener (ticket_msg "+transfer <@900000001>")) mm_world).
Proof.
  split; [apply mm_world_private|].
  apply (transfer_guild_id_public _ mm_world "900000001" ticket0); vm_compute; reflexivity.
Defined.

End TicketSafety.
