(* ===== verification/MMSystem.v ===== *)
(** * MMSystem: the two message listeners and the events of the block

    [messageCreate] has two listeners: the middleman listener (line 853)
    and the staff listener (line 1343).  discord.js calls them in that
    order for every message, and a rejection of the first does not stop
    the second ([bothM]).  The rest of the block's inputs are the
    interactions, the [setTimeout] deletions of [+close], the firings of
    the vouch interval and the passing of time.  A run is a sequence of
    such events, each handled to completion; a handler's rejection ends
    that handler only ([run]).

    Over every run, the tickets of a single guild stay private, as long
    as no event opens a ticket to the guild's own id ([ev_ok]).  The
    staff listener never writes [tickets.txt] ([tickets_kept]).

    The runs handle each event to completion; overlapping handlers are
    not modelled, so the privacy theorem is about sequential runs only.
    For the vouch ticker the sequential view is not sound:
    [startVouchTicker] awaits between clearing [VOUCH_TIMER] (lines
    251-255) and arming a new interval (line 300), so two overlapping
    starts each arm one and the first keeps firing.  No invariant of the
    ticker is claimed. *)

From Stdlib Require Import ZArith QArith Ascii.
From stdpp Require Import sorting.
From S2P Require Import Prelude Text JsNum Store Features Baseline Platform AuditLog Engine Chat RoleCommands Commands.
From S2P Require Import MMState Tickets Profit Vouch MMListener Interactions TicketSafety.
Import Text Store Features Baseline Platform AuditLog Engine Chat RoleCommands Commands.
Import MMState Tickets Profit Vouch MMListener Interactions TicketSafety JsNum.

Module MMSystem.

Local Open Scope string_scope.

(** Two listeners of one event: the second runs whatever the first did. *)
Definition bothM (m1 m2 : M MMWorld unit) : M MMWorld unit := fun s => m2 (snd (m1 s)).

Definition messageCreate (msg : Message) : M MMWorld unit :=
  bothM (mmListener msg) (liftW (onMessage msg)).

Inductive MMEvent : Type :=
| EvMessage (msg : Message)
| EvInteraction (it : Interaction)
| EvTimer (i : nat)          (* the i-th pending [setTimeout] fires *)
| EvVouch (h : nat)          (* the interval [h] fires *)
| EvClock (dt : Z).          (* time passes *)

(** A pending deletion fires once its time has come. *)
Definition fireTimer (i : nat) : M MMWorld unit :=
  let* tm := getsM (fun s => mw_timers s !! i) in
  match tm with
  | Some (due, ch) =>
    let* t := getsM now in
    if (due <=? t)%Z then modifyM (fun s => set_timers (delete i (mw_timers s)) s) ;; fireDelete ch
    else retM tt
  | None => retM tt
  end.

Definition advance (dt : Z) : M MMWorld unit :=
  liftW (modifyM (fun w => set_now (w_now w + Z.max 0 dt)%Z w)).

Definition mm_handle (ev : MMEvent) : M MMWorld unit :=
  match ev with
  | EvMessage msg => messageCreate msg
  | EvInteraction it => onInteraction it
  | EvTimer i => fireTimer i
  | EvVouch h => vouchFire h
  | EvClock dt => advance dt
  end.

(** Each event is handled to completion, whatever its outcome. *)
Definition run (evs : list MMEvent) (s : MMWorld) : MMWorld :=
  foldl (fun s ev => final (mm_handle ev) s) s evs.

(** The ids an event may open a ticket to exclude the guild [g0], and an
    interaction is in [g0]. *)
Definition ev_ok (g0 : string) (ev : MMEvent) : Prop :=
  match ev with
  | EvMessage msg => g0 ∉ msg_opened msg
  | EvInteraction it =>
    (i_guild it = g0) /\ (g0 ∉ it_opened it) /\ (forall id t o, i_kind it = IModal id t o -> other_id o ≠ g0)
  | _ => True
  end.

(** [tickets.txt] is the same file. *)
Definition tickets_kept (w w' : World) : Prop := w_fs w' !! TICKETS_FILE = w_fs w !! TICKETS_FILE.

#[export] Instance tickets_kept_preorder : PreOrder tickets_kept.
Proof. split; [by intros w | intros w1 w2 w3 H1 H2; unfold tickets_kept in *; congruence]. Qed.

(** Every channel is in the guild [g0]. *)
Definition in_guild (g0 : string) : MMWorld -> Prop := guilds_sat (fun g => g = g0).

(** [mm_world] where [123456789] is also in [allowedUsers.txt]. *)
Definition mm_staff_world : MMWorld :=
  set_mw (set_fs (insert ALLOWED_FILE ("123456789" +:+ String Text.LF "")) (mw mm_world)) mm_world.

(** The ledger is the same. *)
Definition profit_kept (s s' : MMWorld) : Prop := mw_profit s' = mw_profit s.

#[export] Instance profit_kept_preorder : PreOrder profit_kept.
Proof. split; [by intros s | intros s1 s2 s3 H1 H2; unfold profit_kept in *; congruence]. Qed.

(** ** Lemmas *)

Lemma tickets_kept_frame w w' : proc w' = proc w -> tickets_kept w w'.
Proof. unfold proc, tickets_kept. intros H. injection H. intros. congruence. Qed.

Lemma tickets_kept_insert w f x : f ≠ TICKETS_FILE -> tickets_kept w (set_fs (insert f x) w).
Proof. intros Hf. unfold tickets_kept. cbn. by rewrite lookup_insert_ne. Qed.

Lemma steps_tickets_addIdsM file ids : file ≠ TICKETS_FILE -> steps tickets_kept (addIdsM file ids).
Proof. intros Hf w. by apply tickets_kept_insert. Qed.

Lemma steps_tickets_removeIdsM file ids : file ≠ TICKETS_FILE -> steps tickets_kept (removeIdsM file ids).
Proof. intros Hf w. by apply tickets_kept_insert. Qed.

Lemma steps_tickets_onMessage msg : steps tickets_kept (onMessage msg).
Proof.
  unfold onMessage, dispatch, viewCmd, toggleCmd, listCmd, list_action, tail_cmds, recoverCmd, recover_one,
    invallCmd, invall_one, promoCmd, promo_one, demoCmd, saveCmd, save_one, save_file.
  chat_steps tickets_kept_frame
    ltac:(first [ apply steps_tickets_addIdsM; discriminate | apply steps_tickets_removeIdsM; discriminate
                | intros ?; apply tickets_kept_frame; reflexivity
                | intros ?; apply tickets_kept_insert; discriminate
                | intros ?; reflexivity ]).
Qed.

(** *** Privacy over a run *)

Lemma steps_messageCreate_J P msg : (forall g, P g -> g ∉ msg_opened msg) -> steps (RJ P) (messageCreate msg).
Proof.
  intros HP s. unfold messageCreate, bothM. etrans; [apply (steps_mmListener_J P msg HP s)|].
  apply (steps_liftW (RJ P) tickets_kept); [apply steps_tickets_onMessage|].
  intros s' w' Hk [Hp Ha]. split; [|done]. intros ch c Hc Ht. eapply Hp; [done|].
  unfold isTicketChannelId, readSet in *. cbn in Ht. by rewrite Hk in Ht.
Qed.

Lemma steps_mm_handle_J g0 ev : ev_ok g0 ev -> steps (RJ (fun g => g = g0)) (mm_handle ev).
Proof.
  destruct ev as [msg|it|i|h|dt]; cbn [ev_ok mm_handle].
  - intros Hok. apply steps_messageCreate_J. by intros g ->.
  - intros (Hg & Hok & Hmod). apply steps_onInteraction_J; [by intros g -> | done |].
    intros ? ? ? E. rewrite Hg. by apply (Hmod _ _ _ E).
  - intros _. unfold fireTimer, fireDelete. ticket_steps.
  - intros _. unfold vouchFire, postOnce. ticket_steps.
  - intros _. unfold advance. apply (steps_liftW_proc _ (RJ_proc _)). apply steps_modifyM. by intros w.
Qed.

(** The listener's branches but the helper's keep the ledger. *)
Lemma steps_dispatch_profit gt msg lower :
  is_helper gt = false -> steps profit_kept (mm_dispatch gt msg lower).
Proof.
  intros Hh. unfold mm_dispatch. cbv zeta. rewrite Hh. cbn [andb orb].
  unfold claimCmd, unclaimCmd, transferCmd, closeCmd, in_ticket, ensureTicketHere, isTicketM, scheduleDelete,
    searchCmd, readProfitDB, vouchStartCmd, vouchStopCmd, vouchIntervalCmd, startVouchTicker, stopVouchTicker,
    modifyVouch, postOnce, edit, send.
  repeat first [ progress steps_auto | apply steps_liftW_any; intros; reflexivity
               | apply steps_mm_call_any; [apply _ | intros; reflexivity]
               | apply (steps_fetchChannel _) | intros ?; reflexivity ].
Qed.

(** ** Properties *)

(** C4. Tickets stay private (composition of the two [messageCreate]
    listeners, [interactionCreate], the [setTimeout] deletions, the vouch
    interval and time).  Take a bot whose channels are all in guild [g0],
    and a run of events none of which opens a ticket to [g0] itself (that
    is, to [@everyone]).  If every ticket is private at the start, every
    ticket is private at the end, the tickets the run creates included. *)
Theorem tickets_private_run g0 evs s :
  Forall (ev_ok g0) evs -> in_guild g0 s -> tickets_private s -> tickets_private (run evs s).
Proof.
  intros Hevs. revert s. induction Hevs as [|ev evs Hev _ IH]; intros s Hg Hp; [done|].
  cbn [run foldl]. destruct (steps_mm_handle_J g0 ev Hev s (conj Hp Hg)) as [Hp' Hg']. by apply IH.
Qed.

Lemma tickets_private_run_witness :
  tickets_private (run [EvMessage (ticket_msg "+claim");
                        EvInteraction (mkInteraction true "900000001" "555000111" "123456789" "mm" (IButton TICKET_CLOSE));
                        EvClock 3000; EvTimer 0; EvVouch 0] mm_world).
Proof.
  apply (tickets_private_run "900000001").
  - repeat first [apply Forall_nil_2 | apply Forall_cons_2]; cbn [ev_ok]; try done;
      repeat match goal with |- _ /\ _ => split end; try done; try (intros ? ? ? [=]);
      refine (bool_decide_unpack _ _); vm_compute; reflexivity.
  - intros ch c Hc. cbn in Hc. apply lookup_singleton_Some in Hc as [<- <-]. reflexivity.
  - apply mm_world_private.
Defined.

(** C21. Only the helper role changes the ledger (spec versus code).  The
    comment at line 1044 says the profit commands are for the helper role
    or the profit controller.  But [isProfitController] is never read, so
    a message from anyone without the role [HELPER_ROLE_ID] leaves
    [profit.txt] as it was, the controller included.  [HELPER_ROLE_ID] is
    the controller's user id, not a role id, so no member holds it unless
    a role was created with that id. *)
Theorem ledger_needs_helper msg s g :
  m_guild msg = Some g -> hasRole s g (m_author msg) HELPER_ROLE_ID = false ->
  mw_profit (final (messageCreate msg) s) = mw_profit s.
Proof.
  intros Hg Hh. unfold final, messageCreate, bothM. rewrite liftW_run. cbn [set_mw mw_profit].
  unfold mmListener. rewrite Hg. destruct (m_author_bot msg); [done|].
  unfold bindM at 1, getsM. by apply steps_dispatch_profit.
Qed.

Lemma ledger_needs_helper_witness :
  mw_profit (final (messageCreate (mkMessage PROFIT_CONTROLLER_ID false (Some "900000001") "555000111"
                                    "+addprofit <@222222> 50")) mm_world) = mw_profit mm_world.
Proof. apply (ledger_needs_helper _ _ "900000001"); reflexivity. Defined.

(** C25. [+help] is answered twice (the two listeners, in order).  When a
    member of [allowedUsers.txt] who also holds [MM_ALLOWED_ROLE] sends
    [+help], both [messageCreate] listeners answer.  The middleman
    listener posts "Staff Help" to the channel first.  Then the staff
    listener posts its own help embed to the log channel, or to the
    channel when the guild has none. *)
Theorem help_answered_twice msg s gd :
  Commands.staff_msg (mw s) gd msg -> hasRole s (g_id gd) (m_author msg) MM_ALLOWED_ROLE = true ->
  string_lower (trim (m_content msg)) = "+help" ->
  w_fails (mw s) (now s) (CEffect (ESend (m_channel msg) "Staff Help")) = false ->
  w_fails (mw s) (now s) (CEffect (ESend (reply_channel gd msg) (embed "Help" ""))) = false ->
  w_trace (mw (final (messageCreate msg) s)) =
    (w_trace (mw s) ++ [ESend (m_channel msg) "Staff Help"; ESend (reply_channel gd msg) (embed "Help" "")])%list.
Proof.
  intros Hst Hr Hl Hf1 Hf2. pose proof Hst as (Hb & Hg & Hgd & Ha). unfold now in *.
  unfold final, messageCreate, bothM, mmListener. rewrite Hb, Hg. unfold bindM at 1, getsM. cbn [fst snd].
  unfold mm_dispatch. cbv zeta. rewrite Hl. unfold gates at 1. cbn [is_mm is_staff is_helper]. rewrite Hr.
  rewrite bool_decide_true by done. cbn [andb orb].
  unfold send. rewrite (liftW_run (call _) s), call_run, Hf1. cbn [fst snd]. rewrite liftW_run. cbn [set_mw mw snd].
  set (w1 := perform (ESend (m_channel msg) "Staff Help") (mw s)).
  rewrite (onMessage_staff w1 gd msg).
  2: { split_and!; [done | done | exact Hgd | unfold w1; by rewrite w_fs_perform]. }
  unfold dispatch. cbv zeta. rewrite Hl, bool_decide_true by done. unfold reply. rewrite call_run.
  unfold w1 at 1 2. rewrite w_fails_perform, w_now_perform, Hf2. cbn. by rewrite <-app_assoc.
Qed.

Lemma help_answered_twice_witness :
  w_trace (mw (final (messageCreate (ticket_msg "+help")) mm_staff_world)) =
    (w_trace (mw mm_staff_world) ++ [ESend "555000111" "Staff Help";
                                     ESend (reply_channel mm_guild (ticket_msg "+help")) (embed "Help" "")])%list.
Proof.
  apply help_answered_twice; [split_and!; reflexivity | reflexivity | reflexivity | reflexivity | reflexivity].
Defined.

End MMSystem.
